(** * ESDB: the event-sourcing core of strato-db

    A shallow embedding of [ESDB.js] (the event pipeline: [metadata.reducer],
    [preprocessor], [reducer], [handledVersion], [triggerWaitingEvent],
    [_waitForEvent], [startPolling], [handleResult], [applyEvent]) and the
    properties of it that the specification states.

    Conventions of the embedding.
    - JavaScript values are the inductive [Val]; objects are association
      lists in insertion order with unique keys.
    - Version numbers are exact integers ([Z]); the source stores them in an
      SQLite INTEGER column and never does non-integer arithmetic on them.
    - An [async] function is a state transformer that runs to its end; the
      places where the source depends on interleaving (the pending promise of
      a waiter, the chain stored in [_waitingP]) are explicit in the state.
    - Side effects that leave the ESDB object (queue writes, table writes,
      derivers, emitted events, settled promises, console output) are
      recorded, in program order, in a trace of [Effect]s. *)

From stdpp Require Import gmap strings list fin_maps pretty sorting.

Open Scope string_scope.
Open Scope list_scope.
Open Scope Z_scope.

(** ** JavaScript values *)

Set Warnings "-register-all".

Inductive Val : Type :=
| VUndef
| VNull
| VBool (b : bool)
| VNum (z : Z)
| VStr (s : string)
| VArr (l : list Val)
| VObj (l : list (string * Val)).

(** [if (x)]: the values the source tests for truthiness. *)
Definition truthy (x : Val) : bool :=
  match x with
  | VUndef | VNull => false
  | VBool b => b
  | VNum z => negb (Z.eqb z 0)
  | VStr s => negb (String.eqb s "")
  | VArr _ | VObj _ => true
  end.

Module Obj.
(** Own properties of an object, as an association list. *)
Section obj.
Context {A : Type}.

Fixpoint get (k : string) (o : list (string * A)) : option A :=
  match o with
  | [] => None
  | (k', x) :: o' => if String.eqb k k' then Some x else get k o'
  end.

(** [delete o[k]] *)
Fixpoint remove (k : string) (o : list (string * A)) : list (string * A) :=
  match o with
  | [] => []
  | (k', x) :: o' =>
      if String.eqb k k' then remove k o' else (k', x) :: remove k o'
  end.

(** [o[k] = x]: an existing key keeps its place, a new one goes last. *)
Fixpoint set (k : string) (x : A) (o : list (string * A)) : list (string * A) :=
  match o with
  | [] => [(k, x)]
  | (k', y) :: o' =>
      if String.eqb k k' then (k, x) :: o' else (k', y) :: set k x o'
  end.

Definition keys (o : list (string * A)) : list string := o.*1.
End obj.
End Obj.

(** [x.k] for a value [x] that is not [undefined] or [null]. *)
Definition prop (k : string) (x : Val) : Val :=
  match x with
  | VObj o => default VUndef (Obj.get k o)
  | _ => VUndef
  end.

(** [{...x}]: the own enumerable properties of [x]; nothing for
    [undefined], [null], booleans and numbers. *)
Definition spread (x : Val) : list (string * Val) :=
  match x with
  | VObj o => o
  | _ => []
  end.

(** ** Events *)

(** What a reducer hands back for its model (the model contract): a change
    description [{set?, ins?, upd?, rm?, ...}] or [{error}] (an object),
    [false], or the model object itself ([r === store[name]]). *)
Inductive ROut : Type :=
| RChange (o : list (string * Val))
| RFalse
| RModel.

(** [if (r)] and [r.error]; a model object carries no [error] property. *)
Definition rtruthy (r : ROut) : bool :=
  match r with
  | RFalse => false
  | RChange _ | RModel => true
  end.

Definition rerror (r : ROut) : Val :=
  match r with
  | RChange o => default VUndef (Obj.get "error" o)
  | RFalse | RModel => VUndef
  end.

Record Event : Type := mkEvent {
  ev_v : option Z;                          (* [v]; [None] when absent *)
  ev_type : string;                         (* [type]; [""] when absent *)
  ev_ts : Z;
  ev_data : Val;
  ev_error : Val;                           (* [error]; [VUndef] when absent *)
  ev_result : option (list (string * ROut)) (* [result]; [None] when absent *)
}.

Definition with_error (e : Event) (err : Val) : Event :=
  mkEvent (ev_v e) (ev_type e) (ev_ts e) (ev_data e) err (ev_result e).

Definition with_result (e : Event) (r : list (string * ROut)) : Event :=
  mkEvent (ev_v e) (ev_type e) (ev_ts e) (ev_data e) (ev_error e) (Some r).

Definition with_v_type (e : Event) (v : option Z) (t : string) : Event :=
  mkEvent v t (ev_ts e) (ev_data e) (ev_error e) (ev_result e).

(** ** The metadata model *)

(** The [metadata] table holds one row, [{id: 'version', v}]; the table is
    modelled by the [v] of that row, [None] while the row does not exist. *)
Definition MetaTable : Type := option Z.

(** [`${n}`] for an integer [n]. *)
Definition num_to_string (n : Z) : string := pretty n.

(** [{set: [{id: 'version', v}]}] *)
Definition version_change (v : Z) : ROut :=
  RChange [("set", VArr [VObj [("id", VStr "version"); ("v", VNum v)]])].

(** [{error: {message: `Current version ${currV} is >= event version ${v}`}}] *)
Definition version_error (currV v : Z) : ROut :=
  RChange [("error",
            VObj [("message",
                   VStr ("Current version " +:+ num_to_string currV
                         +:+ " is >= event version " +:+ num_to_string v))])].

Module metadata.
(** [metadata.reducer]: [model] is [None] when the caller passes a falsy
    model. *)
Definition reducer (model : option MetaTable) (event : Event) : ROut :=
  let v := default 0 (ev_v event) in
  match model with
  | None => RChange []
  | Some currVDoc =>
      let currV := match currVDoc with Some cv => cv | None => -1 end in
      if bool_decide (v > currV) then version_change v
      else version_error currV v
  end.
End metadata.

(** ** Models and their hooks *)

(** A thrown [Error]: the source reads [err.message] and [err.stack]. *)
Record Err : Type := mkErr { err_message : string; err_stack : string }.

Definition err_val (e : Err) : Val :=
  VObj [("message", VStr (err_message e)); ("stack", VStr (err_stack e))].

(** The outcome of an [async] call: the promise resolves or rejects. *)
Inductive Ret (A : Type) : Type :=
| Returns (x : A)
| Throws (e : Err).
Arguments Returns {A} x.
Arguments Throws {A} e.

(** [await]: a rejection propagates to the caller. *)
Global Instance Ret_bind : MBind Ret := λ A B k m,
  match m with
  | Returns x => k x
  | Throws e => Throws e
  end.

(** The rows of a user table. *)
Definition Table : Type := list Val.

(** [this.store]: the registered user tables and the metadata table. *)
Record Store : Type := mkStore {
  tables : gmap string Table;
  meta : MetaTable
}.

(** The hooks of a registered model.
    - [reducer(model, event)] resolves with a change, [false] or the model.
    - [preprocessor({event, model, store})] may mutate [event] in place and
      resolves with a new event or nothing: the pair is the [event] object
      as the call left it and the value returned.
    - [deriver({model, store, event, result})] may write to the tables.
    - [applyChanges(r)] is the method of the registered store object. *)
Record ModelDef : Type := mkModel {
  m_reducer : option (option Table → Event → Ret ROut);
  m_preprocessor :
    option (Event → option Table → Store → Ret (Event * option Event));
  m_deriver :
    option (option Table → Store → Event → list (string * ROut) → Store);
  m_applyChanges : Table → ROut → Table
}.

(** [TypeError]s raised by the runtime on [undefined.x] and [null.x]. *)
Definition TypeError (what : string) : Err :=
  mkErr ("Cannot read property '" +:+ what +:+ "' of undefined") "".

Section ESDB.

(** [models], the constructor argument, in [Object.keys] order. The
    constructor refuses a model called [metadata] and appends its own. *)
Variable models : list (string * ModelDef).

Definition hooks {H : Type} (f : ModelDef → option H) : list (string * H) :=
  omap (λ nm, (λ h, (nm.1, h)) <$> f nm.2) models.

Definition modelNames : list string := models.*1 ++ ["metadata"].
Definition reducerNames : list string := (hooks m_reducer).*1 ++ ["metadata"].
Definition deriverNames : list string := (hooks m_deriver).*1.
Definition preprocNames : list string := (hooks m_preprocessor).*1.

(** *** [preprocessor(event)] *)

Definition preprocess_error (message : string) : Val :=
  VObj [("_preprocess", VObj [("message", VStr message)])].

(** The body of [for (const name of this.preprocNames)], with the hook
    [this.models[name].preprocessor] next to its name. *)
Fixpoint preprocessor_from
    (names : list (string *
       (Event → option Table → Store → Ret (Event * option Event))))
    (store : Store) (event : Event) : Ret Event :=
  match names with
  | [] => Returns event
  | (name, hook) :: names' =>
      let model := tables store !! name in
      let v := ev_v event in
      let type := ev_type event in
      r ← hook event model store ;
      let '(event, newEvent) := r in
      match newEvent with
      | Some newEvent =>
          if truthy (ev_error newEvent) then
            Returns (with_error (with_v_type event v type)
                       (VObj [(name, ev_error newEvent)]))
          else if bool_decide (ev_v newEvent ≠ v) then
            Returns (with_error (with_v_type event v type)
                       (preprocess_error
                          (name +:+ ": preprocessor must retain event version")))
          else if negb (truthy (VStr (ev_type newEvent))) then
            Returns (with_error (with_v_type event v type)
                       (preprocess_error
                          (name +:+ ": preprocessor must return event type")))
          else preprocessor_from names' store newEvent
      | None => preprocessor_from names' store event
      end
  end.

(** [passes names store event final]: every preprocessor of [names]
    lets the loop go on (it returns nothing, or a new event without a
    truthy [error], with the same [v] and a non-empty [type]), and
    [final] is the event the loop holds after them. *)
Inductive passes :
    list (string *
       (Event → option Table → Store → Ret (Event * option Event))) →
    Store → Event → Event → Prop :=
| passes_nil store event : passes [] store event event
| passes_silent name hook names store event event' final :
    hook event (tables store !! name) store = Returns (event', None) →
    passes names store event' final →
    passes ((name, hook) :: names) store event final
| passes_replaced name hook names store event event' newEvent final :
    hook event (tables store !! name) store = Returns (event', Some newEvent) →
    truthy (ev_error newEvent) = false →
    ev_v newEvent = ev_v event →
    ev_type newEvent ≠ "" →
    passes names store newEvent final →
    passes ((name, hook) :: names) store event final.

Definition preprocessor (store : Store) (event : Event) : Ret Event :=
  preprocessor_from (hooks m_preprocessor) store event.

(** *** The composed reducer *)

(** Modelled from the spec: [combineReducers] of [async-redux] is not
    among the source files. Following section 4.4, every reducer runs on
    its own model and the event, the output maps each name to what its
    reducer returned, and a reducer that rejects yields an entry carrying
    an [error] field; the entries are in registration order. *)
Definition combineReducers
    (reducers : list (string * (option Table → Event → Ret ROut)))
    (store : Store) (event : Event) : list (string * ROut) :=
  map (λ nr,
         (nr.1, match nr.2 (tables store !! nr.1) event with
                | Returns r => r
                | Throws e => RChange [("error", err_val e)]
                end)) reducers
  ++ [("metadata", metadata.reducer (Some (meta store)) event)].

Definition modelReducer (store : Store) (event : Event) : list (string * ROut) :=
  combineReducers (hooks m_reducer) store event.

(** [result[name]]; reading a property of a missing entry throws. *)
Definition entry (result : list (string * ROut)) (name : string) : Ret ROut :=
  match Obj.get name result with
  | Some r => Returns r
  | None => Throws (TypeError "error")
  end.

(** [this.reducerNames.some(n => result[n].error)] *)
Fixpoint some_error (result : list (string * ROut)) (names : list string)
  : Ret bool :=
  match names with
  | [] => Returns false
  | n :: names' =>
      r ← entry result n ;
      if truthy (rerror r) then Returns true else some_error result names'
  end.

(** [for (const name of this.reducerNames) { if (r.error) error[name] = r.error }] *)
Fixpoint collect_errors (result : list (string * ROut)) (names : list string)
    (error : list (string * Val)) : Ret (list (string * Val)) :=
  match names with
  | [] => Returns error
  | name :: names' =>
      r ← entry result name ;
      collect_errors result names'
        (if truthy (rerror r) then Obj.set name (rerror r) error else error)
  end.

(** [for (const name of this.reducerNames)
      { if (r === false || r === this.store[name]) delete result[name] }] *)
Fixpoint drop_unchanged (names : list string) (result : list (string * ROut))
  : list (string * ROut) :=
  match names with
  | [] => result
  | name :: names' =>
      drop_unchanged names'
        match Obj.get name result with
        | Some RFalse | Some RModel => Obj.remove name result
        | _ => result
        end
  end.

(** [{metadata: result.metadata}] *)
Definition only_metadata (result : list (string * ROut)) : list (string * ROut) :=
  match Obj.get "metadata" result with
  | Some m => [("metadata", m)]
  | None => []
  end.

(** *** [reducer(state, event)], the body run inside [db.withTransaction] *)
Definition reducer (store : Store) (event : Event) : Ret Event :=
  event ← preprocessor store event ;
  if truthy (ev_error event) then
    let metadata := metadata.reducer (Some (meta store)) event in
    Returns (with_result event [("metadata", metadata)])
  else
    let result := modelReducer store event in
    hasError ← some_error result reducerNames ;
    if hasError : bool then
      error ← collect_errors result reducerNames [] ;
      Returns (with_error (with_result event (only_metadata result)) (VObj error))
    else
      Returns (with_result event (drop_unchanged reducerNames result)).

(** ** The ESDB object *)

(** The promise chain held in [_waitingP]:
    [this._waitForEvent().catch(...).then(v => ...)]. *)
Inductive Chain : Type :=
| FirstRun (lastV : option Z)   (* the run [startPolling] started; [.catch().then()] is attached *)
| SecondRun (lastV : option Z)  (* the run the [.then] callback returned; nothing is attached *)
| Settled.                      (* the chain has settled and is still in [_waitingP] *)

(** The mutable fields of the ESDB instance, the queue rows it reads and
    writes, and two counters: the promises created so far (a waiter is
    known by the number of its promise) and the database writes attempted
    so far. *)
Record ESDB : Type := mkESDB {
  store : Store;
  queue : gmap Z Event;
  _waitingFor : gmap Z nat;
  _maxWaitingFor : Z;
  minVersion : Z;
  _isPolling : bool;
  _reallyStop : bool;
  _waitingP : option Chain;
  _reduxInited : bool;
  redux_state : option Event;
  promises : nat;
  writes : nat
}.

Definition set_store (x : Store) (s : ESDB) : ESDB :=
  mkESDB x (queue s) (_waitingFor s) (_maxWaitingFor s) (minVersion s)
    (_isPolling s) (_reallyStop s) (_waitingP s) (_reduxInited s)
    (redux_state s) (promises s) (writes s).
Definition set_queue (x : gmap Z Event) (s : ESDB) : ESDB :=
  mkESDB (store s) x (_waitingFor s) (_maxWaitingFor s) (minVersion s)
    (_isPolling s) (_reallyStop s) (_waitingP s) (_reduxInited s)
    (redux_state s) (promises s) (writes s).
Definition set_waitingFor (x : gmap Z nat) (s : ESDB) : ESDB :=
  mkESDB (store s) (queue s) x (_maxWaitingFor s) (minVersion s)
    (_isPolling s) (_reallyStop s) (_waitingP s) (_reduxInited s)
    (redux_state s) (promises s) (writes s).
Definition set_maxWaitingFor (x : Z) (s : ESDB) : ESDB :=
  mkESDB (store s) (queue s) (_waitingFor s) x (minVersion s)
    (_isPolling s) (_reallyStop s) (_waitingP s) (_reduxInited s)
    (redux_state s) (promises s) (writes s).
Definition set_minVersion (x : Z) (s : ESDB) : ESDB :=
  mkESDB (store s) (queue s) (_waitingFor s) (_maxWaitingFor s) x
    (_isPolling s) (_reallyStop s) (_waitingP s) (_reduxInited s)
    (redux_state s) (promises s) (writes s).
Definition set_isPolling (x : bool) (s : ESDB) : ESDB :=
  mkESDB (store s) (queue s) (_waitingFor s) (_maxWaitingFor s) (minVersion s)
    x (_reallyStop s) (_waitingP s) (_reduxInited s)
    (redux_state s) (promises s) (writes s).
Definition set_reallyStop (x : bool) (s : ESDB) : ESDB :=
  mkESDB (store s) (queue s) (_waitingFor s) (_maxWaitingFor s) (minVersion s)
    (_isPolling s) x (_waitingP s) (_reduxInited s)
    (redux_state s) (promises s) (writes s).
Definition set_waitingP (x : option Chain) (s : ESDB) : ESDB :=
  mkESDB (store s) (queue s) (_waitingFor s) (_maxWaitingFor s) (minVersion s)
    (_isPolling s) (_reallyStop s) x (_reduxInited s)
    (redux_state s) (promises s) (writes s).
Definition set_reduxInited (x : bool) (s : ESDB) : ESDB :=
  mkESDB (store s) (queue s) (_waitingFor s) (_maxWaitingFor s) (minVersion s)
    (_isPolling s) (_reallyStop s) (_waitingP s) x
    (redux_state s) (promises s) (writes s).
Definition set_redux_state (x : option Event) (s : ESDB) : ESDB :=
  mkESDB (store s) (queue s) (_waitingFor s) (_maxWaitingFor s) (minVersion s)
    (_isPolling s) (_reallyStop s) (_waitingP s) (_reduxInited s)
    x (promises s) (writes s).
Definition set_promises (x : nat) (s : ESDB) : ESDB :=
  mkESDB (store s) (queue s) (_waitingFor s) (_maxWaitingFor s) (minVersion s)
    (_isPolling s) (_reallyStop s) (_waitingP s) (_reduxInited s)
    (redux_state s) x (writes s).
Definition set_writes (x : nat) (s : ESDB) : ESDB :=
  mkESDB (store s) (queue s) (_waitingFor s) (_maxWaitingFor s) (minVersion s)
    (_isPolling s) (_reallyStop s) (_waitingP s) (_reduxInited s)
    (redux_state s) (promises s) x.

(** ** Effects *)

(** What a promise is rejected with. *)
Inductive Reason : Type :=
| REvent (e : Event)
| RErr (e : Err).

Inductive Effect : Type :=
| QueueSet (e : Event)                         (* [queue.set(event)] *)
| ApplyChanges (name : string) (r : option ROut) (* [store[name].applyChanges(r)] *)
| RunDeriver (name : string) (e : Event) (result : list (string * ROut))
| ConsoleError (what : string) (e : Err)       (* [console.error(what, err)] *)
| Emit (kind : string) (e : Event)             (* [this.emit(kind, event)] *)
| Resolve (o : nat) (e : Event)                (* [o.resolve(event)] *)
| Reject (o : nat) (r : Reason)                (* [o.reject(...)] *)
| Unhandled (e : Err).                         (* a rejection nobody awaits *)

(** A computation on the ESDB object: it leaves a new state and a trace
    whether it returns or throws. *)
Definition Act (A : Type) : Type := ESDB → Ret A * ESDB * list Effect.

Definition act_ret {A : Type} (x : A) : Act A := λ s, (Returns x, s, []).

Definition act_bind {A B : Type} (m : Act A) (k : A → Act B) : Act B := λ s,
  match m s with
  | (Returns x, s', t) =>
      match k x s' with
      | (r, s'', t') => (r, s'', t ++ t')
      end
  | (Throws e, s', t) => (Throws e, s', t)
  end.

Definition throw {A : Type} (e : Err) : Act A := λ s, (Throws e, s, []).

(** [try { m } catch (err) { h(err) }] *)
Definition catch {A : Type} (m : Act A) (h : Err → Act A) : Act A := λ s,
  match m s with
  | (Returns x, s', t) => (Returns x, s', t)
  | (Throws e, s', t) =>
      match h e s' with
      | (r, s'', t') => (r, s'', t ++ t')
      end
  end.

(** Start a call and keep its promise without awaiting it. *)
Definition start {A : Type} (m : Act A) : Act (Ret A) := λ s,
  match m s with
  | (r, s', t) => (Returns r, s', t)
  end.

Definition get_state : Act ESDB := λ s, (Returns s, s, []).
Definition modify (f : ESDB → ESDB) : Act unit := λ s, (Returns (), f s, []).
Definition effect (e : Effect) : Act unit := λ s, (Returns (), s, [e]).

Notation "x ⇐ m ;; k" := (act_bind m (λ x, k))
  (at level 100, m at next level, k at level 200, right associativity,
   only parsing).
Notation "m ;;; k" := (act_bind m (λ _, k))
  (at level 100, k at level 200, right associativity, only parsing).

(** ** The collaborators of the ESDB object *)

(** The [n]-th database write of a run fails with [e] when [fault n] is
    [Some e]. *)
Variable fault : nat → option Err.
(** [process.env.NODE_ENV === 'test'] *)
Variable test_env : bool.
(** [this.listenerCount('error')] *)
Variable error_listeners : nat.

(** One write to the database: it resolves with the state [ok s], or
    rejects and writes nothing. *)
Definition db_write (ok : ESDB → ESDB) : Act unit := λ s,
  let s' := set_writes (S (writes s)) s in
  match fault (writes s) with
  | None => (Returns (), ok s', [])
  | Some e => (Throws e, s', [])
  end.

(** Modelled from the spec: [EventQueue] is not among the source files.
    Section 6: [get(v)] fetches by version, or null; [set(event)]
    updates the row of [event.v] durably; [getNext(afterV, once)] is the
    next event with [v > afterV], null when nothing is pending. *)
Definition queue_get (q : gmap Z Event) (v : Z) : option Event := q !! v.

(** Modelled from the spec: [EventQueue.set] is not among the source
    files. Section 6: it updates the row of [event.v]; an event without
    [v] names no row. *)
Definition queue_put (event : Event) (q : gmap Z Event) : gmap Z Event :=
  match ev_v event with
  | Some v => <[v := event]> q
  | None => q
  end.

(** [await queue.set(event)] *)
Definition queue_set (event : Event) : Act unit :=
  effect (QueueSet event) ;;;
  db_write (λ s, set_queue (queue_put event (queue s)) s).

(** The row with the least version among [l]. *)
Definition first_entry (l : list (Z * Event)) : option (Z * Event) :=
  foldr (λ (kv : Z * Event) acc,
           match acc with
           | Some kv' => if bool_decide (kv.1 ≤ kv'.1)%Z then Some kv else Some kv'
           | None => Some kv
           end) None l.

(** Modelled from the spec: [EventQueue.getNext] is not among the source
    files. Section 6: the next event with [v > afterV], null when there is
    none; the caller decides on [once] whether null means return or wait. *)
Definition getNext (q : gmap Z Event) (afterV : Z) : option Event :=
  snd <$> first_entry (filter (λ kv : Z * Event, (afterV < kv.1)%Z) (map_to_list q)).

(** Modelled from the spec: [JsonModel.applyChanges] is not among the
    source files. On the metadata table a [set] of a row with id
    ['version'] replaces the version row (section 6, persisted state);
    nothing else is written there. *)
Definition set_version (tbl : MetaTable) (doc : Val) : MetaTable :=
  match prop "id" doc, prop "v" doc with
  | VStr "version", VNum v => Some v
  | _, _ => tbl
  end.

(** Modelled from the spec: [JsonModel.applyChanges] on the metadata
    table, for the changes the metadata reducer produces: the rows of [set]
    are written in order; a change without [set] writes nothing. *)
Definition meta_applyChanges (change : option ROut) (tbl : MetaTable) : MetaTable :=
  match change with
  | Some (RChange o) =>
      match Obj.get "set" o with
      | Some (VArr docs) => foldl set_version tbl docs
      | _ => tbl
      end
  | _ => tbl
  end.

(** [this.getVersion()]: [vObj ? vObj.v : 0] *)
Definition getVersion (s : ESDB) : Z :=
  match meta (store s) with
  | Some v => v
  | None => 0
  end.

(** ** [applyEvent(event)] *)

(** [store[name].applyChanges(r)] for a reducer model: a synchronous
    [TypeError] when [store[name]] is missing, else a started write. *)
Definition store_applyChanges (name : string) (r : ROut) : Act (Ret unit) := λ s,
  match tables (store s) !! name, Obj.get name models with
  | Some tbl, Some m =>
      start
        (effect (ApplyChanges name (Some r)) ;;;
         db_write (λ s, set_store
                          (mkStore (<[name := m_applyChanges m tbl r]> (tables (store s)))
                                   (meta (store s))) s)) s
  | _, _ => (Throws (TypeError "applyChanges"), s, [])
  end.

(** [store.metadata.applyChanges(metadata)] *)
Definition metadata_applyChanges (metadata : option ROut) : Act unit :=
  effect (ApplyChanges "metadata" metadata) ;;;
  db_write (λ s, set_store
                   (mkStore (tables (store s))
                            (meta_applyChanges metadata (meta (store s)))) s).

(** [this.models[name].deriver({model: store[name], store, event, result})] *)
Definition run_deriver (event : Event) (result : list (string * ROut))
    (nd : string *
          (option Table → Store → Event → list (string * ROut) → Store))
  : Act (Ret unit) :=
  start
    (effect (RunDeriver nd.1 event result) ;;;
     db_write (λ s, set_store
                      (nd.2 (tables (store s) !! nd.1) (store s) event result) s)).

(** [l.map(f)]: the calls are made in order; a call that throws
    synchronously ends the map. *)
Fixpoint map_calls {A : Type} (f : A → Act (Ret unit)) (l : list A)
  : Act (list (Ret unit)) :=
  match l with
  | [] => act_ret []
  | x :: l' =>
      p ⇐ f x ;;
      ps ⇐ map_calls f l' ;;
      act_ret (p :: ps)
  end.

(** [await Promise.all(ps)] over calls that have settled in list order. *)
Fixpoint Promise_all (ps : list (Ret unit)) : Act unit :=
  match ps with
  | [] => act_ret ()
  | Returns _ :: ps' => Promise_all ps'
  | Throws e :: _ => throw e
  end.

(** [delete result.metadata] acts on the object the caller holds: this is
    [event] as [applyEvent] leaves it. *)
Definition strip_metadata (event : Event) : Event :=
  match ev_result event with
  | Some result => with_result event (Obj.remove "metadata" result)
  | None => event
  end.

(** The [try] block of [applyEvent]. *)
Definition applyEvent_try (event : Event) : Act unit :=
  match ev_result event with
  | None => throw (TypeError "metadata")
  | Some result =>
      let metadata := Obj.get "metadata" result in
      let result := Obj.remove "metadata" result in
      let event := with_result event result in
      queue_set event ;;;
      ps ⇐ map_calls
             (λ nr, if rtruthy nr.2 then store_applyChanges nr.1 nr.2
                    else act_ret (Returns ()))
             result ;;
      Promise_all ps ;;;
      metadata_applyChanges metadata ;;;
      ps ⇐ map_calls (run_deriver event result) (hooks m_deriver) ;;
      Promise_all ps
  end.

Definition applyEvent (event : Event) : Act unit :=
  catch (applyEvent_try event)
    (λ err,
       (if test_env then act_ret ()
        else effect (ConsoleError "SEVERE DB ERROR" err)) ;;;
       throw err).

(** ** Waiters: [handledVersion] and [triggerWaitingEvent] *)

(** The promise an [async] call hands to its caller. *)
Inductive Promise : Type :=
| Resolved (e : option Event)   (* resolved, with an event or with nothing *)
| Rejected (r : Reason)
| Pending (o : nat).            (* the promise of waiter [o] *)

(** [startPolling(wantVersion)]; [None] stands for a call without a
    number ([startPolling()], [startPolling(false)]). Calling
    [_waitForEvent()] runs nothing before its first [await]: the run
    proceeds in [poll_step] below. *)
Definition startPolling (wantVersion : option Z) (s : ESDB) : ESDB :=
  let s :=
    if truthy (from_option VNum VUndef wantVersion) then
      if bool_decide (default 0 wantVersion > minVersion s)%Z
      then set_minVersion (default 0 wantVersion) s else s
    else if negb (_isPolling s) then set_isPolling true s
    else s in
  match _waitingP s with
  | None => set_waitingP (Some (FirstRun (Some 0))) s
  | Some _ => s
  end.

(** [stopPolling()] *)
Definition stopPolling (s : ESDB) : ESDB :=
  set_reallyStop true (set_isPolling false s).

(** [checkForEvents()] *)
Definition checkForEvents (s : ESDB) : ESDB := startPolling (Some 1) s.

(** Settle a promise on a fetched event: [if (event.error) reject(event)
    else resolve(event)]. *)
Definition settle_with (event : Event) : Promise :=
  if truthy (ev_error event) then Rejected (REvent event)
  else Resolved (Some event).

Definition handledVersion (v : Z) (s : ESDB) : Promise * ESDB :=
  if bool_decide (v = 0) then (Resolved None, s)
  else if bool_decide (v ≤ getVersion s)%Z then
    match queue_get (queue s) v with
    | Some event => (settle_with event, s)
    | None => (Rejected (RErr (TypeError "error")), s)
    end
  else
    match _waitingFor s !! v with
    | Some o => (Pending o, s)
    | None =>
        let s := if bool_decide (v > _maxWaitingFor s)%Z
                 then set_maxWaitingFor v s else s in
        let o := promises s in
        let s := set_promises (S o) s in
        let s := set_waitingFor (<[v := o]> (_waitingFor s)) s in
        let s := startPolling (Some v) s in
        (Pending o, s)
    end.

(** [if (event.error) o.reject(event) else o.resolve(event)] *)
Definition settle (o : nat) (event : Event) : Effect :=
  if truthy (ev_error event) then Reject o (REvent event)
  else Resolve o event.

(** The order of two waiters by their versions. *)
Definition key_le (a b : Z * nat) : Prop := (a.1 ≤ b.1)%Z.

Global Instance key_le_dec : RelDecision key_le :=
  λ a b, decide (a.1 ≤ b.1)%Z.

(** [Object.entries(this._waitingFor)]: the keys are versions, which an
    object enumerates in ascending order. *)
Definition entries (w : gmap Z nat) : list (Z * nat) :=
  merge_sort key_le (map_to_list w).

(** [this.queue.get(v).then(event => ..., o.reject)]: when the queue has
    no row, the callback throws and the waiter is left unsettled. *)
Definition sweep_one (q : gmap Z Event) (vo : Z * nat) : Effect :=
  match queue_get q vo.1 with
  | Some event => settle vo.2 event
  | None => Unhandled (TypeError "error")
  end.

(** [event.v >= n]; a comparison with [undefined] is false. *)
Definition v_ge (v : option Z) (n : Z) : bool :=
  match v with
  | Some v => bool_decide (n ≤ v)%Z
  | None => false
  end.

Definition triggerWaitingEvent (event : Event) : Act unit :=
  s ⇐ get_state ;;
  match ev_v event ≫= λ v, (λ o, (v, o)) <$> _waitingFor s !! v with
  | Some (v, o) =>
      modify (λ s, set_waitingFor (delete v (_waitingFor s)) s) ;;;
      effect (settle o event)
  | None => act_ret ()
  end ;;;
  s ⇐ get_state ;;
  if v_ge (ev_v event) (_maxWaitingFor s)
  then λ s, (Returns (), set_waitingFor ∅ s,
             sweep_one (queue s) <$> entries (_waitingFor s))
  else act_ret ().

(** ** [handleResult(event)] *)

(** [!event.v] *)
Definition no_version (event : Event) : bool :=
  negb (truthy (from_option VNum VUndef (ev_v event))).

Definition handleResult (arg : option Event) : Act unit :=
  s ⇐ get_state ;;
  event ⇐ match arg, redux_state s with
          | Some event, _ => act_ret event
          | None, Some event => act_ret event
          | None, None => throw (TypeError "v")
          end ;;
  if no_version event then act_ret ()
  else
    catch (applyEvent event)
      (λ err, effect (ConsoleError
                "!!! Error while applying event; changes not applied" err)) ;;;
    let event := strip_metadata event in
    (if truthy (ev_error event) then
       if bool_decide (error_listeners ≠ 0%nat)
       then effect (Emit "error" event) else act_ret ()
     else effect (Emit "result" event)) ;;;
    effect (Emit "handled" event) ;;;
    triggerWaitingEvent event.

(** ** The polling loop *)

(** Modelled from the spec: [createStore] of [async-redux] is not among
    the source files. Section 9 (store/reducer indirection) and the
    comments of [_waitForEvent]: [dispatch(event)] runs the reducer, keeps
    what it returns as the state and calls the listener [handleResult]
    synchronously after the dispatch, without awaiting it; when the
    reducer rejects, [dispatch] rejects. *)
Definition redux_dispatch (event : Event) : Act unit :=
  s ⇐ get_state ;;
  match reducer (store s) event with
  | Throws err => throw err
  | Returns state =>
      modify (set_redux_state (Some state)) ;;;
      catch (handleResult None) (λ err, effect (Unhandled err))
  end.

(** [{...event, error: {...event.error, _redux: {message, stack}},
     result: {metadata}}] *)
Definition redux_failed (event : Event) (err : Err) (metadata : ROut) : Event :=
  mkEvent (ev_v event) (ev_type event) (ev_ts event) (ev_data event)
    (VObj (Obj.set "_redux" (err_val err) (spread (ev_error event))))
    (Some [("metadata", metadata)]).

(** How one turn of [while (true)] ends. *)
Inductive Turn : Type :=
| Again (lastV : option Z)    (* the loop goes round *)
| Return (v : option Z)       (* [return lastV], or [return] after a stop *)
| Blocked.                    (* [getNext(v, false)] has nothing to give yet *)

(** One turn of the loop of [_waitForEvent]. Awaiting [_applyingP] adds
    nothing here: [handleResult] has run to its end when [dispatch]
    returns. What a hook throws is an [Err], an object with [message] and
    [stack], and the listeners of [emit] return: a rejection with [null]
    or [undefined], on which [err.message] in the [catch] block would
    throw, and a listener that throws are left out of the model. *)
Definition _waitForEvent_turn (lastV : option Z) : Act Turn :=
  s ⇐ get_state ;;
  match getNext (queue s) (getVersion s) with
  | None => act_ret (if negb (_isPolling s) then Return lastV else Blocked)
  | Some event =>
      let lastV := ev_v event in
      modify (set_reduxInited true) ;;;
      catch (redux_dispatch event)
        (λ err,
           s ⇐ get_state ;;
           let metadata := metadata.reducer (Some (meta (store s))) event in
           handleResult (Some (redux_failed event err metadata))) ;;;
      s ⇐ get_state ;;
      if _reallyStop s then
        modify (set_reallyStop false) ;;;
        act_ret (Return None)
      else act_ret (Again lastV)
  end.

(** [this.minVersion > v]; false when [v] is [undefined]. *)
Definition v_lt (v : option Z) (n : Z) : bool :=
  match v with
  | Some v => bool_decide (n > v)%Z
  | None => false
  end.

(** The callback of [.then(v => ...)] on the first run. *)
Definition first_run_then (v : option Z) : Act unit :=
  s ⇐ get_state ;;
  if v_lt v (minVersion s)
  then modify (set_waitingP (Some (SecondRun (Some 0))))
  else modify (set_waitingP None).

(** One step of whatever [_waitingP] has in flight. *)
Definition poll_step : Act unit :=
  s ⇐ get_state ;;
  match _waitingP s with
  | Some (FirstRun lastV) =>
      r ⇐ start (_waitForEvent_turn lastV) ;;
      match r with
      | Returns (Again lastV) => modify (set_waitingP (Some (FirstRun lastV)))
      | Returns Blocked => act_ret ()
      | Returns (Return v) => first_run_then v
      | Throws err =>
          effect (ConsoleError
            "!!! Error waiting for event! This should not happen! Please investigate!"
            err) ;;;
          first_run_then (Some 0)
      end
  | Some (SecondRun lastV) =>
      r ⇐ start (_waitForEvent_turn lastV) ;;
      match r with
      | Returns (Again lastV) => modify (set_waitingP (Some (SecondRun lastV)))
      | Returns Blocked => act_ret ()
      | Returns (Return _) => modify (set_waitingP (Some Settled))
      | Throws err =>
          effect (Unhandled err) ;;;
          modify (set_waitingP (Some Settled))
      end
  | Some Settled | None => act_ret ()
  end.

Fixpoint poll_steps (n : nat) : Act unit :=
  match n with
  | O => act_ret ()
  | S n' => poll_step ;;; poll_steps n'
  end.

(** ** Construction and [dispatch] *)

(** The fields as the class body initialises them, over the tables and
    queue rows found in the database. *)
Definition fresh (db : Store) (q : gmap Z Event) : ESDB :=
  mkESDB db q ∅ 0 0 false false None false None 0 0.

(** [db.addModel] for every model name: a table that is not there yet is
    created empty. *)
Definition addModels (db : Store) : Store :=
  mkStore (foldr (λ name t, <[name := default [] (tables db !! name)]> t)
             (tables db) models.*1)
          (meta db).

(** [new ESDB({db, queue, models})] *)
Definition constructor (db : Store) (q : gmap Z Event) : Ret ESDB :=
  if bool_decide ("metadata" ∈ models.*1)
  then Throws (mkErr "metadata is a reserved model name" "")
  else Returns (checkForEvents (fresh (addModels db) q)).

(** Modelled from the spec: [queue.add(type, data, ts)] of [EventQueue]
    assigns the next [v] and persists the event (section 6). *)
Definition queue_latest (q : gmap Z Event) : Z :=
  foldr (λ (kv : Z * Event) m, Z.max kv.1 m) 0 (map_to_list q).

Definition queue_add (type : string) (data : Val) (ts : Z) (q : gmap Z Event)
  : Event :=
  mkEvent (Some (queue_latest q + 1)%Z) type ts data VUndef None.

(** [dispatch(type, data, ts)] *)
Definition dispatch (type : string) (data : Val) (ts : Z) (s : ESDB)
  : Promise * ESDB :=
  let event := queue_add type data ts (queue s) in
  let s := set_queue (queue_put event (queue s)) s in
  handledVersion (default 0 (ev_v event)) s.

(** [waitForQueue()] *)
Definition waitForQueue (s : ESDB) : Promise * ESDB :=
  handledVersion (queue_latest (queue s)) s.

(** ** The order of the apply phase *)

(** The calls the apply phase makes when nothing fails, in order:
    [queue.set], [applyChanges] for every entry left in [result] that is
    truthy, [applyChanges] on the metadata table, every deriver. *)
Definition reducer_calls (result : list (string * ROut)) : list Effect :=
  omap (λ nr : string * ROut,
          if rtruthy nr.2 then Some (ApplyChanges nr.1 (Some nr.2)) else None)
       result.

Definition deriver_calls (event : Event) (result : list (string * ROut))
  : list Effect :=
  (λ nd, RunDeriver nd.1 event result) <$> hooks m_deriver.

Definition apply_plan (event : Event) : list Effect :=
  match ev_result event with
  | None => []
  | Some result =>
      let metadata := Obj.get "metadata" result in
      let result := Obj.remove "metadata" result in
      let event := with_result event result in
      [QueueSet event] ++ reducer_calls result
        ++ [ApplyChanges "metadata" metadata] ++ deriver_calls event result
  end.

(** The steps of the apply phase, numbered as section 4.5 numbers them;
    step 1, stripping [metadata] from [result], leaves no effect of its
    own. *)
Definition phase (e : Effect) : nat :=
  match e with
  | QueueSet _ => 2
  | ApplyChanges name _ => if String.eqb name "metadata" then 4 else 3
  | RunDeriver _ _ _ => 5
  | _ => 6
  end.

Definition in_order (a b : Effect) : Prop := (phase a ≤ phase b)%nat.

(** What the apply phase of an event leaves alone: the waiters, the
    polling fields and the queue rows of other versions. *)
Definition apply_frame (v : option Z) (s s' : ESDB) : Prop :=
  _waitingFor s' = _waitingFor s ∧
  _maxWaitingFor s' = _maxWaitingFor s ∧
  minVersion s' = minVersion s ∧
  _isPolling s' = _isPolling s ∧
  _reallyStop s' = _reallyStop s ∧
  _waitingP s' = _waitingP s ∧
  redux_state s' = redux_state s ∧
  promises s' = promises s ∧
  ∀ w, Some w ≠ v → queue s' !! w = queue s !! w.

(** What [handleResult] writes between the apply phase and the waiters:
    the log line of a failed apply, then the emitted events. *)
Definition apply_log (r : Ret unit) : list Effect :=
  match r with
  | Returns _ => []
  | Throws err =>
      [ConsoleError "!!! Error while applying event; changes not applied" err]
  end.

Definition emitted (event : Event) : list Effect :=
  (if truthy (ev_error event) then
     if bool_decide (error_listeners ≠ 0%nat) then [Emit "error" event] else []
   else [Emit "result" event])
  ++ [Emit "handled" event].

(** A promise is settled, or a rejection is lost. *)
Definition is_settlement (e : Effect) : Prop :=
  match e with
  | Resolve _ _ | Reject _ _ | Unhandled _ => True
  | _ => False
  end.

Definition is_deriver (e : Effect) : Prop :=
  match e with
  | RunDeriver _ _ _ => True
  | _ => False
  end.

End ESDB.

(** * Observations on traces and states *)

(** [r === false || r === this.store[name]]: the reducer reports no
    change. *)
Definition is_unchanged (r : ROut) : bool :=
  match r with
  | RFalse | RModel => true
  | RChange _ => false
  end.

(** The waiters a trace settles, in order, by the number of their
    promise. *)
Definition settled (t : list Effect) : list nat :=
  omap (λ e, match e with
             | Resolve o _ | Reject o _ => Some o
             | _ => None
             end) t.

(** The events a trace emits, in order, with their kind. *)
Definition emits (t : list Effect) : list (string * Event) :=
  omap (λ e, match e with
             | Emit kind event => Some (kind, event)
             | _ => None
             end) t.

(** The registry of waiters is well kept: no waiter is registered above
    [_maxWaitingFor] or above [minVersion], every promise number has been
    handed out, and two versions never share a promise. *)
Definition waiters_ok (s : ESDB) : Prop :=
  (∀ v o, _waitingFor s !! v = Some o →
          v ≤ _maxWaitingFor s ∧ v ≤ minVersion s ∧ (o < promises s)%nat) ∧
  (∀ v1 v2 o, _waitingFor s !! v1 = Some o → _waitingFor s !! v2 = Some o →
              v1 = v2).

(** What handling an event leaves alone: the polling fields and the
    counters; of the waiters it only removes. *)
Definition handling_frame (s s' : ESDB) : Prop :=
  _reallyStop s' = _reallyStop s ∧
  _waitingP s' = _waitingP s ∧
  minVersion s' = minVersion s ∧
  _maxWaitingFor s' = _maxWaitingFor s ∧
  promises s' = promises s ∧
  _isPolling s' = _isPolling s ∧
  ∀ v o, _waitingFor s' !! v = Some o → _waitingFor s !! v = Some o.

(** The [n] database writes numbered from [from] on all succeed. *)
Definition writes_succeed (fault : nat → option Err) (from n : nat) : Prop :=
  ∀ i, (from ≤ i < from + n)%nat → fault i = None.

(** The tables once [applyChanges] has written every truthy entry of
    [result], in order. *)
Definition apply_changes (models : list (string * ModelDef))
    (result : list (string * ROut)) (tbls : gmap string Table)
  : gmap string Table :=
  foldl (λ t (nr : string * ROut),
           if rtruthy nr.2 then
             match t !! nr.1, Obj.get nr.1 models with
             | Some tbl, Some m => <[nr.1 := m_applyChanges m tbl nr.2]> t
             | _, _ => t
             end
           else t) tbls result.

(** The promises a trace settles were registered before it and are not
    registered after it, and none is settled twice. *)
Definition settles_registered (s s' : ESDB) (t : list Effect) : Prop :=
  NoDup (settled t) ∧
  ∀ o, o ∈ settled t →
       (∃ v, _waitingFor s !! v = Some o) ∧ ∀ v, _waitingFor s' !! v ≠ Some o.

(** Every registered model has its table, as [db.addModel] leaves the
    database. *)
Definition tables_present (models : list (string * ModelDef)) (st : Store)
  : Prop :=
  ∀ name, name ∈ models.*1 → is_Some (tables st !! name).

(** The derivers write to tables of their own and leave the applied
    version alone. *)
Definition derivers_keep_meta (models : list (string * ModelDef)) : Prop :=
  ∀ name d, (name, d) ∈ hooks models m_deriver →
            ∀ tbl st event result, meta (d tbl st event result) = meta st.

(** [console.error] is called. *)
Definition is_log (e : Effect) : Prop :=
  match e with
  | ConsoleError _ _ => True
  | _ => False
  end.

(** * Sample instances

    A counter model (the reducer inserts a row on [inc] events), used to run
    the definitions on concrete inputs. *)
Module Sample.

Definition no_fault : nat → option Err := λ _, None.

Definition io_error : Err := mkErr "SQLITE_IOERR" "".

(** The write numbered [n] fails, the others succeed. *)
Definition fault_at (n : nat) : nat → option Err :=
  λ i, if bool_decide (i = n) then Some io_error else None.

Definition inc_rows : Val := VArr [VObj [("n", VNum 1)]].

Definition counter : ModelDef :=
  mkModel
    (Some (λ _ event,
             Returns (if String.eqb (ev_type event) "inc"
                      then RChange [("ins", inc_rows)] else RFalse)))
    None None
    (λ tbl r, match r with
              | RChange [("ins", VArr rows)] => tbl ++ rows
              | _ => tbl
              end).

Definition models : list (string * ModelDef) := [("counter", counter)].

Definition empty_db : Store := mkStore ∅ None.

Definition inc (v : Z) : Event := mkEvent (Some v) "inc" 0 VNull VUndef None.

(** The instance of [new ESDB] over a database and queue rows; the
    constructor does not throw for these models. *)
Definition esdb (ms : list (string * ModelDef)) (db : Store)
    (q : gmap Z Event) : ESDB :=
  match constructor ms db q with
  | Returns s => s
  | Throws _ => fresh db q
  end.

(** What [reducer] makes of [inc v] on an empty pipeline state, and the
    same event once [applyEvent] has stripped the metadata entry. *)
Definition reduced (v : Z) : Event :=
  mkEvent (Some v) "inc" 0 VNull VUndef
    (Some [("counter", RChange [("ins", inc_rows)]);
           ("metadata", version_change v)]).

Definition stripped (v : Z) : Event :=
  mkEvent (Some v) "inc" 0 VNull VUndef
    (Some [("counter", RChange [("ins", inc_rows)])]).

(** A model whose reducer refuses every event. *)
Definition strict : ModelDef :=
  mkModel (Some (λ _ _, Returns (RChange [("error", VStr "nope")])))
    None None (λ tbl _, tbl).

Definition models_strict : list (string * ModelDef) :=
  [("counter", counter); ("strict", strict)].

(** A preprocessor that returns [{error: 'bad'}], an object without [v]
    and without [type], and one that returns the event under another
    [v]. *)
Definition refuse (event : Event) (_ : option Table) (_ : Store)
  : Ret (Event * option Event) :=
  Returns (event, Some (mkEvent None "" 0 VUndef (VStr "bad") None)).

Definition renumber (event : Event) (_ : option Table) (_ : Store)
  : Ret (Event * option Event) :=
  Returns (event, Some (mkEvent (Some 2) "inc" 0 VNull VUndef None)).

Definition models_refuse : list (string * ModelDef) :=
  [("guard", mkModel None (Some refuse) None (λ tbl _, tbl))].

Definition models_renumber : list (string * ModelDef) :=
  [("guard", mkModel None (Some renumber) None (λ tbl _, tbl))].

(** An instance with one event queued and a caller waiting for it. *)
Definition dispatched : ESDB :=
  (dispatch "inc" VNull 0 (esdb models empty_db ∅)).2.

(** An instance that was asked for version 5, told to stop, and then
    handled event 1: the run ended on the stop flag and the callback
    cleared [_waitingP]; the waiter of 5 is still registered. *)
Definition stopped : ESDB :=
  let s := esdb models empty_db {[1 := inc 1]} in
  let s := (handledVersion 5 s).2 in
  let s := stopPolling s in
  (poll_step models no_fault true 0 s).1.2.

(** Applied version 4, event 5 next. A caller asked for version 10;
    another asked for version 3 while event 3 was being applied: it read
    the applied version before the apply and registered its waiter
    after. *)
Definition raced : ESDB :=
  mkESDB (mkStore {["counter" := []]} (Some 4))
    {[3 := stripped 3; 5 := inc 5]}
    {[10 := 0%nat; 3 := 1%nat]} 10 10 false false
    (Some (FirstRun (Some 4))) true (Some (reduced 4)) 2 12.

(** Applied version 2 over a queue that has lost the row of 2. *)
Definition pruned : ESDB :=
  mkESDB (mkStore {["counter" := []]} (Some 2))
    {[1 := stripped 1]} ∅ 0 1 false false None true (Some (reduced 2)) 0 6.

(** An event no reducer cares about. *)
Definition noop (v : Z) : Event := mkEvent (Some v) "noop" 0 VNull VUndef None.

(** A preprocessor that stamps [event.data] in place and returns
    nothing. *)
Definition stamp (event : Event) (_ : option Table) (_ : Store)
  : Ret (Event * option Event) :=
  Returns (mkEvent (ev_v event) (ev_type event) (ev_ts event) (VStr "seen")
             (ev_error event) (ev_result event), None).

Definition models_stamp : list (string * ModelDef) :=
  [("stamp", mkModel None (Some stamp) None (λ tbl _, tbl));
   ("counter", counter)].




(** A deriver that counts the handled events in a table of its own. *)
Definition tally (tbl : option Table) (st : Store) (_ : Event)
    (_ : list (string * ROut)) : Store :=
  mkStore (<["tally" := VNum 1 :: default [] tbl]> (tables st)) (meta st).

Definition models_tally : list (string * ModelDef) :=
  [("counter", counter);
   ("tally", mkModel None None (Some tally) (λ tbl _, tbl))].

(** [dispatched], over other models. *)
Definition dispatched_on (ms : list (string * ModelDef)) : ESDB :=
  (dispatch "inc" VNull 0 (esdb ms empty_db ∅)).2.

End Sample.

(** * Properties *)

(** ** The metadata reducer *)

Lemma version_change_not_error (v currV v' : Z) :
  version_change v ≠ version_error currV v'.
Proof. unfold version_change, version_error. discriminate. Qed.

(** C3. For an event with version [v] (0 when the event has none) and a
    stored version [cur], the metadata reducer returns
    [{set: [{id: 'version', v}]}] exactly when [v > cur], and otherwise the
    error whose message is "Current version <cur> is >= event version <v>". *)
Theorem metadata_reducer_version_gate (cur : Z) (event : Event) :
  let v := default 0 (ev_v event) in
  let out := metadata.reducer (Some (Some cur)) event in
  (out = RChange [("set", VArr [VObj [("id", VStr "version"); ("v", VNum v)]])]
     ↔ v > cur) ∧
  (out = RChange [("error", VObj [("message",
           VStr ("Current version " +:+ num_to_string cur
                 +:+ " is >= event version " +:+ num_to_string v))])]
     ↔ ¬ v > cur).
Proof.
  intros v out. subst out. unfold metadata.reducer. fold v.
  pose proof (version_change_not_error v cur v) as Hne.
  case_bool_decide as Hv; split; split; intros H; try done;
    exfalso; apply Hne; by rewrite H.
Qed.

Example metadata_reducer_rejects_old :
  metadata.reducer (Some (Some 5)) (mkEvent (Some 3) "t" 0 VNull VUndef None)
  = RChange [("error",
       VObj [("message", VStr "Current version 5 is >= event version 3")])].
Proof. reflexivity. Qed.

Example metadata_reducer_first_event :
  metadata.reducer (Some None) (mkEvent (Some 1) "t" 0 VNull VUndef None)
  = RChange [("set", VArr [VObj [("id", VStr "version"); ("v", VNum 1)]])].
Proof. reflexivity. Qed.

Section Properties.

Variable models : list (string * ModelDef).
Variable fault : nat → option Err.
Variable test_env : bool.
Variable error_listeners : nat.

(** ** [handledVersion] *)

Lemma settle_with_not_type_error (event : Event) (e : Err) :
  settle_with event ≠ Rejected (RErr e).
Proof. unfold settle_with. by destruct (truthy (ev_error event)). Qed.

(** C9. For [0 < v] at most the applied version, [handledVersion(v)]
    reads [event.error] off what [queue.get(v)] returned without a null
    check: the promise rejects with a type error exactly when the queue
    has no row for [v], so the queue must hold every version up to the
    applied one; nothing of the ESDB state changes. *)
Theorem handledVersion_missing_row (v : Z) (s : ESDB) :
  0 < v → v ≤ getVersion s →
  ((handledVersion v s).1 = Rejected (RErr (TypeError "error"))
     ↔ queue_get (queue s) v = None) ∧
  (queue_get (queue s) v = None →
     ∀ event, (handledVersion v s).1 ≠ Resolved (Some event) ∧
              (handledVersion v s).1 ≠ Rejected (REvent event)) ∧
  (handledVersion v s).2 = s.
Proof.
  intros Hpos Hle. unfold handledVersion.
  rewrite bool_decide_eq_false_2 by lia.
  rewrite bool_decide_eq_true_2 by done.
  destruct (queue_get (queue s) v) as [event|] eqn:Hq; simpl.
  - split_and!; [|done|done].
    split; [|done]. intros H. by apply settle_with_not_type_error in H.
  - split_and!; done.
Qed.

(** [startPolling(v)] for a number [v] other than 0 raises [minVersion]
    and starts a run unless [_waitingP] holds a chain; it touches nothing
    else. *)
Lemma startPolling_want (v : Z) (s : ESDB) :
  v ≠ 0 →
  startPolling (Some v) s
  = set_waitingP (Some (default (FirstRun (Some 0)) (_waitingP s)))
      (set_minVersion (Z.max v (minVersion s)) s).
Proof.
  intros Hv. unfold startPolling.
  assert (truthy (from_option VNum VUndef (Some v)) = true) as ->.
  { simpl. by apply negb_true_iff, Z.eqb_neq. }
  simpl. case_bool_decide.
  - rewrite Z.max_l by lia. by destruct s as [? ? ? ? ? ? ? [c|] ? ? ? ?].
  - rewrite Z.max_r by lia. by destruct s as [? ? ? ? ? ? ? [c|] ? ? ? ?].
Qed.

(** C2, as the code has it. [handledVersion(0)] resolves at once. For
    [v] at most the applied version whose row the queue holds, the promise
    rejects with the event exactly when [event.error] is truthy and
    resolves with the event otherwise. For [v] above the applied version:
    when no waiter is registered for [v], one is registered under a fresh
    promise, [_maxWaitingFor] becomes the larger of itself and [v], and
    [startPolling(v)] is called ([minVersion] is raised to [v] and a loop
    run is started unless [_waitingP] holds one); when a waiter is already
    registered, its promise is returned and nothing else happens. *)
Theorem handledVersion_cases (v : Z) (s : ESDB) :
  (v = 0 → handledVersion v s = (Resolved None, s)) ∧
  (v ≠ 0 → v ≤ getVersion s →
     ∀ event, queue_get (queue s) v = Some event →
       ((handledVersion v s).1 = Rejected (REvent event)
          ↔ truthy (ev_error event) = true) ∧
       ((handledVersion v s).1 = Resolved (Some event)
          ↔ truthy (ev_error event) = false) ∧
       (handledVersion v s).2 = s) ∧
  (v ≠ 0 → getVersion s < v →
     ∀ o, _waitingFor s !! v = Some o →
       handledVersion v s = (Pending o, s)) ∧
  (v ≠ 0 → getVersion s < v → _waitingFor s !! v = None →
     let s' := (handledVersion v s).2 in
     (handledVersion v s).1 = Pending (promises s) ∧
     _waitingFor s' = <[v := promises s]> (_waitingFor s) ∧
     promises s' = S (promises s) ∧
     _maxWaitingFor s' = Z.max v (_maxWaitingFor s) ∧
     s' = startPolling (Some v)
            (set_waitingFor (<[v := promises s]> (_waitingFor s))
               (set_promises (S (promises s))
                  (set_maxWaitingFor (Z.max v (_maxWaitingFor s)) s))) ∧
     minVersion s' = Z.max v (minVersion s) ∧
     _waitingP s' = Some (default (FirstRun (Some 0)) (_waitingP s))).
Proof.
  split_and!.
  - intros ->. done.
  - intros Hv Hle event Hq. unfold handledVersion.
    rewrite bool_decide_eq_false_2 by done.
    rewrite bool_decide_eq_true_2 by done.
    rewrite Hq. unfold settle_with. simpl.
    destruct (truthy (ev_error event)); simpl; split_and!; try done.
    all: split; done.
  - intros Hv Hlt o Hw. unfold handledVersion.
    rewrite bool_decide_eq_false_2 by done.
    rewrite bool_decide_eq_false_2 by lia.
    by rewrite Hw.
  - intros Hv Hlt Hw. unfold handledVersion.
    rewrite bool_decide_eq_false_2 by done.
    rewrite bool_decide_eq_false_2 by lia.
    rewrite Hw. cbn zeta.
    assert (Hmax : (if bool_decide (v > _maxWaitingFor s)
                    then set_maxWaitingFor v s else s)
                   = set_maxWaitingFor (Z.max v (_maxWaitingFor s)) s).
    { case_bool_decide.
      - by rewrite Z.max_l by lia.
      - rewrite Z.max_r by lia. by destruct s. }
    rewrite Hmax. cbn [fst snd]. rewrite !startPolling_want by done.
    split_and!; done.
Qed.

(** C10. For an event whose [v] is absent or 0, [handleResult] returns
    at once: no [applyEvent], nothing emitted, no waiter settled, the
    state as it was. *)
Theorem handleResult_without_version (event : Event) (s : ESDB) :
  ev_v event = None ∨ ev_v event = Some 0 →
  handleResult models fault test_env error_listeners (Some event) s
  = (Returns (), s, []).
Proof.
  intros Hv. unfold handleResult, act_bind, get_state, act_ret.
  assert (no_version event = true) as ->; [|done].
  unfold no_version. by destruct Hv as [-> | ->].
Qed.

(** The same when the listener is called without an argument and the
    store's state is such an event. *)
Lemma handleResult_state_without_version (event : Event) (s : ESDB) :
  redux_state s = Some event →
  ev_v event = None ∨ ev_v event = Some 0 →
  handleResult models fault test_env error_listeners None s
  = (Returns (), s, []).
Proof.
  intros Hst Hv. unfold handleResult, act_bind, get_state, act_ret.
  rewrite Hst.
  assert (no_version event = true) as ->; [|done].
  unfold no_version. by destruct Hv as [-> | ->].
Qed.

(** ** Reasoning about [Act] *)

Lemma act_bind_inv {A B : Type} (m : Act A) (k : A → Act B)
    (s s' : ESDB) (r : Ret B) (t : list Effect) :
  act_bind m k s = (r, s', t) →
  (∃ e, m s = (Throws e, s', t) ∧ r = Throws e) ∨
  (∃ x s1 t1 t2, m s = (Returns x, s1, t1) ∧ k x s1 = (r, s', t2)
                 ∧ t = t1 ++ t2).
Proof.
  unfold act_bind. destruct (m s) as [[[x|e] s1] t1].
  - destruct (k x s1) as [[r2 s2] t2] eqn:Hk. intros [= <- <- <-].
    right. by exists x, s1, t1, t2.
  - intros [= <- <- <-]. left. by exists e.
Qed.

Lemma catch_inv {A : Type} (m : Act A) (h : Err → Act A)
    (s s' : ESDB) (r : Ret A) (t : list Effect) :
  catch m h s = (r, s', t) →
  (∃ x, m s = (Returns x, s', t) ∧ r = Returns x) ∨
  (∃ e s1 t1 t2, m s = (Throws e, s1, t1) ∧ h e s1 = (r, s', t2)
                 ∧ t = t1 ++ t2).
Proof.
  unfold catch. destruct (m s) as [[[x|e] s1] t1].
  - intros [= <- <- <-]. left. by exists x.
  - destruct (h e s1) as [[r2 s2] t2] eqn:Hh. intros [= <- <- <-].
    right. by exists e, s1, t1, t2.
Qed.

(** A relation between the state before and after that every step of a
    computation keeps. *)
Section Frame.
Variable R : ESDB → ESDB → Prop.
Hypothesis R_refl : ∀ s, R s s.
Hypothesis R_trans : ∀ s1 s2 s3, R s1 s2 → R s2 s3 → R s1 s3.

Definition keeps {A : Type} (m : Act A) : Prop :=
  ∀ s r s' t, m s = (r, s', t) → R s s'.

Lemma keeps_ret {A : Type} (x : A) : keeps (act_ret x).
Proof. intros s r s' t [= <- <- <-]. apply R_refl. Qed.

Lemma keeps_throw {A : Type} (e : Err) : keeps (@throw A e).
Proof. intros s r s' t [= <- <- <-]. apply R_refl. Qed.

Lemma keeps_effect (e : Effect) : keeps (effect e).
Proof. intros s r s' t [= <- <- <-]. apply R_refl. Qed.

Lemma keeps_get_state : keeps get_state.
Proof. intros s r s' t [= <- <- <-]. apply R_refl. Qed.

Lemma keeps_modify (f : ESDB → ESDB) :
  (∀ s, R s (f s)) → keeps (modify f).
Proof. intros Hf s r s' t [= <- <- <-]. apply Hf. Qed.

Lemma keeps_bind {A B : Type} (m : Act A) (k : A → Act B) :
  keeps m → (∀ x, keeps (k x)) → keeps (act_bind m k).
Proof.
  intros Hm Hk s r s' t H.
  apply act_bind_inv in H as [(e & H & _) | (x & s1 & t1 & t2 & H1 & H2 & _)].
  - by eapply Hm.
  - eapply R_trans; [by eapply Hm | by eapply Hk].
Qed.

Lemma keeps_catch {A : Type} (m : Act A) (h : Err → Act A) :
  keeps m → (∀ e, keeps (h e)) → keeps (catch m h).
Proof.
  intros Hm Hh s r s' t H.
  apply catch_inv in H as [(x & H & _) | (e & s1 & t1 & t2 & H1 & H2 & _)].
  - by eapply Hm.
  - eapply R_trans; [by eapply Hm | by eapply Hh].
Qed.

Lemma keeps_start {A : Type} (m : Act A) : keeps m → keeps (start m).
Proof.
  intros Hm s r s' t. unfold start.
  destruct (m s) as [[r1 s1] t1] eqn:H. intros [= <- <- <-].
  by eapply Hm.
Qed.

Lemma keeps_db_write (ok : ESDB → ESDB) :
  (∀ s, R s (set_writes (S (writes s)) s)) →
  (∀ s, R s (ok s)) → keeps (db_write fault ok).
Proof.
  intros Hw Hok s r s' t. unfold db_write.
  destruct (fault (writes s)); intros [= <- <- <-]; [apply Hw|].
  eapply R_trans; [apply Hw | apply Hok].
Qed.

Lemma keeps_map_calls {A : Type} (f : A → Act (Ret unit)) (l : list A) :
  (∀ x, keeps (f x)) → keeps (map_calls f l).
Proof.
  intros Hf. induction l as [|x l IH]; simpl.
  - apply keeps_ret.
  - apply keeps_bind; [apply Hf|]. intros p.
    apply keeps_bind; [apply IH|]. intros ps. apply keeps_ret.
Qed.

Lemma keeps_Promise_all (ps : list (Ret unit)) : keeps (Promise_all ps).
Proof.
  induction ps as [|[[]|e] ps IH]; simpl;
    [apply keeps_ret | apply IH | apply keeps_throw].
Qed.
End Frame.

(** ** [applyEvent] *)

Lemma Obj_get_remove {A : Type} (k : string) (o : list (string * A)) :
  Obj.get k (Obj.remove k o) = None.
Proof.
  induction o as [|[k' x] o IH]; simpl; [done|].
  destruct (String.eqb k k') eqn:E; [done|]. simpl. by rewrite E.
Qed.

Lemma Obj_remove_keys {A : Type} (k : string) (o : list (string * A)) :
  k ∉ (Obj.remove k o).*1.
Proof.
  induction o as [|[k' x] o IH]; simpl; [apply not_elem_of_nil|].
  destruct (String.eqb k k') eqn:E; [done|].
  apply String.eqb_neq in E. simpl. rewrite not_elem_of_cons. done.
Qed.

Local Abbreviation reducer_call :=
  (λ nr : string * ROut,
     if rtruthy nr.2 then store_applyChanges models fault nr.1 nr.2
     else act_ret (Returns ())).

Lemma store_applyChanges_trace (name : string) (r : ROut) (s s' : ESDB)
    (p : Ret (Ret unit)) (t : list Effect) :
  store_applyChanges models fault name r s = (p, s', t) →
  (∃ e, p = Throws e ∧ t = []) ∨
  (∃ q, p = Returns q ∧ t = [ApplyChanges name (Some r)]).
Proof.
  unfold store_applyChanges.
  destruct (tables (store s) !! name) as [tbl|];
    [destruct (Obj.get name models) as [m|]|].
  - unfold start, act_bind, effect, db_write.
    destruct (fault (writes s)); intros [= <- <- <-]; right; by eexists.
  - intros [= <- <- <-]. left. by eexists.
  - intros [= <- <- <-]. left. by eexists.
Qed.

(** The reducer writes are started in the order of [Object.entries]; a
    started list is all of [reducer_calls] unless a call threw
    synchronously. *)
Lemma reducer_calls_trace (result : list (string * ROut)) (s s' : ESDB)
    (r : Ret (list (Ret unit))) (t : list Effect) :
  map_calls reducer_call result s = (r, s', t) →
  t `prefix_of` reducer_calls result ∧
  (∀ ps, r = Returns ps → t = reducer_calls result).
Proof.
  revert s s' r t.
  induction result as [|[name x] result IH]; intros s s' r t; simpl.
  - intros [= <- <- <-]. split; [done|]. done.
  - intros H.
    apply act_bind_inv in H
      as [(e & H & ->) | (p & s1 & t1 & t2 & H1 & H2 & ->)].
    + unfold reducer_calls. simpl. destruct (rtruthy x) eqn:Hx; simpl in *.
      * apply store_applyChanges_trace in H as [(e' & _ & ->) | (q & ? & _)];
          [|done].
        split; [apply prefix_nil | done].
      * done.
    + apply act_bind_inv in H2
        as [(e & H2 & ->) | (ps & s2 & t3 & t4 & H2 & H3 & ->)].
      * apply IH in H2 as [Hpre _].
        unfold reducer_calls in *. simpl.
        destruct (rtruthy x) eqn:Hx; simpl in *.
        -- apply store_applyChanges_trace in H1
             as [(e' & ? & _) | (q & _ & ->)]; [done|].
           split; [by apply prefix_cons | done].
        -- injection H1 as <- <- <-. split; [done | done].
      * injection H3 as <- <- <-.
        apply IH in H2 as [_ Heq]. rewrite (Heq ps eq_refl).
        rewrite app_nil_r.
        unfold reducer_calls. simpl.
        destruct (rtruthy x) eqn:Hx; simpl in *.
        -- apply store_applyChanges_trace in H1
             as [(e' & ? & _) | (q & _ & ->)]; [done|].
           split; [done | done].
        -- injection H1 as <- <- <-. split; [done | done].
Qed.

Lemma deriver_calls_trace (event : Event) (result : list (string * ROut))
    (l : list (string *
           (option Table → Store → Event → list (string * ROut) → Store)))
    (s : ESDB) :
  ∃ ps s',
    map_calls (run_deriver fault event result) l s
    = (Returns ps, s', (λ nd, RunDeriver nd.1 event result) <$> l).
Proof.
  revert s. induction l as [|nd l IH]; intros s; simpl.
  - by eexists _, _.
  - unfold act_bind at 1.
    assert (∃ q s1, run_deriver fault event result nd s
                    = (Returns q, s1, [RunDeriver nd.1 event result]))
      as (q & s1 & ->).
    { unfold run_deriver, start, act_bind, effect, db_write.
      destruct (fault (writes s)); by eexists _, _. }
    destruct (IH s1) as (ps & s2 & Hl).
    unfold act_bind. rewrite Hl. simpl. rewrite app_nil_r. by eexists _, _.
Qed.

Lemma Promise_all_trace (ps : list (Ret unit)) (s s' : ESDB)
    (r : Ret unit) (t : list Effect) :
  Promise_all ps s = (r, s', t) → t = [] ∧ s' = s.
Proof.
  induction ps as [|[[]|e] ps IH]; simpl.
  - by intros [= <- <- <-].
  - done.
  - by intros [= <- <- <-].
Qed.

Lemma queue_set_trace (event : Event) (s s' : ESDB) (r : Ret unit)
    (t : list Effect) :
  queue_set fault event s = (r, s', t) → t = [QueueSet event].
Proof.
  unfold queue_set, act_bind, effect, db_write.
  destruct (fault (writes s)); by intros [= <- <- <-].
Qed.

Lemma metadata_applyChanges_trace (m : option ROut) (s s' : ESDB)
    (r : Ret unit) (t : list Effect) :
  metadata_applyChanges fault m s = (r, s', t) →
  t = [ApplyChanges "metadata" m].
Proof.
  unfold metadata_applyChanges, act_bind, effect, db_write.
  destruct (fault (writes s)); by intros [= <- <- <-].
Qed.

(** What the [try] block of [applyEvent] has done when it ends is a prefix
    of the plan, and all of it when the block ends normally. *)
Lemma applyEvent_try_trace (event : Event) (s s' : ESDB) (r : Ret unit)
    (t : list Effect) :
  applyEvent_try models fault event s = (r, s', t) →
  t `prefix_of` apply_plan models event ∧
  (r = Returns () → t = apply_plan models event).
Proof.
  unfold applyEvent_try, apply_plan.
  destruct (ev_result event) as [result0|]; [|by intros [= <- <- <-]].
  set (metadata := Obj.get "metadata" result0).
  set (result := Obj.remove "metadata" result0).
  set (event' := with_result event result).
  intros H.
  apply act_bind_inv in H
    as [(e & H & ->) | ([] & s1 & t1 & t2 & H1 & H & ->)].
  { apply queue_set_trace in H as ->.
    split; [by apply prefix_cons, prefix_nil | done]. }
  apply queue_set_trace in H1 as ->.
  change ([QueueSet event'] ++ t2) with (QueueSet event' :: t2).
  change ([QueueSet event'] ++ ?l) with (QueueSet event' :: l).
  apply act_bind_inv in H
    as [(e & H & ->) | (ps & s2 & t3 & t4 & H2 & H & ->)].
  { apply reducer_calls_trace in H as [Hpre _].
    split; [by apply prefix_cons, prefix_app_r | done]. }
  apply reducer_calls_trace in H2 as [_ Heq].
  rewrite (Heq ps eq_refl).
  apply act_bind_inv in H
    as [(e & H & ->) | ([] & s3 & t5 & t6 & H3 & H & ->)].
  { apply Promise_all_trace in H as [-> _]. rewrite app_nil_r.
    split; [by apply prefix_cons, prefix_app_r | done]. }
  apply Promise_all_trace in H3 as [-> ->]. simpl.
  apply act_bind_inv in H
    as [(e & H & ->) | ([] & s4 & t7 & t8 & H4 & H & ->)].
  { apply metadata_applyChanges_trace in H as ->.
    split; [|done].
    apply prefix_cons, prefix_app, prefix_cons, prefix_nil. }
  apply metadata_applyChanges_trace in H4 as ->.
  destruct (deriver_calls_trace event' result (hooks models m_deriver) s4)
    as (ps' & s5 & Hd).
  apply act_bind_inv in H
    as [(e & H & ->) | (ps'' & s6 & t9 & t10 & H5 & H & ->)].
  { rewrite Hd in H. done. }
  rewrite Hd in H5. injection H5 as <- <- <-.
  apply Promise_all_trace in H as [-> _]. rewrite app_nil_r.
  done.
Qed.

Lemma elem_of_reducer_calls (e : Effect) (result : list (string * ROut)) :
  e ∈ reducer_calls result →
  ∃ name r, e = ApplyChanges name (Some r) ∧ (name, r) ∈ result.
Proof.
  unfold reducer_calls. rewrite list_elem_of_omap.
  intros ([name r] & Hin & H). simpl in H.
  destruct (rtruthy r); [|done]. injection H as <-. by exists name, r.
Qed.

Lemma phase_reducer_call (e : Effect) (result : list (string * ROut)) :
  e ∈ reducer_calls (Obj.remove "metadata" result) → phase e = 3%nat.
Proof.
  intros (name & r & -> & Hin)%elem_of_reducer_calls. simpl.
  destruct (String.eqb name "metadata") eqn:E; [|done].
  apply String.eqb_eq in E as ->.
  exfalso. apply (Obj_remove_keys "metadata" result).
  apply list_elem_of_fmap. by exists ("metadata", r).
Qed.

Lemma phase_deriver_call (e : Effect) (event : Event)
    (result : list (string * ROut)) :
  e ∈ deriver_calls models event result → phase e = 5%nat.
Proof.
  unfold deriver_calls. rewrite list_elem_of_fmap. by intros (nd & -> & _).
Qed.

Lemma same_phase_in_order (n : nat) (l : list Effect) :
  (∀ e, e ∈ l → phase e = n) → StronglySorted in_order l.
Proof.
  induction l as [|x l IH]; intros Hl; constructor.
  - apply IH. intros e He. apply Hl. by right.
  - apply Forall_forall. intros y Hy. unfold in_order.
    rewrite (Hl x), (Hl y); [lia | by right | by left].
Qed.

Lemma apply_plan_in_order (event : Event) :
  StronglySorted in_order (apply_plan models event).
Proof.
  unfold apply_plan. destruct (ev_result event) as [result|]; [|constructor].
  cbn zeta.
  apply StronglySorted_app_2; [| repeat constructor |].
  { intros x1 x2 ->%list_elem_of_singleton Hx2. unfold in_order.
    rewrite !elem_of_app, list_elem_of_singleton in Hx2.
    destruct Hx2 as [H | [-> | H]].
    - apply phase_reducer_call in H as ->. simpl. lia.
    - simpl. lia.
    - apply phase_deriver_call in H as ->. simpl. lia. }
  apply StronglySorted_app_2.
  { intros x1 x2 H1 Hx2. unfold in_order.
    apply phase_reducer_call in H1 as ->.
    rewrite elem_of_app, list_elem_of_singleton in Hx2.
    destruct Hx2 as [-> | H].
    - simpl. lia.
    - apply phase_deriver_call in H as ->. lia. }
  { apply (same_phase_in_order 3). intros e. apply phase_reducer_call. }
  apply StronglySorted_app_2; [| repeat constructor |].
  { intros x1 x2 ->%list_elem_of_singleton H. unfold in_order.
    apply phase_deriver_call in H as ->. simpl. lia. }
  apply (same_phase_in_order 5). intros e. apply phase_deriver_call.
Qed.

Lemma queue_set_run (event : Event) (s : ESDB) :
  queue_set fault event s
  = match fault (writes s) with
    | Some e => (Throws e, set_writes (S (writes s)) s, [QueueSet event])
    | None =>
        (Returns (),
         set_queue (queue_put event (queue s)) (set_writes (S (writes s)) s),
         [QueueSet event])
    end.
Proof.
  unfold queue_set, act_bind, effect, db_write.
  by destruct (fault (writes s)).
Qed.

Lemma reducer_calls_keep (result : list (string * ROut)) :
  keeps (λ s s', meta (store s') = meta (store s) ∧ queue s' = queue s)
    (map_calls reducer_call result).
Proof.
  apply keeps_map_calls; [done | by intros ??? [-> ->] [-> ->] |].
  intros [name r]. simpl. destruct (rtruthy r); [|by apply keeps_ret].
  intros s p s' t. unfold store_applyChanges.
  destruct (tables (store s) !! name) as [tbl|];
    [destruct (Obj.get name models) as [m|]|].
  - revert s p s' t. apply keeps_start.
    apply keeps_bind; [by intros ??? [-> ->] [-> ->] | by apply keeps_effect|].
    intros _. apply keeps_db_write; try done.
    by intros ??? [-> ->] [-> ->].
  - by intros [= <- <- <-].
  - by intros [= <- <- <-].
Qed.

Lemma deriver_calls_keep (event : Event) (result : list (string * ROut))
    (l : list (string *
           (option Table → Store → Event → list (string * ROut) → Store))) :
  keeps (λ s s', queue s' = queue s)
    (map_calls (run_deriver fault event result) l).
Proof.
  apply keeps_map_calls; [done | by intros ??? -> -> |].
  intros nd. unfold run_deriver. apply keeps_start.
  apply keeps_bind; [by intros ??? -> -> | by apply keeps_effect|].
  intros _. apply keeps_db_write; try done. by intros ??? -> ->.
Qed.

Lemma metadata_applyChanges_run (m : option ROut) (s : ESDB) :
  metadata_applyChanges fault m s
  = match fault (writes s) with
    | Some e =>
        (Throws e, set_writes (S (writes s)) s, [ApplyChanges "metadata" m])
    | None =>
        (Returns (),
         set_store (mkStore (tables (store s))
                      (meta_applyChanges m (meta (store s))))
           (set_writes (S (writes s)) s),
         [ApplyChanges "metadata" m])
    end.
Proof.
  unfold metadata_applyChanges, act_bind, effect, db_write.
  by destruct (fault (writes s)).
Qed.

(** When the [try] block ends normally, the queue row of the event is
    written, and, the derivers aside, the metadata table holds what the
    metadata change makes of it. *)
Lemma applyEvent_try_succeeded (event : Event) (s s' : ESDB)
    (t : list Effect) :
  applyEvent_try models fault event s = (Returns (), s', t) →
  queue s' = queue_put (strip_metadata event) (queue s) ∧
  (hooks models m_deriver = [] →
   meta (store s')
   = meta_applyChanges (ev_result event ≫= Obj.get "metadata") (meta (store s))).
Proof.
  unfold applyEvent_try, strip_metadata.
  destruct (ev_result event) as [result0|]; [|done].
  set (metadata := Obj.get "metadata" result0).
  set (result := Obj.remove "metadata" result0).
  set (event' := with_result event result).
  intros H.
  apply act_bind_inv in H
    as [(e' & _ & ?) | ([] & s1 & t1 & t2 & H1 & H & ->)]; [done|].
  rewrite queue_set_run in H1.
  destruct (fault (writes s)); [done|]. injection H1 as <- <-.
  apply act_bind_inv in H
    as [(e' & _ & ?) | (ps & s2 & t3 & t4 & H2 & H & ->)]; [done|].
  apply reducer_calls_keep in H2 as [Hm2 Hq2]. simpl in Hm2, Hq2.
  apply act_bind_inv in H
    as [(e' & _ & ?) | ([] & s3 & t5 & t6 & H3 & H & ->)]; [done|].
  apply Promise_all_trace in H3 as [_ ->].
  apply act_bind_inv in H
    as [(e' & _ & ?) | ([] & s4 & t7 & t8 & H4 & H & ->)]; [done|].
  rewrite metadata_applyChanges_run in H4.
  destruct (fault (writes s2)); [done|]. injection H4 as <- <-.
  apply act_bind_inv in H
    as [(e' & _ & ?) | (ps' & s6 & t9 & t10 & H5 & H & ->)]; [done|].
  apply Promise_all_trace in H as [_ ->].
  split.
  - apply deriver_calls_keep in H5 as ->. simpl. by rewrite Hq2.
  - intros Hnone. rewrite Hnone in H5. simpl in H5.
    injection H5 as _ <- _. simpl. by rewrite Hm2.
Qed.

Lemma applyEvent_succeeded_inv (event : Event) (s s' : ESDB)
    (t : list Effect) :
  applyEvent models fault test_env event s = (Returns (), s', t) →
  applyEvent_try models fault event s = (Returns (), s', t).
Proof.
  unfold applyEvent. intros H.
  apply catch_inv in H as [([] & H & _) | (e & s1 & t1 & t2 & H1 & H & ->)];
    [done|].
  destruct test_env; unfold act_bind, act_ret, effect, throw in H;
    simpl in H; by simplify_eq.
Qed.

(** The change the metadata reducer writes makes [v] the applied version. *)
Lemma meta_applyChanges_version (v : Z) (tbl : MetaTable) :
  meta_applyChanges (Some (version_change v)) tbl = Some v.
Proof. reflexivity. Qed.

(** [applyEvent]: the [catch] adds the severe log line (outside the test
    environment) and throws the error on. *)
Lemma applyEvent_trace (event : Event) (s s' : ESDB) (r : Ret unit)
    (t : list Effect) :
  applyEvent models fault test_env event s = (r, s', t) →
  (r = Returns () ∧ t = apply_plan models event) ∨
  (∃ err done,
     r = Throws err ∧ done `prefix_of` apply_plan models event ∧
     t = done ++ (if test_env then []
                  else [ConsoleError "SEVERE DB ERROR" err])).
Proof.
  unfold applyEvent. intros H.
  apply catch_inv in H as [([] & H & ->) | (e & s1 & t1 & t2 & H1 & H & ->)].
  - left. split; [done|]. by apply applyEvent_try_trace in H as [_ ->].
  - right. exists e, t1. apply applyEvent_try_trace in H1 as [Hpre _].
    destruct test_env; unfold act_bind, act_ret, effect, throw in H;
      simpl in H; injection H as <- <- <-; done.
Qed.

Lemma prefix_reaches (front back done : list Effect) (e : Effect) :
  done `prefix_of` front ++ back → e ∈ done → e ∉ front →
  front `prefix_of` done.
Proof.
  intros Hpre He Hne.
  destruct (prefix_weak_total done front (front ++ back)) as [H|H];
    [done | by apply prefix_app_r | | done].
  exfalso. apply Hne. by eapply elem_of_prefix.
Qed.

(** The calls of the apply phase as the trace has them: when nothing
    fails the trace is the whole plan, when a step fails it is a prefix of
    the plan followed only by the log line. *)
Lemma applyEvent_calls_in_order (event : Event) (s : ESDB) :
  let out := applyEvent models fault test_env event s in
  let trace := out.2 in
  (out.1.1 = Returns () → trace = apply_plan models event) ∧
  StronglySorted in_order trace ∧
  (∀ e, QueueSet e ∈ trace →
     e = strip_metadata event ∧
     ∀ result, ev_result e = Some result → Obj.get "metadata" result = None) ∧
  (∀ name r, ApplyChanges name r ∈ trace →
     QueueSet (strip_metadata event) ∈ trace) ∧
  (∀ m, ApplyChanges "metadata" m ∈ trace →
     ∀ result, ev_result (strip_metadata event) = Some result →
       m = (ev_result event ≫= Obj.get "metadata") ∧
       ∀ e, e ∈ reducer_calls result → e ∈ trace) ∧
  (∀ e, e ∈ trace → is_deriver e →
     ApplyChanges "metadata" (ev_result event ≫= Obj.get "metadata") ∈ trace) ∧
  (out.1.1 = Returns () →
     queue out.1.2 = queue_put (strip_metadata event) (queue s) ∧
     (hooks models m_deriver = [] →
      meta (store out.1.2)
      = meta_applyChanges (ev_result event ≫= Obj.get "metadata")
          (meta (store s)))).
Proof.
  intros out trace.
  destruct out as [[r s'] t] eqn:Hout. subst trace. simpl.
  assert (Hstate : r = Returns () →
            queue s' = queue_put (strip_metadata event) (queue s) ∧
            (hooks models m_deriver = [] →
             meta (store s')
             = meta_applyChanges (ev_result event ≫= Obj.get "metadata")
                 (meta (store s)))).
  { intros ->. apply applyEvent_succeeded_inv in Hout.
    by apply applyEvent_try_succeeded in Hout. }
  apply applyEvent_trace in Hout.
  assert (Hplan : ∃ done log,
             t = done ++ log ∧ done `prefix_of` apply_plan models event ∧
             (∀ e, e ∈ log → phase e = 6%nat) ∧
             (r = Returns () → t = apply_plan models event)).
  { destruct Hout as [[-> ->] | (err & done & -> & Hpre & ->)].
    - exists (apply_plan models event), []. rewrite app_nil_r.
      split_and!; try done. intros e H. by apply not_elem_of_nil in H.
    - eexists done, _. split_and!; try done.
      intros e. destruct test_env.
      + intros H. by apply not_elem_of_nil in H.
      + by intros ->%list_elem_of_singleton. }
  clear Hout. destruct Hplan as (done & log & -> & Hpre & Hlog & Hok).
  assert (Hdone : ∀ e, e ∈ done ++ log → phase e ≠ 6%nat → e ∈ done).
  { intros e [H|H]%elem_of_app Hp; [done|]. by apply Hlog in H. }
  assert (Hsorted : StronglySorted in_order done).
  { destruct Hpre as [k Hk]. pose proof (apply_plan_in_order event) as H.
    rewrite Hk in H. by apply StronglySorted_app_1_l in H. }
  unfold strip_metadata, apply_plan in *.
  destruct (ev_result event) as [result0|] eqn:Hres.
  2:{ apply prefix_nil_inv in Hpre as ->. simpl.
      split_and!; try done.
      - apply (same_phase_in_order 6). done.
      - intros e H. by apply Hlog in H.
      - intros name x H. apply Hlog in H. simpl in H.
        by destruct (String.eqb name "metadata").
      - intros m H. by apply Hlog in H.
      - intros e H. apply Hlog in H. by destruct e. }
  cbn zeta in Hpre. simpl.
  set (metadata := Obj.get "metadata" result0) in *.
  set (result := Obj.remove "metadata" result0) in *.
  set (event' := with_result event result) in *.
  split_and!.
  - done.
  - apply StronglySorted_app_2; [| done | by apply (same_phase_in_order 6)].
    intros x1 x2 H1 H2. unfold in_order. rewrite (Hlog x2 H2).
    destruct x1; simpl; try lia. destruct (String.eqb name _); lia.
  - intros e He. apply Hdone in He; [|done].
    assert (e = event') as ->.
    { eapply elem_of_prefix in He; [|done].
      rewrite !elem_of_app, !list_elem_of_singleton in He.
      destruct He as [He | [He | [He | He]]].
      - by injection He.
      - apply elem_of_reducer_calls in He as (? & ? & ? & _). done.
      - done.
      - apply list_elem_of_fmap in He as (? & ? & _). done. }
    split; [done|]. simpl. intros ? [= <-]. apply Obj_get_remove.
  - intros name x He. apply Hdone in He;
      [|by simpl; destruct (String.eqb name "metadata")].
    apply elem_of_app. left.
    eapply (elem_of_prefix [QueueSet event']); [by left|].
    eapply prefix_reaches; [done | done |].
    by intros ?%list_elem_of_singleton.
  - intros m He result' [= <-]. apply Hdone in He; [|done].
    assert (Hnot : ApplyChanges "metadata" m
                   ∉ [QueueSet event'] ++ reducer_calls result).
    { rewrite elem_of_app, list_elem_of_singleton.
      intros [? | H]; [done|]. by apply phase_reducer_call in H. }
    split.
    + eapply elem_of_prefix in He; [|done].
      rewrite !elem_of_app, !list_elem_of_singleton in He.
      destruct He as [He | [He | [He | He]]].
      * done.
      * exfalso. apply Hnot, elem_of_app. by right.
      * by injection He.
      * apply list_elem_of_fmap in He as (? & ? & _). done.
    + intros e He'. apply elem_of_app. left.
      eapply (elem_of_prefix ([QueueSet event'] ++ reducer_calls result)).
      { apply elem_of_app. by right. }
      eapply prefix_reaches; [|done|done]. by rewrite <- app_assoc.
  - intros e He Hder. apply Hdone in He; [|by destruct e].
    assert (Hnot : e ∉ [QueueSet event'] ++ reducer_calls result
                       ++ [ApplyChanges "metadata" metadata]).
    { rewrite !elem_of_app, !list_elem_of_singleton.
      intros [-> | [H | ->]]; [done | | done].
      apply elem_of_reducer_calls in H as (? & ? & -> & _). done. }
    assert (Hfront : ([QueueSet event'] ++ reducer_calls result
                        ++ [ApplyChanges "metadata" metadata])
                     `prefix_of` done).
    { eapply prefix_reaches; [|done|done].
      by rewrite <- !app_assoc. }
    apply elem_of_app. left. eapply elem_of_prefix; [|done].
    rewrite !elem_of_app, !list_elem_of_singleton. auto.
  - exact Hstate.
Qed.

(** *** What has been applied when a step starts *)

Lemma writes_succeed_one (from : nat) :
  fault from = None → writes_succeed fault from 1.
Proof. intros H i Hi. by replace i with from by lia. Qed.

Lemma writes_succeed_app (from n m : nat) :
  writes_succeed fault from n → writes_succeed fault (from + n) m →
  writes_succeed fault from (n + m).
Proof.
  intros H1 H2 i Hi. destruct (decide (i < from + n)%nat).
  - apply H1. lia.
  - apply H2. lia.
Qed.

(** [await Promise.all(ps)] returns only when no promise has rejected. *)
Lemma Promise_all_inv (ps : list (Ret unit)) (s s' : ESDB) (t : list Effect) :
  Promise_all ps s = (Returns (), s', t) → Forall (λ p, p = Returns ()) ps.
Proof.
  induction ps as [|[[]|e] ps IH]; simpl.
  - by constructor.
  - intros H. constructor; [done|by apply IH].
  - done.
Qed.

(** The reducer writes: every started write takes a number, and when all
    their promises resolve, all have succeeded and the tables hold every
    change. *)
Lemma reducer_calls_applied (l : list (string * ROut)) (s s' : ESDB)
    (ps : list (Ret unit)) (t : list Effect) :
  map_calls reducer_call l s = (Returns ps, s', t) →
  writes s' = (writes s + length (reducer_calls l))%nat ∧
  (Forall (λ p, p = Returns ()) ps →
   writes_succeed fault (writes s) (length (reducer_calls l)) ∧
   tables (store s') = apply_changes models l (tables (store s))).
Proof.
  revert s s' ps t. induction l as [|[name r] l IH]; intros s s' ps t.
  { intros [= <- <- <-]. split; [simpl; lia|]. intros _. split; [|done].
    intros i Hi. simpl in Hi. lia. }
  cbn [map_calls]. intros H.
  apply act_bind_inv in H
    as [(e & _ & ?) | (p & s1 & t1 & t2 & H1 & H & ->)]; [done|].
  apply act_bind_inv in H
    as [(e & _ & ?) | (ps' & s2 & t3 & t4 & H2 & H & ->)]; [done|].
  injection H as <- <- <-.
  apply IH in H2 as [Hw2 Hok2].
  unfold reducer_calls, apply_changes. cbn [omap foldl list_omap].
  cbn [fst snd] in *.
  destruct (rtruthy r) eqn:Hr; cbn [fst snd] in *.
  - unfold store_applyChanges in H1.
    destruct (tables (store s) !! name) as [tbl|] eqn:Htbl;
      [destruct (Obj.get name models) as [m|] eqn:Hm|]; [|done|done].
    unfold start, act_bind, effect, db_write in H1.
    destruct (fault (writes s)) as [e|] eqn:Hf; injection H1 as <- <- <-.
    + split; [rewrite Hw2; simpl; unfold reducer_calls; lia|].
      intros Hall. by apply Forall_cons in Hall as [? _].
    + split; [rewrite Hw2; simpl; unfold reducer_calls; lia|].
      intros [_ Hall]%Forall_cons. destruct (Hok2 Hall) as [Hs2 Ht2].
      split.
      * apply (writes_succeed_app (writes s) 1); [by apply writes_succeed_one|].
        replace (writes s + 1)%nat with (S (writes s)) by lia. exact Hs2.
      * rewrite Ht2. done.
  - injection H1 as <- <- <-. split; [exact Hw2|].
    intros [_ Hall]%Forall_cons. by apply Hok2.
Qed.

Lemma deriver_calls_meta (event : Event) (result : list (string * ROut))
    (l : list (string *
           (option Table → Store → Event → list (string * ROut) → Store)))
    (s s' : ESDB) (r : Ret (list (Ret unit))) (t : list Effect) :
  (∀ nd, nd ∈ l → ∀ tbl st ev res, meta (nd.2 tbl st ev res) = meta st) →
  map_calls (run_deriver fault event result) l s = (r, s', t) →
  meta (store s') = meta (store s).
Proof.
  revert s s' r t. induction l as [|nd l IH]; intros s s' r t Hl.
  { by intros [= <- <- <-]. }
  cbn [map_calls]. intros H.
  apply act_bind_inv in H
    as [(e & H & _) | (p & s1 & t1 & t2 & H1 & H & ->)].
  { unfold run_deriver, start in H.
    destruct (act_bind _ _ s) as [[? ?] ?]; done. }
  assert (meta (store s1) = meta (store s)) as <-.
  { unfold run_deriver, start, act_bind, effect, db_write in H1.
    destruct (fault (writes s)); injection H1 as <- <- <-; simpl; [done|].
    apply Hl. by left. }
  apply act_bind_inv in H
    as [(e & H & _) | (ps & s2 & t3 & t4 & H2 & H & ->)].
  - eapply IH; [|exact H]. intros nd' Hnd'. apply Hl. by right.
  - injection H as <- <- <-. eapply IH; [|exact H2].
    intros nd' Hnd'. apply Hl. by right.
Qed.

Lemma applyEvent_inv (event : Event) (s s' : ESDB) (r : Ret unit)
    (t : list Effect) :
  applyEvent models fault test_env event s = (r, s', t) →
  ∃ t0 log,
    applyEvent_try models fault event s = (r, s', t0) ∧ t = t0 ++ log ∧
    ∀ e, e ∈ log → phase e = 6%nat.
Proof.
  unfold applyEvent. intros H.
  apply catch_inv in H as [([] & H & ->) | (e & s1 & t1 & t2 & H1 & H & ->)].
  - exists t, []. rewrite app_nil_r. split_and!; [done|done|].
    by intros e ?%not_elem_of_nil.
  - destruct test_env; unfold act_bind, act_ret, effect, throw in H;
      simpl in H; injection H as <- <- <-; eexists t1, _;
      (split_and!; [done|done|]).
    + by intros e' ?%not_elem_of_nil.
    + by intros e' ->%list_elem_of_singleton.
Qed.

(** How far the [try] block of [applyEvent] has got, read off the calls
    it made: a call of [applyChanges] means [queue.set] has written the
    row; the call for the metadata change means every reducer write has
    succeeded; a deriver call means the metadata write has succeeded. *)
Lemma applyEvent_try_progress (event : Event) (result0 : list (string * ROut))
    (s s' : ESDB) (r : Ret unit) (t : list Effect) :
  ev_result event = Some result0 →
  applyEvent_try models fault event s = (r, s', t) →
  let result := Obj.remove "metadata" result0 in
  let n := length (reducer_calls result) in
  ((∃ name x, ApplyChanges name x ∈ t) →
     writes_succeed fault (writes s) 1 ∧
     queue s' = queue_put (with_result event result) (queue s)) ∧
  ((∃ m, ApplyChanges "metadata" m ∈ t) →
     writes_succeed fault (writes s) (1 + n) ∧
     ((∀ e, e ∈ t → ¬ is_deriver e) →
      tables (store s') = apply_changes models result (tables (store s)))) ∧
  ((∃ e, e ∈ t ∧ is_deriver e) →
     writes_succeed fault (writes s) (2 + n) ∧
     (derivers_keep_meta models →
      meta (store s')
      = meta_applyChanges (Obj.get "metadata" result0) (meta (store s)))).
Proof.
  intros Hres. unfold applyEvent_try. rewrite Hres. cbn zeta.
  set (metadata := Obj.get "metadata" result0).
  set (result := Obj.remove "metadata" result0).
  set (event' := with_result event result).
  intros H.
  assert (Hcalls : ∀ y, y ∈ reducer_calls result → phase y = 3%nat).
  { intros y Hy. by apply phase_reducer_call in Hy. }
  assert (Hno_meta : ∀ m front, front `prefix_of` reducer_calls result →
            ApplyChanges "metadata" m ∉ [QueueSet event'] ++ front).
  { intros m front Hpre [?%list_elem_of_singleton|Hin]%elem_of_app; [done|].
    eapply elem_of_prefix in Hin; [|done]. by apply Hcalls in Hin. }
  assert (Hno_der : ∀ y front, front `prefix_of` reducer_calls result →
            y ∈ [QueueSet event'] ++ front → ¬ is_deriver y).
  { intros y front Hpre [->%list_elem_of_singleton|Hin]%elem_of_app Hd;
      [destruct Hd|].
    eapply elem_of_prefix in Hin; [|done]. apply Hcalls in Hin.
    by destruct y. }
  apply act_bind_inv in H
    as [(e' & H & _) | ([] & s1 & t1 & t2 & H1 & H & ->)].
  { rewrite queue_set_run in H.
    destruct (fault (writes s)); [|done]. injection H as _ <- <-.
    split_and!.
    - by intros (name & x & ?%list_elem_of_singleton).
    - by intros (m & ?%list_elem_of_singleton).
    - intros (y & ->%list_elem_of_singleton & Hd). destruct Hd. }
  rewrite queue_set_run in H1.
  destruct (fault (writes s)) eqn:Hf0; [done|]. injection H1 as <- <-.
  apply writes_succeed_one in Hf0.
  apply act_bind_inv in H
    as [(e' & H & _) | (ps & s2 & t3 & t4 & H2 & H & ->)].
  { pose proof (reducer_calls_trace _ _ _ _ _ H) as [Hpre _].
    apply reducer_calls_keep in H as [_ Hq]. simpl in Hq.
    split_and!.
    - intros _. by split.
    - intros (m & Hm). by apply Hno_meta in Hm.
    - intros (y & Hy & Hd). by apply (Hno_der y t2) in Hy. }
  pose proof (reducer_calls_trace _ _ _ _ _ H2) as [_ Ht3].
  specialize (Ht3 ps eq_refl). subst t3.
  pose proof (reducer_calls_keep _ _ _ _ _ H2) as [Hm2 Hq2].
  simpl in Hm2, Hq2.
  apply reducer_calls_applied in H2 as [Hw2 Hok2]. simpl in Hw2.
  apply act_bind_inv in H
    as [(e' & H & _) | ([] & s3 & t5 & t6 & H3 & H & ->)].
  { apply Promise_all_trace in H as [-> ->]. rewrite app_nil_r.
    split_and!.
    - intros _. by split.
    - intros (m & Hm). by apply Hno_meta in Hm.
    - intros (y & Hy & Hd). by apply (Hno_der y (reducer_calls result)) in Hy. }
  pose proof (Promise_all_inv _ _ _ _ H3) as Hall.
  apply Promise_all_trace in H3 as [-> ->].
  destruct (Hok2 Hall) as [Hreds Htables]. simpl in Htables.
  assert (Hupto : writes_succeed fault (writes s)
                    (1 + length (reducer_calls result))).
  { apply writes_succeed_app; [done|].
    by replace (writes s + 1)%nat with (S (writes s)) by lia. }
  apply act_bind_inv in H
    as [(e' & H & _) | ([] & s4 & t7 & t8 & H4 & H & ->)].
  { rewrite metadata_applyChanges_run in H.
    destruct (fault (writes s2)); [|done]. injection H as _ <- <-.
    split_and!.
    - intros _. by split.
    - intros _. split; [done|]. intros _. exact Htables.
    - intros (y & Hy & Hd). exfalso.
      rewrite app_nil_l, app_assoc in Hy.
      apply elem_of_app in Hy as [Hy|Hy];
        [|apply list_elem_of_singleton in Hy as ->; destruct Hd].
      by apply (Hno_der y (reducer_calls result)) in Hy. }
  rewrite metadata_applyChanges_run in H4.
  destruct (fault (writes s2)) eqn:Hf2; [done|]. injection H4 as <- <-.
  assert (Hall2 : writes_succeed fault (writes s)
                    (2 + length (reducer_calls result))).
  { replace (2 + length (reducer_calls result))%nat
      with ((1 + length (reducer_calls result)) + 1)%nat by lia.
    apply writes_succeed_app; [done|]. apply writes_succeed_one.
    replace (writes s + (1 + length (reducer_calls result)))%nat
      with (writes s2) by lia. done. }
  match type of H with
  | act_bind _ _ ?s0 = _ =>
      destruct (deriver_calls_trace event' result (hooks models m_deriver) s0)
        as (ps' & s5 & Hd)
  end.
  apply act_bind_inv in H
    as [(e' & H & _) | (ps'' & s6 & t9 & t10 & H5 & H & ->)].
  { rewrite Hd in H. done. }
  rewrite Hd in H5. injection H5 as <- <- <-.
  apply Promise_all_trace in H as [-> ->].
  pose proof (deriver_calls_keep _ _ _ _ _ _ _ Hd) as Hq5.
  simpl in Hq5.
  split_and!.
  - intros _. split; [done|]. by rewrite Hq5, Hq2.
  - intros _. split; [done|]. intros Hnone.
    destruct (hooks models m_deriver) as [|nd l] eqn:Hhooks.
    + simpl in Hd. injection Hd as _ <-. simpl. exact Htables.
    + exfalso. apply (Hnone (RunDeriver nd.1 event' result)); [|done].
      rewrite !elem_of_app. do 4 right. left. simpl. by left.
  - intros _. split; [done|]. intros Hderive.
    apply deriver_calls_meta in Hd.
    2:{ intros [name d] Hnd. by apply (Hderive name d). }
    simpl in Hd. by rewrite Hd, Hm2.
Qed.

(** C1. The apply phase of [applyEvent] goes in this order, and each step
    starts only when the steps before it are done. The metadata entry is
    taken out of [event.result]; [queue.set(event)] is called with what is
    left; [applyChanges] is called for every remaining reducer entry; the
    metadata change is applied; the derivers run. When nothing fails the
    trace is exactly that list; when a step fails, what was done is a
    prefix of it followed only by the log line. The writes of the phase
    are numbered from [writes s] on: [queue.set], the reducer writes, the
    metadata write. A call of [applyChanges] is made only once
    [queue.set] has written the row. The metadata change is started only
    once every reducer write has succeeded, so that the tables hold every
    reducer change (as they still do at the end when no deriver ran). A
    deriver is called only once the metadata write has succeeded as well,
    that is, with the applied version advanced. When nothing fails the
    queue row of [event.v] holds the event and, the derivers' own writes
    aside, the metadata table holds the metadata change. *)
Theorem applyEvent_order (event : Event) (s : ESDB) :
  let out := applyEvent models fault test_env event s in
  let trace := out.2 in
  (out.1.1 = Returns () → trace = apply_plan models event) ∧
  StronglySorted in_order trace ∧
  (∀ e, QueueSet e ∈ trace →
     e = strip_metadata event ∧
     ∀ result, ev_result e = Some result → Obj.get "metadata" result = None) ∧
  (∀ name r, ApplyChanges name r ∈ trace →
     QueueSet (strip_metadata event) ∈ trace) ∧
  (∀ m, ApplyChanges "metadata" m ∈ trace →
     ∀ result, ev_result (strip_metadata event) = Some result →
       m = (ev_result event ≫= Obj.get "metadata") ∧
       ∀ e, e ∈ reducer_calls result → e ∈ trace) ∧
  (∀ e, e ∈ trace → is_deriver e →
     ApplyChanges "metadata" (ev_result event ≫= Obj.get "metadata") ∈ trace) ∧
  (out.1.1 = Returns () →
     queue out.1.2 = queue_put (strip_metadata event) (queue s) ∧
     (hooks models m_deriver = [] →
      meta (store out.1.2)
      = meta_applyChanges (ev_result event ≫= Obj.get "metadata")
          (meta (store s)))) ∧
  (∀ name r, ApplyChanges name r ∈ trace →
     writes_succeed fault (writes s) 1 ∧
     queue out.1.2 = queue_put (strip_metadata event) (queue s)) ∧
  (∀ m result, ApplyChanges "metadata" m ∈ trace →
     ev_result (strip_metadata event) = Some result →
     writes_succeed fault (writes s) (1 + length (reducer_calls result)) ∧
     ((∀ e, e ∈ trace → ¬ is_deriver e) →
      tables (store out.1.2)
      = apply_changes models result (tables (store s)))) ∧
  (∀ e result, e ∈ trace → is_deriver e →
     ev_result (strip_metadata event) = Some result →
     writes_succeed fault (writes s) (2 + length (reducer_calls result)) ∧
     (derivers_keep_meta models →
      meta (store out.1.2)
      = meta_applyChanges (ev_result event ≫= Obj.get "metadata")
          (meta (store s)))).
Proof.
  intros out trace.
  pose proof (applyEvent_calls_in_order event s) as Hcalls.
  cbv zeta in Hcalls. fold out in Hcalls.
  destruct Hcalls as (H1 & H2 & H3 & H4 & H5 & H6 & H7).
  split_and!; [exact H1|exact H2|exact H3|exact H4|exact H5|exact H6|exact H7
              | | |].
  all: subst trace; destruct out as [[r s'] t] eqn:Hout; cbn [fst snd];
    apply applyEvent_inv in Hout as (t0 & log & Htry & -> & Hlog);
    assert (Hin : ∀ e, e ∈ t0 ++ log → phase e ≠ 6%nat → e ∈ t0)
      by (intros e [?|He]%elem_of_app Hp; [done|by apply Hlog in He]).
  - intros name x Hx. apply Hin in Hx;
      [|by simpl; destruct (String.eqb name "metadata")].
    destruct (ev_result event) as [result0|] eqn:Hres.
    + destruct (applyEvent_try_progress event result0 _ _ _ _ Hres Htry)
        as (Hp1 & _ & _).
      unfold strip_metadata. rewrite Hres. apply Hp1. by exists name, x.
    + unfold applyEvent_try in Htry. rewrite Hres in Htry.
      injection Htry as _ _ <-. by apply not_elem_of_nil in Hx.
  - intros m result Hm Hresult. apply Hin in Hm; [|done].
    unfold strip_metadata in Hresult.
    destruct (ev_result event) as [result0|] eqn:Hres.
    + injection Hresult as <-.
      destruct (applyEvent_try_progress event result0 _ _ _ _ Hres Htry)
        as (_ & Hp2 & _).
      destruct Hp2 as [Hok Htbl]; [by exists m|]. split; [exact Hok|].
      intros Hnone. apply Htbl. intros e He. apply Hnone.
      apply elem_of_app. by left.
    + by rewrite Hres in Hresult.
  - intros e result He Hder Hresult. apply Hin in He; [|by destruct e].
    unfold strip_metadata in Hresult.
    destruct (ev_result event) as [result0|] eqn:Hres.
    + injection Hresult as <-.
      destruct (applyEvent_try_progress event result0 _ _ _ _ Hres Htry)
        as (_ & _ & Hp3).
      apply Hp3. by exists e.
    + by rewrite Hres in Hresult.
Qed.

(** ** [preprocessor] and [reducer] *)

Lemma Obj_get_Some {A : Type} (k : string) (o : list (string * A)) :
  k ∈ o.*1 → ∃ x, Obj.get k o = Some x.
Proof.
  induction o as [|[k' x] o IH]; simpl.
  - by intros ?%not_elem_of_nil.
  - destruct (String.eqb k k') eqn:E; [by eexists|].
    apply String.eqb_neq in E. intros [?|?]%elem_of_cons; [done|].
    by apply IH.
Qed.

Lemma Obj_get_set {A : Type} (k k' : string) (x : A) (o : list (string * A)) :
  Obj.get k (Obj.set k' x o) = if String.eqb k k' then Some x else Obj.get k o.
Proof.
  induction o as [|[k'' y] o IH]; simpl.
  - by destruct (String.eqb k k').
  - destruct (String.eqb k' k'') eqn:E1; simpl.
    + apply String.eqb_eq in E1 as <-. by destruct (String.eqb k k').
    + destruct (String.eqb k k'') eqn:E2; [|done].
      apply String.eqb_eq in E2 as ->.
      by rewrite String.eqb_sym, E1.
Qed.

Lemma preprocessor_from_passes
    (pre rest : list (string *
       (Event → option Table → Store → Ret (Event * option Event))))
    (store : Store) (event final : Event) :
  passes pre store event final →
  preprocessor_from (pre ++ rest) store event
  = preprocessor_from rest store final.
Proof.
  induction 1 as [| name hook names store event event' final Hh _ IH
                  | name hook names store event event' newEvent final
                      Hh Herr Hv Ht _ IH]; simpl.
  - done.
  - rewrite Hh. simpl. apply IH.
  - rewrite Hh. simpl. rewrite Herr.
    rewrite bool_decide_eq_false_2 by (by intros []).
    assert (String.eqb (ev_type newEvent) "" = false) as ->
      by by apply String.eqb_neq.
    simpl. apply IH.
Qed.

(** When preprocessing leaves an event with a truthy [error], the
    reducer runs the metadata reducer alone and returns
    [{...event, result: {metadata}}]. *)
Lemma reducer_after_preprocess_error (store : Store) (event failed : Event) :
  preprocessor models store event = Returns failed →
  truthy (ev_error failed) = true →
  reducer models store event
  = Returns (with_result failed
               [("metadata", metadata.reducer (Some (meta store)) failed)]).
Proof. intros Hp Herr. unfold reducer. rewrite Hp. simpl. by rewrite Herr. Qed.

(** C6, as the code has it. Let a preprocessor be called, after the ones
    before it have passed, on the event [event], and let it return a new
    event. [kept] is the event it was given, with [v] and [type] as they
    were before the call. If the new event has a truthy [error], the
    outcome is [kept] with [error = {<name>: newEvent.error}], whatever
    its [v] and [type]. If it has none and its [v] differs, or its [v]
    is the same and its [type] is empty, the outcome is [kept] with
    [error._preprocess.message] naming the model. In each of the three
    cases no later preprocessor runs and the reducer returns the outcome
    with [result = {metadata}], the output of the metadata reducer
    alone. *)
Theorem preprocessor_errors
    (pre rest : list (string *
       (Event → option Table → Store → Ret (Event * option Event))))
    (name : string)
    (hook : Event → option Table → Store → Ret (Event * option Event))
    (store : Store) (event0 event event' newEvent : Event) :
  hooks models m_preprocessor = pre ++ (name, hook) :: rest →
  passes pre store event0 event →
  hook event (tables store !! name) store = Returns (event', Some newEvent) →
  let kept := with_v_type event' (ev_v event) (ev_type event) in
  let fails_with (error : Val) : Prop :=
    preprocessor models store event0 = Returns (with_error kept error) ∧
    reducer models store event0
    = Returns (with_result (with_error kept error)
                 [("metadata",
                   metadata.reducer (Some (meta store))
                     (with_error kept error))]) in
  (truthy (ev_error newEvent) = true →
     fails_with (VObj [(name, ev_error newEvent)])) ∧
  (truthy (ev_error newEvent) = false → ev_v newEvent ≠ ev_v event →
     fails_with
       (VObj [("_preprocess",
               VObj [("message",
                      VStr (name +:+ ": preprocessor must retain event version"))])])) ∧
  (truthy (ev_error newEvent) = false → ev_v newEvent = ev_v event →
     ev_type newEvent = "" →
     fails_with
       (VObj [("_preprocess",
               VObj [("message",
                      VStr (name +:+ ": preprocessor must return event type"))])])).
Proof.
  intros Hhooks Hpass Hhook kept fails_with.
  assert (Hfrom : preprocessor models store event0
                  = preprocessor_from ((name, hook) :: rest) store event).
  { unfold preprocessor. rewrite Hhooks. by apply preprocessor_from_passes. }
  assert (Hred : ∀ error,
             preprocessor models store event0
             = Returns (with_error kept (VObj error)) →
             fails_with (VObj error)).
  { intros error Hp. split; [done|].
    by apply reducer_after_preprocess_error. }
  simpl in Hfrom. rewrite Hhook in Hfrom. simpl in Hfrom.
  split_and!.
  - intros Herr. apply Hred. by rewrite Hfrom, Herr.
  - intros Herr Hv. apply Hred. rewrite Hfrom, Herr.
    by rewrite bool_decide_eq_true_2.
  - intros Herr Hv Ht. apply Hred. rewrite Hfrom, Herr.
    rewrite bool_decide_eq_false_2 by (by intros []).
    by rewrite Ht.
Qed.

(** The composed output has an entry for every reducer name. *)
Lemma hooks_names {H : Type} (f : ModelDef → option H) (g : string * H → string * ROut) :
  (∀ nh, (g nh).1 = nh.1) →
  (g <$> hooks models f).*1 = (hooks models f).*1.
Proof.
  intros Hg. rewrite <- list_fmap_compose. apply list_fmap_ext.
  intros ? nh _. apply Hg.
Qed.

Lemma hooks_subset {H : Type} (f : ModelDef → option H) (n : string) :
  n ∈ (hooks models f).*1 → n ∈ models.*1.
Proof.
  unfold hooks. rewrite !list_elem_of_fmap.
  intros ([n' h] & -> & Hin). apply list_elem_of_omap in Hin as (nm & Hnm & Hf).
  exists nm. split; [|done].
  destruct (f nm.2); simpl in Hf; [|done]. by injection Hf as <- _.
Qed.

Lemma Obj_get_app_notin {A : Type} (k : string) (o o' : list (string * A)) :
  k ∉ o.*1 → Obj.get k (o ++ o') = Obj.get k o'.
Proof.
  induction o as [|[k' x] o IH]; simpl; [done|].
  rewrite not_elem_of_cons. intros [Hne Hnot].
  apply String.eqb_neq in Hne as ->. by apply IH.
Qed.

Lemma modelReducer_names (store : Store) (event : Event) :
  (modelReducer models store event).*1 = reducerNames models.
Proof.
  unfold modelReducer, combineReducers, reducerNames.
  rewrite fmap_app. f_equal. by apply hooks_names.
Qed.

Lemma entry_Returns (result : list (string * ROut)) (name : string) :
  name ∈ result.*1 →
  ∃ r, Obj.get name result = Some r ∧ entry result name = Returns r.
Proof.
  intros (r & Hr)%Obj_get_Some. exists r. unfold entry. by rewrite Hr.
Qed.

Lemma some_error_spec (result : list (string * ROut)) (names : list string) :
  (∀ n, n ∈ names → n ∈ result.*1) →
  ∃ b, some_error result names = Returns b ∧
       (b = true ↔ ∃ n r, n ∈ names ∧ Obj.get n result = Some r
                          ∧ truthy (rerror r) = true).
Proof.
  induction names as [|n names IH]; intros Hin; simpl.
  - exists false. split; [done|]. split; [done|].
    by intros (? & ? & ?%not_elem_of_nil & _).
  - destruct (entry_Returns result n) as (r & Hr & ->); [apply Hin; by left|].
    simpl. destruct (truthy (rerror r)) eqn:Herr.
    + exists true. split; [done|]. split; [|done].
      intros _. exists n, r. split; [by left | done].
    + destruct IH as (b & -> & Hb); [intros ? ?; apply Hin; by right|].
      exists b. split; [done|]. rewrite Hb. split.
      * intros (n' & r' & ? & ? & ?). exists n', r'. split; [by right|done].
      * intros (n' & r' & [->|?]%elem_of_cons & Hr' & Herr').
        -- rewrite Hr in Hr'. injection Hr' as <-. congruence.
        -- by exists n', r'.
Qed.

Lemma collect_errors_spec (result : list (string * ROut))
    (names : list string) (acc : list (string * Val)) :
  (∀ n, n ∈ names → n ∈ result.*1) →
  ∃ error, collect_errors result names acc = Returns error ∧
    ∀ k e, Obj.get k error = Some e ↔
      (k ∈ names ∧ ∃ r, Obj.get k result = Some r
                        ∧ truthy (rerror r) = true ∧ e = rerror r) ∨
      ((¬ (k ∈ names ∧ ∃ r, Obj.get k result = Some r
                            ∧ truthy (rerror r) = true))
       ∧ Obj.get k acc = Some e).
Proof.
  revert acc. induction names as [|n names IH]; intros acc Hin; simpl.
  - exists acc. split; [done|]. intros k e. split.
    + intros H. right. split; [|done]. by intros [?%not_elem_of_nil _].
    + intros [[?%not_elem_of_nil _] | [_ H]]; done.
  - destruct (entry_Returns result n) as (r & Hr & ->); [apply Hin; by left|].
    simpl.
    destruct (IH (if truthy (rerror r) then Obj.set n (rerror r) acc else acc))
      as (error & -> & Hspec); [intros ? ?; apply Hin; by right|].
    exists error. split; [done|]. intros k e. rewrite Hspec. clear Hspec.
    destruct (truthy (rerror r)) eqn:Herr.
    + rewrite Obj_get_set. destruct (String.eqb k n) eqn:E.
      * apply String.eqb_eq in E as ->. split.
        -- intros [(Hk & r' & Hr' & Herr' & ->) | (Hn & [= <-])].
           ++ left. split; [by right | by exists r'].
           ++ left. split; [by left | by exists r].
        -- intros [(_ & r' & Hr' & Herr' & ->) | (Hn & _)].
           ++ rewrite Hr in Hr'. injection Hr' as <-.
              destruct (decide (n ∈ names)) as [Hk|Hk].
              ** left. split; [done | by exists r].
              ** right. split; [|done]. by intros [? _].
           ++ exfalso. apply Hn. split; [by left | by exists r].
      * apply String.eqb_neq in E. split.
        -- intros [(Hk & H) | (Hn & H)].
           ++ left. split; [by right | done].
           ++ right. split; [|done].
              intros [[?|?]%elem_of_cons H']; [done|]. by apply Hn.
        -- intros [(Hk & H) | (Hn & H)].
           ++ apply elem_of_cons in Hk as [Hk|Hk]; [done | by left].
           ++ right. split; [|done]. intros [? H']. apply Hn.
              split; [by right | done].
    + split.
      * intros [(Hk & H) | (Hn & H)].
        -- left. split; [by right | done].
        -- right. split; [|done].
           intros [[->|?]%elem_of_cons (r' & Hr' & Herr')].
           ++ rewrite Hr in Hr'. injection Hr' as <-. congruence.
           ++ apply Hn. split; [done | by exists r'].
      * intros [(Hk & r' & Hr' & Herr' & ->) | (Hn & H)].
        -- apply elem_of_cons in Hk as [->|Hk].
           ++ rewrite Hr in Hr'. injection Hr' as <-. congruence.
           ++ left. split; [done | by exists r'].
        -- right. split; [|done]. intros [? H']. apply Hn.
           split; [by right | done].
Qed.

(** C5. When preprocessing leaves an event without an error and at least
    one composed reducer returns an error, [reducer] returns an event
    whose [error] maps exactly the errored model names to their errors and
    whose [result] is the metadata entry alone: the changes of all other
    reducers, errored or not, are left out. *)
Theorem reducer_collects_errors (store : Store) (event reduced : Event) :
  preprocessor models store event = Returns reduced →
  truthy (ev_error reduced) = false →
  let result := modelReducer models store reduced in
  (∃ name r, name ∈ reducerNames models ∧ Obj.get name result = Some r
             ∧ truthy (rerror r) = true) →
  ∃ error metadata,
    reducer models store event
    = Returns (with_error (with_result reduced [("metadata", metadata)])
                 (VObj error)) ∧
    Obj.get "metadata" result = Some metadata ∧
    ("metadata" ∉ models.*1 →
       metadata = metadata.reducer (Some (meta store)) reduced) ∧
    (∀ name e, Obj.get name error = Some e ↔
       name ∈ reducerNames models ∧
       ∃ r, Obj.get name result = Some r ∧ truthy (rerror r) = true
            ∧ e = rerror r) ∧
    (∀ name, name ≠ "metadata" →
       Obj.get name [("metadata", metadata)] = None).
Proof.
  intros Hp Hne result Hex.
  assert (Hnames : ∀ n, n ∈ reducerNames models → n ∈ result.*1).
  { intros n. unfold result. by rewrite modelReducer_names. }
  destruct (some_error_spec result (reducerNames models) Hnames)
    as (b & Hsome & Hb).
  apply Hb in Hex. subst b.
  destruct (collect_errors_spec result (reducerNames models) [] Hnames)
    as (error & Hcoll & Herror).
  destruct (Obj_get_Some "metadata" result) as [metadata Hm].
  { apply Hnames. unfold reducerNames. apply elem_of_app. right. by left. }
  exists error, metadata. split_and!.
  - unfold reducer. rewrite Hp. simpl. rewrite Hne.
    fold result. rewrite Hsome. simpl. rewrite Hcoll. simpl.
    unfold only_metadata. by rewrite Hm.
  - done.
  - intros Hres. unfold result, modelReducer, combineReducers in Hm.
    rewrite Obj_get_app_notin in Hm.
    + simpl in Hm. by injection Hm.
    + rewrite hooks_names by done. intros H. by apply hooks_subset in H.
  - intros name e. rewrite Herror. split.
    + by intros [H | [_ H]].
    + intros H. by left.
  - intros name Hname. simpl.
    destruct (String.eqb name "metadata") eqn:E; [|done].
    by apply String.eqb_eq in E.
Qed.

(** ** [handleResult] and the waiters *)

Lemma apply_frame_refl (v : option Z) (s : ESDB) : apply_frame v s s.
Proof. unfold apply_frame. split_and!; done. Qed.

Lemma apply_frame_writes (v : option Z) (n : nat) (s : ESDB) :
  apply_frame v s (set_writes n s).
Proof. unfold apply_frame. split_and!; done. Qed.

Lemma apply_frame_store (v : option Z) (x : Store) (s : ESDB) :
  apply_frame v s (set_store x s).
Proof. unfold apply_frame. split_and!; done. Qed.

Lemma apply_frame_queue (event : Event) (s : ESDB) :
  apply_frame (ev_v event) s (set_queue (queue_put event (queue s)) s).
Proof.
  unfold apply_frame. split_and!; try done.
  intros w Hw. simpl. unfold queue_put.
  destruct (ev_v event) as [v|]; [|done].
  rewrite lookup_insert_ne; [done | congruence].
Qed.

Lemma apply_frame_trans (v : option Z) (s1 s2 s3 : ESDB) :
  apply_frame v s1 s2 → apply_frame v s2 s3 → apply_frame v s1 s3.
Proof.
  unfold apply_frame.
  intros (H1 & H2 & H3 & H4 & H5 & H6 & H7 & H8 & Hq1)
         (G1 & G2 & G3 & G4 & G5 & G6 & G7 & G8 & Hq2).
  split_and!; try congruence.
  intros w Hw. by rewrite Hq2, Hq1.
Qed.

Lemma applyEvent_frame (event : Event) :
  keeps (apply_frame (ev_v event)) (applyEvent models fault test_env event).
Proof.
  pose proof (apply_frame_refl (ev_v event)) as Hrefl.
  pose proof (apply_frame_trans (ev_v event)) as Htrans.
  pose proof (λ s, apply_frame_writes (ev_v event) (S (writes s)) s) as Hwrites.
  pose proof (apply_frame_store (ev_v event)) as Hstore.
  unfold applyEvent. apply keeps_catch; try done.
  2:{ intros e. apply keeps_bind; try done.
      - destruct test_env; [by apply keeps_ret | by apply keeps_effect].
      - intros _. by apply keeps_throw. }
  unfold applyEvent_try.
  destruct (ev_result event) as [result|]; [|by apply keeps_throw].
  apply keeps_bind; try done.
  { unfold queue_set. apply keeps_bind; try done; [by apply keeps_effect|].
    intros _. apply keeps_db_write; try done.
    intros s. apply (apply_frame_queue (with_result event _)). }
  intros _. apply keeps_bind; try done.
  { apply keeps_map_calls; try done. intros [name r]. simpl.
    destruct (rtruthy r); [|by apply keeps_ret].
    intros s p s' t. unfold store_applyChanges.
    destruct (tables (store s) !! name) as [tbl|];
      [destruct (Obj.get name models) as [m|]|].
    - revert s p s' t. apply keeps_start.
      apply keeps_bind; try done; [by apply keeps_effect|].
      intros _. apply keeps_db_write; try done.
    - intros [= <- <- <-]. done.
    - intros [= <- <- <-]. done. }
  intros ps. apply keeps_bind; try done; [by apply keeps_Promise_all|].
  intros _. apply keeps_bind; try done.
  { unfold metadata_applyChanges.
    apply keeps_bind; try done; [by apply keeps_effect|].
    intros _. apply keeps_db_write; try done. }
  intros _. apply keeps_bind; try done; [|intros; by apply keeps_Promise_all].
  apply keeps_map_calls; try done. intros nd. unfold run_deriver.
  apply keeps_start.
  apply keeps_bind; try done; [by apply keeps_effect|].
  intros _. apply keeps_db_write; try done.
Qed.

Lemma elem_of_entries (w : gmap Z nat) (v : Z) (o : nat) :
  (v, o) ∈ entries w ↔ w !! v = Some o.
Proof.
  unfold entries. rewrite merge_sort_Permutation.
  apply elem_of_map_to_list.
Qed.

Lemma strip_metadata_v (event : Event) :
  ev_v (strip_metadata event) = ev_v event.
Proof. unfold strip_metadata. by destruct (ev_result event). Qed.

Lemma strip_metadata_error (event : Event) :
  ev_error (strip_metadata event) = ev_error event.
Proof. unfold strip_metadata. by destruct (ev_result event). Qed.

(** [triggerWaitingEvent] on an event with version [v]: first the waiter
    of [v], then, if [v] has reached [_maxWaitingFor], all the others. *)
Lemma triggerWaitingEvent_run (event : Event) (v : Z) (s : ESDB) :
  ev_v event = Some v →
  ∃ s',
    triggerWaitingEvent event s
    = (Returns (), s',
       match _waitingFor s !! v with
       | Some o => [settle o event]
       | None => []
       end
       ++ (if bool_decide (_maxWaitingFor s ≤ v)
           then sweep_one (queue s) <$> entries (delete v (_waitingFor s))
           else [])) ∧
    _waitingFor s'
    = (if bool_decide (_maxWaitingFor s ≤ v) then ∅
       else delete v (_waitingFor s)) ∧
    queue s' = queue s ∧ store s' = store s ∧
    _maxWaitingFor s' = _maxWaitingFor s.
Proof.
  intros Hv. unfold triggerWaitingEvent, act_bind, get_state. rewrite Hv.
  simpl. destruct (_waitingFor s !! v) as [o|] eqn:Hw; simpl.
  - case_bool_decide; eexists; split_and!; done.
  - rewrite (delete_id (_waitingFor s) v) by done.
    case_bool_decide; eexists; split_and!; done.
Qed.

(** [handleResult] on an event with a version: the apply phase, the log
    line if it failed, the emitted events, the waiters. *)
Lemma handleResult_run (event : Event) (v : Z) (s : ESDB) :
  ev_v event = Some v → v ≠ 0 →
  ∃ ra s1 t1 s2 t3,
    applyEvent models fault test_env event s = (ra, s1, t1) ∧
    triggerWaitingEvent (strip_metadata event) s1 = (Returns (), s2, t3) ∧
    handleResult models fault test_env error_listeners (Some event) s
    = (Returns (), s2,
       t1 ++ apply_log ra ++ emitted error_listeners (strip_metadata event)
          ++ t3).
Proof.
  intros Hv Hne.
  destruct (applyEvent models fault test_env event s) as [[ra s1] t1] eqn:Ha.
  destruct (triggerWaitingEvent (strip_metadata event) s1)
    as [[rt s2] t3] eqn:Ht.
  assert (rt = Returns ()) as ->.
  { destruct (triggerWaitingEvent_run (strip_metadata event) v s1)
      as (s2' & Ht' & _); [by rewrite strip_metadata_v|]. congruence. }
  eexists ra, s1, t1, s2, t3. split; [done|]. split; [done|].
  unfold handleResult.
  assert (no_version event = false) as Hnv.
  { unfold no_version. rewrite Hv. simpl.
    apply negb_false_iff, negb_true_iff, Z.eqb_neq. done. }
  unfold act_bind at 1. unfold get_state at 1.
  unfold act_bind at 1. unfold act_ret at 1. rewrite Hnv.
  unfold act_bind at 1. unfold catch. rewrite Ha.
  unfold emitted, apply_log.
  destruct ra as [[]|err]; unfold effect, act_bind, act_ret;
    destruct (truthy (ev_error (strip_metadata event)));
    try destruct (bool_decide (error_listeners ≠ 0%nat));
    rewrite Ht; simpl; rewrite ?app_nil_r, <- ?app_assoc; done.
Qed.

Lemma apply_plan_phase (event : Event) (e : Effect) :
  e ∈ apply_plan models event → phase e ≠ 6%nat.
Proof.
  unfold apply_plan. destruct (ev_result event) as [result|];
    [|by intros ?%not_elem_of_nil].
  cbn zeta. rewrite !elem_of_app, !list_elem_of_singleton.
  intros [-> | [H | [-> | H]]]; try done.
  - by apply phase_reducer_call in H as ->.
  - by apply phase_deriver_call in H as ->.
Qed.

Lemma applyEvent_no_settlement (event : Event) (s s' : ESDB) (r : Ret unit)
    (t : list Effect) :
  applyEvent models fault test_env event s = (r, s', t) →
  ∀ e, e ∈ t → ¬ is_settlement e.
Proof.
  intros [[-> ->] | (err & done & -> & Hpre & ->)]%applyEvent_trace e He Hs.
  - apply apply_plan_phase in He. by destruct e.
  - apply elem_of_app in He as [He | He].
    + eapply elem_of_prefix in He; [|done].
      apply apply_plan_phase in He. by destruct e.
    + destruct test_env; [by apply not_elem_of_nil in He|].
      by apply list_elem_of_singleton in He as ->.
Qed.

(** C7, as the code has it. After the apply phase of a handled event
    with version [v], and after [handled] is emitted, the waiter
    registered for [v] is resolved, or rejected when [event.error] is
    truthy, and removed. Then, when [v] has reached [_maxWaitingFor],
    every other waiter is removed and settled on its own event as the
    queue holds it; a waiter whose row is missing stays unsettled.
    When [v] is below [_maxWaitingFor] nothing is swept: the other
    waiters stay registered, also those at most [v]. *)
Theorem handleResult_waiters (event : Event) (v : Z) (s : ESDB) :
  ev_v event = Some v → v ≠ 0 →
  let out := handleResult models fault test_env error_listeners (Some event) s in
  let s' := out.1.2 in
  let handled := strip_metadata event in
  ∃ before own sweep,
    out.2 = before ++ Emit "handled" handled :: own ++ sweep ∧
    out.1.1 = Returns () ∧
    (∀ e, e ∈ before → ¬ is_settlement e) ∧
    own = match _waitingFor s !! v with
          | Some o => [settle o handled]
          | None => []
          end ∧
    _waitingFor s' !! v = None ∧
    (_maxWaitingFor s ≤ v →
       _waitingFor s' = ∅ ∧
       ∀ w o, w ≠ v → _waitingFor s !! w = Some o →
         (∀ ev, queue s !! w = Some ev → settle o ev ∈ sweep) ∧
         (queue s !! w = None → Unhandled (TypeError "error") ∈ sweep)) ∧
    (v < _maxWaitingFor s →
       sweep = [] ∧
       ∀ w, w ≠ v → _waitingFor s' !! w = _waitingFor s !! w).
Proof.
  intros Hv Hne out s' handled.
  destruct (handleResult_run event v s Hv Hne)
    as (ra & s1 & t1 & s2 & t3 & Ha & Ht & Hrun).
  subst out s'. rewrite Hrun. simpl.
  pose proof (applyEvent_frame event s ra s1 t1 Ha)
    as (Hw & Hmax & _ & _ & _ & _ & _ & _ & Hq).
  destruct (triggerWaitingEvent_run handled v s1)
    as (s2' & Ht' & Hw2 & _ & _ & _);
    [by unfold handled; rewrite strip_metadata_v|].
  fold handled in Ht. rewrite Ht in Ht'. injection Ht' as <- ->.
  rewrite Hw, Hmax in *.
  exists (t1 ++ apply_log ra
            ++ (if truthy (ev_error handled) then
                  if bool_decide (error_listeners ≠ 0%nat)
                  then [Emit "error" handled] else []
                else [Emit "result" handled])),
    (match _waitingFor s !! v with
     | Some o => [settle o handled]
     | None => []
     end),
    (if bool_decide (_maxWaitingFor s ≤ v)
     then sweep_one (queue s1) <$> entries (delete v (_waitingFor s))
     else []).
  split_and!.
  - unfold emitted. fold handled. rewrite <- !app_assoc. done.
  - done.
  - intros e. rewrite !elem_of_app. intros [He | [He | He]] Hs.
    + by eapply applyEvent_no_settlement.
    + destruct ra; simpl in He; [by apply not_elem_of_nil in He|].
      by apply list_elem_of_singleton in He as ->.
    + destruct (truthy (ev_error handled));
        [destruct (bool_decide (error_listeners ≠ 0%nat))|].
      * by apply list_elem_of_singleton in He as ->.
      * by apply not_elem_of_nil in He.
      * by apply list_elem_of_singleton in He as ->.
  - done.
  - rewrite Hw2. case_bool_decide; [done | apply lookup_delete_eq].
  - intros Hge. rewrite Hw2, !bool_decide_eq_true_2 by done.
    split; [done|]. intros w o Hwv Hwo.
    assert (Hin : (w, o) ∈ entries (delete v (_waitingFor s))).
    { apply elem_of_entries. by rewrite lookup_delete_ne. }
    assert (Hrow : queue s1 !! w = queue s !! w).
    { apply Hq. rewrite Hv. congruence. }
    split.
    + intros ev Hev. apply list_elem_of_fmap. exists (w, o).
      split; [|done]. unfold sweep_one, queue_get. simpl.
      by rewrite Hrow, Hev.
    + intros Hev. apply list_elem_of_fmap. exists (w, o).
      split; [|done]. unfold sweep_one, queue_get. simpl.
      by rewrite Hrow, Hev.
  - intros Hlt. rewrite Hw2, !bool_decide_eq_false_2 by lia.
    split; [done|]. intros w Hwv. by rewrite lookup_delete_ne.
Qed.

(** ** A failing apply phase *)

(** When the [try] block fails before any deriver has run, the applied
    version is what it was, and the queue row is written exactly when
    [queue.set], the first write, went through. *)
Lemma applyEvent_try_failed (event : Event) (s s' : ESDB) (e : Err)
    (t : list Effect) :
  applyEvent_try models fault event s = (Throws e, s', t) →
  (∀ x, x ∈ t → ¬ is_deriver x) →
  meta (store s') = meta (store s) ∧
  match ev_result event, fault (writes s) with
  | Some _, None => queue s' = queue_put (strip_metadata event) (queue s)
  | _, _ => queue s' = queue s
  end.
Proof.
  unfold applyEvent_try, strip_metadata.
  destruct (ev_result event) as [result0|];
    [|intros [= <- <- <-] _; by destruct (fault (writes s))].
  set (metadata := Obj.get "metadata" result0).
  set (result := Obj.remove "metadata" result0).
  set (event' := with_result event result).
  intros H Hnd.
  apply act_bind_inv in H
    as [(e' & H & _) | ([] & s1 & t1 & t2 & H1 & H & ->)].
  { rewrite queue_set_run in H.
    destruct (fault (writes s)); by simplify_eq. }
  rewrite queue_set_run in H1.
  destruct (fault (writes s)); [done|]. injection H1 as <- <-.
  assert (Hgoal : meta (store s') = meta (store s) ∧
                  queue s' = queue_put event' (queue s)); [|done].
  apply act_bind_inv in H
    as [(e' & H & _) | (ps & s2 & t3 & t4 & H2 & H & ->)].
  { by apply reducer_calls_keep in H as [-> ->]. }
  apply reducer_calls_keep in H2 as [Hm2 Hq2]. simpl in Hm2, Hq2.
  apply act_bind_inv in H
    as [(e' & H & _) | ([] & s3 & t5 & t6 & H3 & H & ->)].
  { apply Promise_all_trace in H as [_ ->]. by rewrite Hm2, Hq2. }
  apply Promise_all_trace in H3 as [_ ->].
  apply act_bind_inv in H
    as [(e' & H & _) | ([] & s4 & t7 & t8 & H4 & H & ->)].
  { rewrite metadata_applyChanges_run in H.
    destruct (fault (writes s2)); [|done]. simplify_eq.
    simpl. by rewrite Hm2, Hq2. }
  exfalso.
  destruct (deriver_calls_trace event' result (hooks models m_deriver) s4)
    as (ps' & s5 & Hd).
  apply act_bind_inv in H
    as [(e' & H & _) | (ps'' & s6 & t9 & t10 & H5 & H & ->)].
  { rewrite Hd in H. done. }
  rewrite Hd in H5. injection H5 as <- <- <-.
  destruct (hooks models m_deriver) as [|nd l] eqn:Hhooks.
  - simpl in Hd. injection Hd as <- <-. simpl in H. done.
  - apply (Hnd (RunDeriver nd.1 event' result)); [|done].
    rewrite !elem_of_app. do 4 right. left. simpl. by left.
Qed.

(** [getNext] returns the row with the least version above [afterV]. *)
Lemma first_entry_Some (l : list (Z * Event)) (kv : Z * Event) :
  first_entry l = Some kv →
  kv ∈ l ∧ ∀ kv', kv' ∈ l → kv.1 ≤ kv'.1.
Proof.
  revert kv. induction l as [|x l IH]; intros kv; simpl; [done|].
  destruct (first_entry l) as [kv'|] eqn:Hl.
  - destruct (IH kv' eq_refl) as [Hin Hmin].
    case_bool_decide as Hle; intros [= <-].
    + split; [by left|]. intros y [->|Hy]%elem_of_cons; [lia|].
      specialize (Hmin y Hy). lia.
    + split; [by right|]. intros y [->|Hy]%elem_of_cons; [lia|].
      by apply Hmin.
  - intros [= <-]. split; [by left|].
    destruct l as [|y l]; [|simpl in Hl; by destruct (first_entry l);
                             try case_bool_decide].
    intros y [->|Hy]%elem_of_cons; [lia|]. by apply not_elem_of_nil in Hy.
Qed.

Lemma first_entry_is_Some (l : list (Z * Event)) :
  l ≠ [] → is_Some (first_entry l).
Proof.
  destruct l as [|x l]; [done|]. intros _. simpl.
  destruct (first_entry l); [case_bool_decide|]; by eexists.
Qed.

Lemma getNext_Some (q : gmap Z Event) (afterV : Z) (event : Event) :
  getNext q afterV = Some event →
  ∃ k, q !! k = Some event ∧ afterV < k ∧
       ∀ k' e', q !! k' = Some e' → afterV < k' → k ≤ k'.
Proof.
  unfold getNext.
  destruct (first_entry _) as [[k e]|] eqn:Hf; [|done].
  intros [= <-]. apply first_entry_Some in Hf as [Hin Hmin].
  apply list_elem_of_filter in Hin as [Hk Hin]. simpl in Hk.
  apply elem_of_map_to_list in Hin.
  exists k. split_and!; [done | done |].
  intros k' e' Hq Hk'. apply (Hmin (k', e')).
  apply list_elem_of_filter. split; [done|]. by apply elem_of_map_to_list.
Qed.

Lemma getNext_is_Some (q : gmap Z Event) (afterV k : Z) (event : Event) :
  q !! k = Some event → afterV < k → is_Some (getNext q afterV).
Proof.
  intros Hq Hk. unfold getNext.
  destruct (first_entry_is_Some
              (filter (λ kv : Z * Event, afterV < kv.1) (map_to_list q)))
    as [kv ->]; [|by eexists].
  intros Hnil.
  assert (Hin : (k, event) ∈ filter (λ kv : Z * Event, afterV < kv.1)
                                (map_to_list q)).
  { apply list_elem_of_filter. split; [done|]. by apply elem_of_map_to_list. }
  rewrite Hnil in Hin. by apply not_elem_of_nil in Hin.
Qed.

(** If [getNext] gave version [v] and all that has happened to the queue
    since is a write to the row of [v], [getNext] gives [v] again. *)
Lemma getNext_again (q q' : gmap Z Event) (afterV v : Z)
    (event written : Event) :
  map_Forall (λ k e, ev_v e = Some k) q →
  getNext q afterV = Some event → ev_v event = Some v →
  ev_v written = Some v →
  q' = q ∨ q' = <[v := written]> q →
  ∃ again, getNext q' afterV = Some again ∧ ev_v again = Some v
           ∧ q' !! v = Some again.
Proof.
  intros Hwf Hnext Hv Hwv Hq'.
  apply getNext_Some in Hnext as (k & Hk & Hlt & Hmin).
  assert (k = v) as ->.
  { apply Hwf in Hk. congruence. }
  assert (Hrow : ∃ x, q' !! v = Some x ∧ ev_v x = Some v).
  { destruct Hq' as [-> | ->]; [by exists event|].
    exists written. by rewrite lookup_insert_eq. }
  destruct Hrow as (x & Hx & Hxv).
  destruct (getNext_is_Some q' afterV v x Hx Hlt) as [again Hagain].
  exists again. split; [done|].
  apply getNext_Some in Hagain as (k' & Hk' & Hlt' & Hmin').
  assert (k' = v) as ->.
  { apply Z.le_antisymm; [by eapply Hmin'|].
    destruct (decide (k' = v)) as [->|Hne]; [lia|].
    assert (q !! k' = Some again) as Hqk.
    { destruct Hq' as [-> | ->]; [done|]. by rewrite lookup_insert_ne in Hk'. }
    by eapply Hmin. }
  rewrite Hx in Hk'. injection Hk' as <-. done.
Qed.

Lemma applyEvent_failed_inv (event : Event) (s s' : ESDB) (err : Err)
    (t : list Effect) :
  applyEvent models fault test_env event s = (Throws err, s', t) →
  ∃ t0, applyEvent_try models fault event s = (Throws err, s', t0) ∧
        t = t0 ++ (if test_env then []
                   else [ConsoleError "SEVERE DB ERROR" err]).
Proof.
  unfold applyEvent. intros H.
  apply catch_inv in H as [(x & _ & ?) | (e & s1 & t1 & t2 & H1 & H & ->)];
    [done|].
  exists t1.
  destruct test_env; unfold act_bind, act_ret, effect, throw in H;
    simpl in H; by simplify_eq.
Qed.

(** C4, as the code has it. Let the loop have picked version [v] and
    let the apply phase of its event fail before any deriver has run.
    [applyEvent] logs the failure as severe (outside the test
    environment) and throws it on; [handleResult] catches it, logs it
    and carries on: it emits, and it settles the waiter of [v] as for an
    applied event. The applied version is not advanced, so the next
    [getNext] returns version [v] again and the loop retries it. The row
    of [v] is left as it was only when [queue.set] itself failed;
    otherwise it already carries the result. *)
Theorem apply_failure_is_retried (event picked : Event) (v : Z) (s : ESDB)
    (err : Err) :
  map_Forall (λ k e, ev_v e = Some k) (queue s) →
  getNext (queue s) (getVersion s) = Some picked →
  ev_v picked = Some v →
  ev_v event = Some v → v ≠ 0 →
  let applied := applyEvent models fault test_env event s in
  applied.1.1 = Throws err →
  (∀ e, e ∈ applied.2 → ¬ is_deriver e) →
  let out := handleResult models fault test_env error_listeners (Some event) s in
  let s' := out.1.2 in
  (test_env = false → ConsoleError "SEVERE DB ERROR" err ∈ applied.2) ∧
  out.1.1 = Returns () ∧
  ConsoleError "!!! Error while applying event; changes not applied" err
    ∈ out.2 ∧
  Emit "handled" (strip_metadata event) ∈ out.2 ∧
  (∀ o, _waitingFor s !! v = Some o →
     settle o (strip_metadata event) ∈ out.2) ∧
  getVersion s' = getVersion s ∧
  (∃ again, getNext (queue s') (getVersion s') = Some again
            ∧ ev_v again = Some v) ∧
  (is_Some (ev_result event) → fault (writes s) = None →
     queue s' !! v = Some (strip_metadata event)) ∧
  (is_Some (fault (writes s)) → queue s' = queue s).
Proof.
  intros Hwf Hnext Hpv Hv Hne applied Hfail Hnd out s'.
  destruct (handleResult_run event v s Hv Hne)
    as (ra & s1 & t1 & s2 & t3 & Ha & Ht & Hrun).
  subst applied out s'. rewrite Ha in Hfail, Hnd. rewrite Hrun, Ha.
  simpl in *. subst ra.
  apply applyEvent_failed_inv in Ha as Hinv. destruct Hinv as (t0 & Htry & ->).
  apply applyEvent_try_failed in Htry as [Hmeta Hqueue].
  2:{ intros x Hx. apply Hnd, elem_of_app. by left. }
  pose proof (applyEvent_frame event s _ s1 _ Ha) as (Hw & _).
  destruct (triggerWaitingEvent_run (strip_metadata event) v s1)
    as (s2' & Ht' & _ & Hq2 & Hst2 & _); [by rewrite strip_metadata_v|].
  rewrite Ht in Ht'. injection Ht' as <- ->.
  assert (Hver : getVersion s2 = getVersion s).
  { unfold getVersion. by rewrite Hst2, Hmeta. }
  assert (Hput : queue_put (strip_metadata event) (queue s)
                 = <[v := strip_metadata event]> (queue s)).
  { unfold queue_put. by rewrite strip_metadata_v, Hv. }
  split_and!.
  - intros Htest. rewrite Htest. rewrite elem_of_app. right. by left.
  - done.
  - rewrite !elem_of_app. right. left. by left.
  - rewrite !elem_of_app. right. right. left. unfold emitted.
    apply elem_of_app. right. by left.
  - intros o Ho. rewrite !elem_of_app. do 3 right.
    rewrite Hw, Ho. left. by left.
  - done.
  - rewrite Hver, Hq2.
    destruct (getNext_again (queue s) (queue s1) (getVersion s) v picked
                (strip_metadata event)) as (again & ? & ? & _);
      try done; [by rewrite strip_metadata_v | | by exists again].
    destruct (ev_result event), (fault (writes s)); rewrite <- ?Hput; auto.
  - intros [result Hres] Hok. rewrite Hq2. rewrite Hres, Hok in Hqueue.
    rewrite Hqueue, Hput. apply lookup_insert_eq.
  - intros [e He]. rewrite Hq2. rewrite He in Hqueue.
    by destruct (ev_result event).
Qed.

(** ** Polling *)

(** The callback on the first run starts another run when the run
    returned a version below [minVersion], and clears [_waitingP]
    otherwise. *)
Lemma first_run_then_spec (v : option Z) (s : ESDB) :
  first_run_then v s
  = (Returns (),
     set_waitingP (if v_lt v (minVersion s)
                   then Some (SecondRun (Some 0)) else None) s,
     []).
Proof.
  unfold first_run_then, act_bind, get_state, modify.
  by destruct (v_lt v (minVersion s)).
Qed.

(** An idle turn outside continuous mode returns [lastV]. *)
Lemma _waitForEvent_turn_idle (lastV : option Z) (s : ESDB) :
  getNext (queue s) (getVersion s) = None → _isPolling s = false →
  _waitForEvent_turn models fault test_env error_listeners lastV s
  = (Returns (Return lastV), s, []).
Proof.
  intros Hnext Hpoll.
  unfold _waitForEvent_turn, act_bind, get_state, act_ret.
  by rewrite Hnext, Hpoll.
Qed.

(** When the second run returns, nothing looks at [minVersion] and
    [_waitingP] keeps the settled chain. *)
Lemma second_run_return (lastV : option Z) (s : ESDB) :
  _waitingP s = Some (SecondRun lastV) →
  getNext (queue s) (getVersion s) = None → _isPolling s = false →
  poll_step models fault test_env error_listeners s
  = (Returns (), set_waitingP (Some Settled) s, []).
Proof.
  intros Hp Hnext Hpoll. unfold poll_step, act_bind, get_state, start.
  rewrite Hp. by rewrite _waitForEvent_turn_idle.
Qed.

(** With a settled chain in [_waitingP], no step runs and
    [startPolling] starts none. *)
Lemma settled_chain_stuck (s : ESDB) (n : nat) :
  _waitingP s = Some Settled →
  poll_steps models fault test_env error_listeners n s = (Returns (), s, []).
Proof.
  intros Hp. induction n as [|n IH]; simpl; [done|].
  unfold act_bind. unfold poll_step at 1, act_bind, get_state.
  rewrite Hp. unfold act_ret at 1. by rewrite IH.
Qed.

Lemma settled_chain_startPolling (wantVersion : option Z) (s : ESDB) :
  _waitingP s = Some Settled →
  _waitingP (startPolling wantVersion s) = Some Settled.
Proof.
  intros Hp. unfold startPolling.
  destruct (truthy _); [destruct (bool_decide _)|destruct (negb _)];
    simpl; by rewrite Hp.
Qed.

End Properties.

(** * Closed instances *)

(** C8 fails on the code. A fresh instance over an empty queue: the
    constructor's [checkForEvents()] sets [minVersion] to 1; the first run
    finds nothing and returns 0, so the callback starts a second run; the
    second run returns 0 as well, with [minVersion > 0] still, and no run
    follows it: [_waitingP] keeps the settled chain. An event dispatched
    afterwards gets version 1 and a waiter, [startPolling(1)] starts
    nothing, and however long one waits the event is not handled. *)
Theorem polling_stops_after_second_run (fault : nat → option Err)
    (test_env : bool) (error_listeners n : nat) :
  let s0 := Sample.esdb [] Sample.empty_db ∅ in
  let s2 := (poll_steps [] fault test_env error_listeners 2 s0).1.2 in
  let waiting := dispatch "inc" VNull 0 s2 in
  let s3 := waiting.2 in
  minVersion s0 = 1 ∧ _waitingP s0 = Some (FirstRun (Some 0)) ∧
  _waitingP s2 = Some Settled ∧ getVersion s2 = 0 ∧
  waiting.1 = Pending 0 ∧
  queue s3 !! 1 = Some (Sample.inc 1) ∧
  _waitingFor s3 !! 1 = Some 0%nat ∧
  minVersion s3 = 1 ∧ getVersion s3 = 0 ∧
  poll_steps [] fault test_env error_listeners n s3 = (Returns (), s3, []).
Proof.
  intros s0 s2 waiting s3.
  assert (Hs2 : _waitingP s2 = Some Settled) by (by vm_compute).
  assert (Hs3 : _waitingP s3 = Some Settled) by (by vm_compute).
  split_and!; try by vm_compute.
  by apply settled_chain_stuck.
Qed.


(** ** [handledVersion] *)

(** C2 fails on the code as stated: with a waiter already registered for
    version 5, [handledVersion(5)] returns its promise and does nothing
    else. It does not call [startPolling(5)], which in this state, where
    [_waitingP] is empty, would have started a run. *)
Lemma handledVersion_reuse_starts_no_polling :
  getVersion Sample.stopped < 5 ∧
  _waitingFor Sample.stopped !! 5 = Some 0%nat ∧
  _waitingP Sample.stopped = None ∧
  handledVersion 5 Sample.stopped = (Pending 0, Sample.stopped) ∧
  _waitingP (handledVersion 5 Sample.stopped).2 = None ∧
  _waitingP (startPolling (Some 5) Sample.stopped) = Some (FirstRun (Some 0)).
Proof. vm_compute. repeat split; reflexivity. Qed.

Lemma handledVersion_cases_witness :
  (0 = 0 ∧
   handledVersion 0 Sample.dispatched = (Resolved None, Sample.dispatched)) ∧
  (5 ≠ 0 ∧ getVersion Sample.stopped < 5 ∧
   _waitingFor Sample.stopped !! 5 = Some 0%nat ∧
   handledVersion 5 Sample.stopped = (Pending 0, Sample.stopped)) ∧
  (7 ≠ 0 ∧ getVersion Sample.stopped < 7 ∧
   _waitingFor Sample.stopped !! 7 = None ∧
   (handledVersion 7 Sample.stopped).1 = Pending (promises Sample.stopped) ∧
   _maxWaitingFor (handledVersion 7 Sample.stopped).2 = 7) ∧
  (1 ≠ 0 ∧ 1 ≤ getVersion Sample.stopped ∧
   queue_get (queue Sample.stopped) 1 = Some (Sample.stripped 1) ∧
   (handledVersion 1 Sample.stopped).1 = Resolved (Some (Sample.stripped 1))).
Proof.
  pose proof (handledVersion_cases 0 Sample.dispatched) as (H0 & _).
  pose proof (handledVersion_cases 5 Sample.stopped) as (_ & _ & H5 & _).
  pose proof (handledVersion_cases 7 Sample.stopped) as (_ & _ & _ & H7).
  pose proof (handledVersion_cases 1 Sample.stopped) as (_ & H1 & _).
  assert (E5 : 5 ≠ 0) by lia. assert (E7 : 7 ≠ 0) by lia.
  assert (E1 : 1 ≠ 0) by lia.
  assert (L5 : getVersion Sample.stopped < 5) by (vm_compute; reflexivity).
  assert (L7 : getVersion Sample.stopped < 7) by (vm_compute; reflexivity).
  assert (L1 : 1 ≤ getVersion Sample.stopped) by (vm_compute; discriminate).
  assert (W5 : _waitingFor Sample.stopped !! 5 = Some 0%nat)
    by (vm_compute; reflexivity).
  assert (W7 : _waitingFor Sample.stopped !! 7 = None)
    by (vm_compute; reflexivity).
  assert (Q1 : queue_get (queue Sample.stopped) 1 = Some (Sample.stripped 1))
    by (vm_compute; reflexivity).
  specialize (H0 eq_refl). specialize (H5 E5 L5 _ W5).
  specialize (H7 E7 L7 W7). cbv zeta in H7.
  destruct H7 as (H7a & _ & _ & H7b & _).
  specialize (H1 E1 L1 _ Q1). destruct H1 as (_ & H1 & _).
  split_and!;
    [ reflexivity | exact H0 | exact E5 | exact L5 | exact W5 | exact H5
    | exact E7 | exact L7 | exact W7 | exact H7a | exact H7b
    | exact E1 | exact L1 | exact Q1 | apply H1; vm_compute; reflexivity ].
Defined.

Lemma handledVersion_missing_row_witness :
  0 < 2 ∧ 2 ≤ getVersion Sample.pruned ∧
  queue_get (queue Sample.pruned) 2 = None ∧
  (handledVersion 2 Sample.pruned).1 = Rejected (RErr (TypeError "error")).
Proof.
  assert (H0 : 0 < 2) by lia.
  assert (H1 : 2 ≤ getVersion Sample.pruned) by (vm_compute; discriminate).
  assert (H2 : queue_get (queue Sample.pruned) 2 = None)
    by (vm_compute; reflexivity).
  split_and!; try assumption.
  by apply (handledVersion_missing_row 2 Sample.pruned H0 H1).
Defined.

(** ** [handleResult] without a version *)

Lemma handleResult_without_version_witness :
  (ev_v (mkEvent None "inc" 0 VNull VUndef None) = None
   ∨ ev_v (mkEvent None "inc" 0 VNull VUndef None) = Some 0) ∧
  handleResult Sample.models Sample.no_fault true 0
    (Some (mkEvent None "inc" 0 VNull VUndef None)) Sample.dispatched
  = (Returns (), Sample.dispatched, []).
Proof.
  assert (H : ev_v (mkEvent None "inc" 0 VNull VUndef None) = None
              ∨ ev_v (mkEvent None "inc" 0 VNull VUndef None) = Some 0)
    by (left; reflexivity).
  split; [exact H|].
  exact (handleResult_without_version Sample.models Sample.no_fault true 0
           _ Sample.dispatched H).
Defined.

(** ** Reducer errors *)

Lemma reducer_collects_errors_witness :
  preprocessor Sample.models_strict Sample.empty_db (Sample.inc 1)
  = Returns (Sample.inc 1) ∧
  truthy (ev_error (Sample.inc 1)) = false ∧
  (∃ name r,
     name ∈ reducerNames Sample.models_strict ∧
     Obj.get name (modelReducer Sample.models_strict Sample.empty_db (Sample.inc 1))
     = Some r ∧ truthy (rerror r) = true) ∧
  ∃ error metadata,
    reducer Sample.models_strict Sample.empty_db (Sample.inc 1)
    = Returns (with_error
                 (with_result (Sample.inc 1) [("metadata", metadata)])
                 (VObj error)) ∧
    Obj.get "strict" error = Some (VStr "nope") ∧
    Obj.get "counter" error = None.
Proof.
  assert (H1 : preprocessor Sample.models_strict Sample.empty_db (Sample.inc 1)
               = Returns (Sample.inc 1)) by reflexivity.
  assert (H2 : truthy (ev_error (Sample.inc 1)) = false) by reflexivity.
  assert (H3 : ∃ name r,
             name ∈ reducerNames Sample.models_strict ∧
             Obj.get name (modelReducer Sample.models_strict Sample.empty_db
                             (Sample.inc 1)) = Some r
             ∧ truthy (rerror r) = true).
  { exists "strict", (RChange [("error", VStr "nope")]).
    split; [|split; reflexivity].
    vm_compute. apply list_elem_of_In. simpl. tauto. }
  split; [exact H1|]. split; [exact H2|]. split; [exact H3|].
  destruct (reducer_collects_errors Sample.models_strict Sample.empty_db
              (Sample.inc 1) (Sample.inc 1) H1 H2 H3)
    as (error & metadata & Hred & _ & _ & Herr & _).
  exists error, metadata. split; [exact Hred|]. split.
  - apply Herr. split.
    + vm_compute. apply list_elem_of_In. simpl. tauto.
    + exists (RChange [("error", VStr "nope")]). repeat split.
  - destruct (Obj.get "counter" error) as [e|] eqn:He; [|reflexivity].
    apply Herr in He as (_ & r & Hr & Ht & _).
    vm_compute in Hr. injection Hr as <-. discriminate.
Defined.

(** ** Preprocessor errors *)

(** C6 fails on the code as stated: this preprocessor returns
    [{error: 'bad'}], as in scenario S6. The new event does not retain [v]
    and has no [type], and it carries an [error]. The outcome has the error
    under the model name and no [_preprocess] entry: the [error] field is
    looked at first. *)
Lemma preprocessor_error_field_wins :
  Sample.refuse (Sample.inc 1) None Sample.empty_db
  = Returns (Sample.inc 1, Some (mkEvent None "" 0 VUndef (VStr "bad") None)) ∧
  ev_v (Sample.inc 1) = Some 1 ∧
  ev_v (mkEvent None "" 0 VUndef (VStr "bad") None) = None ∧
  ev_type (mkEvent None "" 0 VUndef (VStr "bad") None) = "" ∧
  preprocessor Sample.models_refuse Sample.empty_db (Sample.inc 1)
  = Returns (with_error (Sample.inc 1) (VObj [("guard", VStr "bad")])) ∧
  prop "_preprocess" (VObj [("guard", VStr "bad")]) = VUndef.
Proof. repeat split. Qed.

Lemma preprocessor_errors_witness :
  hooks Sample.models_renumber m_preprocessor
  = [] ++ ("guard", Sample.renumber) :: [] ∧
  passes [] Sample.empty_db (Sample.inc 1) (Sample.inc 1) ∧
  Sample.renumber (Sample.inc 1) (tables Sample.empty_db !! "guard")
    Sample.empty_db
  = Returns (Sample.inc 1,
             Some (mkEvent (Some 2) "inc" 0 VNull VUndef None)) ∧
  truthy (ev_error (mkEvent (Some 2) "inc" 0 VNull VUndef None)) = false ∧
  ev_v (mkEvent (Some 2) "inc" 0 VNull VUndef None) ≠ ev_v (Sample.inc 1) ∧
  preprocessor Sample.models_renumber Sample.empty_db (Sample.inc 1)
  = Returns (with_error (Sample.inc 1)
               (VObj [("_preprocess",
                       VObj [("message",
                              VStr "guard: preprocessor must retain event version")])])).
Proof.
  assert (H1 : hooks Sample.models_renumber m_preprocessor
               = [] ++ ("guard", Sample.renumber) :: []) by reflexivity.
  assert (H2 : passes [] Sample.empty_db (Sample.inc 1) (Sample.inc 1))
    by constructor.
  assert (H3 : Sample.renumber (Sample.inc 1)
                 (tables Sample.empty_db !! "guard") Sample.empty_db
               = Returns (Sample.inc 1,
                          Some (mkEvent (Some 2) "inc" 0 VNull VUndef None)))
    by reflexivity.
  assert (H4 : truthy (ev_error (mkEvent (Some 2) "inc" 0 VNull VUndef None))
               = false) by reflexivity.
  assert (H5 : ev_v (mkEvent (Some 2) "inc" 0 VNull VUndef None)
               ≠ ev_v (Sample.inc 1)) by discriminate.
  split_and!; [exact H1 | exact H2 | exact H3 | exact H4 | exact H5 |].
  pose proof (preprocessor_errors Sample.models_renumber [] [] "guard"
                Sample.renumber Sample.empty_db (Sample.inc 1) (Sample.inc 1)
                (Sample.inc 1) _ H1 H2 H3) as H.
  cbv zeta in H. destruct H as (_ & H & _).
  destruct (H H4 H5) as [Hp _]. exact Hp.
Defined.

(** ** Waiters *)

(** C7 fails on the code as stated: event 5 is handled while waiters for
    versions 3 and 10 are registered. Version 5 is below [_maxWaitingFor],
    so there is no sweep: the waiter of 3, a version at most 5 whose row
    the queue holds, is neither settled nor removed. *)
Lemma waiter_below_max_not_swept :
  let out := handleResult Sample.models Sample.no_fault true 0
               (Some (Sample.reduced 5)) Sample.raced in
  _waitingFor Sample.raced !! 3 = Some 1%nat ∧
  queue Sample.raced !! 3 = Some (Sample.stripped 3) ∧
  _maxWaitingFor Sample.raced = 10 ∧
  out.1.1 = Returns () ∧
  out.2 = [QueueSet (Sample.stripped 5);
           ApplyChanges "counter" (Some (RChange [("ins", Sample.inc_rows)]));
           ApplyChanges "metadata" (Some (version_change 5));
           Emit "result" (Sample.stripped 5);
           Emit "handled" (Sample.stripped 5)] ∧
  getVersion out.1.2 = 5 ∧
  _waitingFor out.1.2 !! 3 = Some 1%nat.
Proof. vm_compute. repeat split; reflexivity. Qed.

Lemma handleResult_waiters_witness :
  let out := handleResult Sample.models Sample.no_fault true 0
               (Some (Sample.reduced 1)) Sample.dispatched in
  ev_v (Sample.reduced 1) = Some 1 ∧ 1 ≠ 0 ∧
  _waitingFor Sample.dispatched !! 1 = Some 0%nat ∧
  _maxWaitingFor Sample.dispatched ≤ 1 ∧
  Resolve 0 (Sample.stripped 1) ∈ out.2 ∧
  _waitingFor out.1.2 = ∅.
Proof.
  cbv zeta.
  assert (H1 : ev_v (Sample.reduced 1) = Some 1) by reflexivity.
  assert (H2 : 1 ≠ 0) by lia.
  assert (H3 : _waitingFor Sample.dispatched !! 1 = Some 0%nat)
    by (vm_compute; reflexivity).
  assert (H4 : _maxWaitingFor Sample.dispatched ≤ 1)
    by (vm_compute; discriminate).
  split_and!; [exact H1 | exact H2 | exact H3 | exact H4 | |].
  - pose proof (handleResult_waiters Sample.models Sample.no_fault true 0
                  (Sample.reduced 1) 1 Sample.dispatched H1 H2) as H.
    cbv zeta in H.
    destruct H as (before & own & sweep & -> & _ & _ & -> & _).
    rewrite H3. apply elem_of_app. right. right. left.
  - pose proof (handleResult_waiters Sample.models Sample.no_fault true 0
                  (Sample.reduced 1) 1 Sample.dispatched H1 H2) as H.
    cbv zeta in H.
    destruct H as (before & own & sweep & _ & _ & _ & _ & _ & H & _).
    exact (proj1 (H H4)).
Defined.

(** ** A failing apply phase *)

(** C4 fails on the code as stated: the write of the counter table, the
    second write of the apply phase, fails. [queue.set] has gone through
    already, so the row of event 1 carries the result; the applied version
    stays 0; and [handleResult] goes on to emit [result] and [handled] and
    to resolve the waiter of version 1. *)
Lemma failed_apply_resolves_waiter :
  let out := poll_step Sample.models (Sample.fault_at 1) false 0
               Sample.dispatched in
  _waitingFor Sample.dispatched !! 1 = Some 0%nat ∧
  queue Sample.dispatched !! 1 = Some (Sample.inc 1) ∧
  out.2 = [QueueSet (Sample.stripped 1);
           ApplyChanges "counter" (Some (RChange [("ins", Sample.inc_rows)]));
           ConsoleError "SEVERE DB ERROR" Sample.io_error;
           ConsoleError "!!! Error while applying event; changes not applied"
             Sample.io_error;
           Emit "result" (Sample.stripped 1);
           Emit "handled" (Sample.stripped 1);
           Resolve 0 (Sample.stripped 1)] ∧
  getVersion out.1.2 = 0 ∧
  tables (store out.1.2) !! "counter" = Some [] ∧
  queue out.1.2 !! 1 = Some (Sample.stripped 1) ∧
  _waitingFor out.1.2 = ∅.
Proof. vm_compute. repeat split; reflexivity. Qed.

Lemma apply_failure_is_retried_witness :
  let applied := applyEvent Sample.models (Sample.fault_at 1) false
                   (Sample.reduced 1) Sample.dispatched in
  let out := handleResult Sample.models (Sample.fault_at 1) false 0
               (Some (Sample.reduced 1)) Sample.dispatched in
  map_Forall (λ k e, ev_v e = Some k) (queue Sample.dispatched) ∧
  getNext (queue Sample.dispatched) (getVersion Sample.dispatched)
  = Some (Sample.inc 1) ∧
  ev_v (Sample.inc 1) = Some 1 ∧ ev_v (Sample.reduced 1) = Some 1 ∧ 1 ≠ 0 ∧
  applied.1.1 = Throws Sample.io_error ∧
  (∀ e, e ∈ applied.2 → ¬ is_deriver e) ∧
  getVersion out.1.2 = getVersion Sample.dispatched ∧
  ∃ again, getNext (queue out.1.2) (getVersion out.1.2) = Some again
           ∧ ev_v again = Some 1.
Proof.
  cbv zeta.
  assert (H1 : map_Forall (λ k e, ev_v e = Some k) (queue Sample.dispatched)).
  { intros k e Hk. change (queue Sample.dispatched)
      with (<[1 := Sample.inc 1]> (∅ : gmap Z Event)) in Hk.
    apply lookup_insert_Some in Hk as [[<- <-] | [_ Hk]]; [reflexivity|].
    by rewrite lookup_empty in Hk. }
  assert (H2 : getNext (queue Sample.dispatched) (getVersion Sample.dispatched)
               = Some (Sample.inc 1)) by (vm_compute; reflexivity).
  assert (H3 : ev_v (Sample.inc 1) = Some 1) by reflexivity.
  assert (H4 : ev_v (Sample.reduced 1) = Some 1) by reflexivity.
  assert (H5 : 1 ≠ 0) by lia.
  assert (H6 : (applyEvent Sample.models (Sample.fault_at 1) false
                  (Sample.reduced 1) Sample.dispatched).1.1
               = Throws Sample.io_error) by (vm_compute; reflexivity).
  assert (H7 : ∀ e, e ∈ (applyEvent Sample.models (Sample.fault_at 1) false
                           (Sample.reduced 1) Sample.dispatched).2
                    → ¬ is_deriver e).
  { intros e He Hd.
    assert (Ht : (applyEvent Sample.models (Sample.fault_at 1) false
                    (Sample.reduced 1) Sample.dispatched).2
                 = [QueueSet (Sample.stripped 1);
                    ApplyChanges "counter"
                      (Some (RChange [("ins", Sample.inc_rows)]));
                    ConsoleError "SEVERE DB ERROR" Sample.io_error])
      by (vm_compute; reflexivity).
    rewrite Ht in He.
    repeat (apply elem_of_cons in He as [-> | He]; [exact Hd|]).
    by apply not_elem_of_nil in He. }
  pose proof (apply_failure_is_retried Sample.models (Sample.fault_at 1) false 0
                (Sample.reduced 1) (Sample.inc 1) 1 Sample.dispatched
                Sample.io_error H1 H2 H3 H4 H5 H6 H7) as H.
  cbv zeta in H. destruct H as (_ & _ & _ & _ & _ & Hver & Hagain & _).
  split_and!; [exact H1 | exact H2 | exact H3 | exact H4 | exact H5 | exact H6
              | exact H7 | exact Hver | exact Hagain].
Defined.

(** ** The scenarios of the specification *)

(** Scenario S5: three [inc] events are dispatched and handled; the counter
    table holds three rows, the applied version is 3 and the third caller's
    promise is resolved. *)
Example counter_handles_three_events :
  let s := Sample.esdb Sample.models Sample.empty_db ∅ in
  let s := (dispatch "inc" VNull 0 s).2 in
  let s := (dispatch "inc" VNull 0 s).2 in
  let waiting := dispatch "inc" VNull 0 s in
  let out := poll_steps Sample.models Sample.no_fault true 0 4 waiting.2 in
  waiting.1 = Pending 2 ∧
  out.1.1 = Returns () ∧
  tables (store out.1.2) !! "counter"
  = Some [VObj [("n", VNum 1)]; VObj [("n", VNum 1)]; VObj [("n", VNum 1)]] ∧
  getVersion out.1.2 = 3 ∧
  last out.2 = Some (Resolve 2 (Sample.stripped 3)) ∧
  _waitingFor out.1.2 = ∅ ∧
  _waitingP out.1.2 = None.
Proof. vm_compute. repeat split; reflexivity. Qed.

(** Scenario S6: a preprocessor returns an event with [error: "bad"]; the
    caller's promise is rejected with the event, the applied version still
    advances, and the queue row carries the error under the model name. *)
Example preprocessor_error_is_recorded :
  let s := Sample.esdb Sample.models_refuse Sample.empty_db ∅ in
  let waiting := dispatch "inc" VNull 0 s in
  let out := poll_steps Sample.models_refuse Sample.no_fault true 0 2 waiting.2 in
  let failed :=
    mkEvent (Some 1) "inc" 0 VNull (VObj [("guard", VStr "bad")]) (Some []) in
  waiting.1 = Pending 0 ∧
  last out.2 = Some (Reject 0 (REvent failed)) ∧
  getVersion out.1.2 = 1 ∧
  queue out.1.2 !! 1 = Some failed.
Proof. vm_compute. repeat split; reflexivity. Qed.

(** * Further properties of the pipeline *)

Section Coverage.

Variable models : list (string * ModelDef).
Variable fault : nat → option Err.
Variable test_env : bool.
Variable error_listeners : nat.

(** ** The reducer *)

Lemma Obj_get_remove_other {A : Type} (k k' : string) (o : list (string * A)) :
  k ≠ k' → Obj.get k (Obj.remove k' o) = Obj.get k o.
Proof.
  intros Hne. induction o as [|[k'' x] o IH]; simpl; [done|].
  destruct (String.eqb k' k'') eqn:E1.
  - apply String.eqb_eq in E1 as <-.
    apply String.eqb_neq in Hne as ->. done.
  - simpl. by rewrite IH.
Qed.

(** What is left of an entry once the no-change entries of [names] are
    dropped. *)
Lemma drop_unchanged_get (names : list string) (result : list (string * ROut))
    (k : string) :
  Obj.get k (drop_unchanged names result)
  = match Obj.get k result with
    | Some r => if bool_decide (k ∈ names) && is_unchanged r then None
                else Some r
    | None => None
    end.
Proof.
  revert result. induction names as [|n names IH]; intros result; simpl.
  - by destruct (Obj.get k result).
  - rewrite IH. clear IH.
    destruct (decide (k = n)) as [->|Hne].
    + destruct (Obj.get n result) as [[o| |]|] eqn:Hn.
      * rewrite Hn. simpl. by rewrite !andb_false_r.
      * rewrite (Obj_get_remove n result).
        by rewrite bool_decide_eq_true_2 by by left.
      * rewrite (Obj_get_remove n result).
        by rewrite bool_decide_eq_true_2 by by left.
      * by rewrite Hn.
    + assert (Hk : Obj.get k
                     match Obj.get n result with
                     | Some RFalse | Some RModel => Obj.remove n result
                     | _ => result
                     end = Obj.get k result).
      { destruct (Obj.get n result) as [[o| |]|]; try done;
          by apply Obj_get_remove_other. }
      rewrite Hk. destruct (Obj.get k result) as [r|]; [|done].
      destruct (decide (k ∈ names)) as [Hin|Hin].
      * rewrite !bool_decide_eq_true_2; [done | by right | done].
      * rewrite !bool_decide_eq_false_2; [done | | done].
        by intros [?|?]%elem_of_cons.
Qed.

Lemma some_error_false (result : list (string * ROut)) (names : list string) :
  (∀ n, n ∈ names → n ∈ result.*1) →
  (∀ n r, n ∈ names → Obj.get n result = Some r → truthy (rerror r) = false) →
  some_error result names = Returns false.
Proof.
  intros Hin Hno.
  destruct (some_error_spec result names Hin) as (b & -> & Hb).
  destruct b; [|done].
  destruct (proj1 Hb eq_refl) as (n & r & Hn & Hr & Ht).
  rewrite (Hno n r Hn Hr) in Ht. done.
Qed.

(** X1. When preprocessing leaves no error and no composed reducer
    reports one, [reducer] returns the preprocessed event with a [result]
    that holds every entry of the composed output except the ones whose
    reducer returned [false] or the model itself; no [error] is added. *)
Theorem reducer_drops_unchanged (store : Store) (event reduced : Event) :
  preprocessor models store event = Returns reduced →
  truthy (ev_error reduced) = false →
  let result := modelReducer models store reduced in
  (∀ name r, name ∈ reducerNames models → Obj.get name result = Some r →
             truthy (rerror r) = false) →
  ∃ kept,
    reducer models store event = Returns (with_result reduced kept) ∧
    ∀ name,
      Obj.get name kept
      = match Obj.get name result with
        | Some r => if is_unchanged r then None else Some r
        | None => None
        end.
Proof.
  intros Hp Hne result Hno.
  assert (Hnames : result.*1 = reducerNames models)
    by apply modelReducer_names.
  exists (drop_unchanged (reducerNames models) result). split.
  - unfold reducer. rewrite Hp. simpl. rewrite Hne. fold result.
    rewrite some_error_false; [done | by rewrite Hnames | done].
  - intros name. rewrite drop_unchanged_get.
    destruct (Obj.get name result) as [r|] eqn:Hr; [|done].
    rewrite bool_decide_eq_true_2; [done|].
    rewrite <- Hnames. apply list_elem_of_fmap.
    clear -Hr. induction result as [|[k x] result IH]; simpl in *; [done|].
    destruct (String.eqb name k) eqn:E.
    + apply String.eqb_eq in E as ->. exists (k, x). split; [done | by left].
    + destruct (IH Hr) as (y & Hy & Hin). exists y. split; [done | by right].
Qed.

Lemma metadata_reducer_v (model : option MetaTable) (a b : Event) :
  ev_v a = ev_v b → metadata.reducer model a = metadata.reducer model b.
Proof. intros H. unfold metadata.reducer. by rewrite H. Qed.

Lemma metadata_reducer_changes (tbl : MetaTable) (event : Event) :
  is_unchanged (metadata.reducer (Some tbl) event) = false.
Proof. unfold metadata.reducer. by case_bool_decide. Qed.

Lemma modelReducer_metadata (store : Store) (event : Event) :
  "metadata" ∉ models.*1 →
  Obj.get "metadata" (modelReducer models store event)
  = Some (metadata.reducer (Some (meta store)) event).
Proof.
  intros Hres. unfold modelReducer, combineReducers.
  rewrite Obj_get_app_notin; [done|].
  rewrite hooks_names by done. intros H. by apply hooks_subset in H.
Qed.

(** What [reducer] returns, on each of its three ways out: the
    preprocessed event under the same [v], with a [result] that has the
    metadata entry. *)
Lemma reducer_inv (store : Store) (event out : Event) :
  reducer models store event = Returns out →
  ∃ reduced result,
    preprocessor models store event = Returns reduced ∧
    ev_v out = ev_v reduced ∧
    ev_result out = Some result ∧
    ("metadata" ∉ models.*1 →
     Obj.get "metadata" result
     = Some (metadata.reducer (Some (meta store)) reduced)).
Proof.
  unfold reducer.
  destruct (preprocessor models store event) as [reduced|e] eqn:Hp; [|done].
  simpl. destruct (truthy (ev_error reduced)) eqn:Herr.
  { intros [= <-]. by exists reduced, [("metadata", metadata.reducer (Some (meta store)) reduced)]. }
  set (result := modelReducer models store reduced).
  assert (Hnames : ∀ n, n ∈ reducerNames models → n ∈ result.*1).
  { intros n. unfold result. by rewrite modelReducer_names. }
  destruct (some_error_spec result (reducerNames models) Hnames)
    as (b & -> & _).
  simpl. destruct b.
  - destruct (collect_errors_spec result (reducerNames models) [] Hnames)
      as (error & -> & _).
    simpl. intros [= <-]. exists reduced, (only_metadata result).
    split_and!; try done.
    intros Hres. unfold only_metadata, result.
    by rewrite modelReducer_metadata.
  - intros [= <-].
    exists reduced, (drop_unchanged (reducerNames models) result).
    split_and!; try done.
    intros Hres. rewrite drop_unchanged_get. unfold result.
    rewrite modelReducer_metadata by done.
    by rewrite metadata_reducer_changes, andb_false_r.
Qed.

Lemma preprocessor_from_v
    (names : list (string *
       (Event → option Table → Store → Ret (Event * option Event))))
    (store : Store) (event out : Event) :
  (∀ name hook e e',
     (name, hook) ∈ names →
     hook e (tables store !! name) store = Returns (e', None) →
     ev_v e' = ev_v e) →
  preprocessor_from names store event = Returns out →
  ev_v out = ev_v event.
Proof.
  intros Hsilent. revert event.
  induction names as [|[name hook] names IH]; intros event; simpl.
  - by intros [= <-].
  - destruct (hook event (tables store !! name) store)
      as [[event' [newEvent|]]|e] eqn:Hh; simpl; [| |done].
    + destruct (truthy (ev_error newEvent)); [by intros [= <-]|].
      case_bool_decide as Hv; [by intros [= <-]|].
      match goal with
      | |- context [if ?c then _ else _] => destruct c
      end; [by intros [= <-]|].
      intros H. apply IH in H.
      * rewrite H.
        destruct (decide (ev_v newEvent = ev_v event)) as [E|E];
          [done | by destruct Hv].
      * intros ???? Hin. apply Hsilent. by right.
    + intros H. apply IH in H.
      * rewrite H. eapply Hsilent; [by left | done].
      * intros ???? Hin. apply Hsilent. by right.
Qed.

(** X2. Preprocessing keeps the version of an event: provided a
    preprocessor that returns nothing has not changed [event.v] in place,
    whatever [preprocessor] returns, and whatever [reducer] returns, has the
    [v] of the event that went in, on the error outcomes too. *)
Theorem reducer_retains_version (store : Store) (event : Event) :
  (∀ name hook e e',
     (name, hook) ∈ hooks models m_preprocessor →
     hook e (tables store !! name) store = Returns (e', None) →
     ev_v e' = ev_v e) →
  (∀ out, preprocessor models store event = Returns out →
          ev_v out = ev_v event) ∧
  (∀ out, reducer models store event = Returns out → ev_v out = ev_v event).
Proof.
  intros Hsilent.
  assert (Hp : ∀ out, preprocessor models store event = Returns out →
                      ev_v out = ev_v event).
  { intros out. unfold preprocessor. by apply preprocessor_from_v. }
  split; [done|]. intros out Hr.
  apply reducer_inv in Hr as (reduced & result & Hred & -> & _).
  by apply Hp.
Qed.

(** X3. Whatever way [reducer] returns (a preprocessor error, reducer
    errors, or changes), the event it returns has a [result] with a
    [metadata] entry, and that entry is what the metadata reducer makes of
    the stored version and the returned event's [v]. *)
Theorem reducer_result_has_metadata (store : Store) (event out : Event) :
  "metadata" ∉ models.*1 →
  reducer models store event = Returns out →
  ∃ result,
    ev_result out = Some result ∧
    Obj.get "metadata" result
    = Some (metadata.reducer (Some (meta store)) out).
Proof.
  intros Hres Hr.
  apply reducer_inv in Hr as (reduced & result & _ & Hv & Hresult & Hm).
  exists result. split; [done|]. rewrite (Hm Hres).
  f_equal. by apply metadata_reducer_v.
Qed.

(** ** [handleResult] and the loop never fail *)

Lemma no_version_false (event : Event) :
  no_version event = false → ∃ v, ev_v event = Some v ∧ v ≠ 0.
Proof.
  unfold no_version. destruct (ev_v event) as [v|]; simpl; [|done].
  intros H. exists v. split; [done|].
  apply negb_false_iff, negb_true_iff, Z.eqb_neq in H. done.
Qed.

(** Given an event, [handleResult] always returns: a failure of the apply
    phase is caught, and settling the waiters cannot fail. *)
Lemma handleResult_returns (event : Event) (s : ESDB) :
  ∃ s' t,
    handleResult models fault test_env error_listeners (Some event) s
    = (Returns (), s', t).
Proof.
  destruct (no_version event) eqn:Hnv.
  - exists s, []. unfold handleResult, act_bind, get_state, act_ret.
    by rewrite Hnv.
  - apply no_version_false in Hnv as (v & Hv & Hne).
    destruct (handleResult_run models fault test_env error_listeners
                event v s Hv Hne) as (ra & s1 & t1 & s2 & t3 & _ & _ & ->).
    by eexists _, _.
Qed.

(** The listener call [handleResult()] reads the event off the store. *)
Lemma handleResult_listener (event : Event) (s : ESDB) :
  redux_state s = Some event →
  handleResult models fault test_env error_listeners None s
  = handleResult models fault test_env error_listeners (Some event) s.
Proof.
  intros Hst. unfold handleResult, act_bind, get_state. by rewrite Hst.
Qed.

(** [redux.dispatch(event)]: the reducer's event goes to the listener, or
    the dispatch rejects with what the reducer threw. *)
Lemma redux_dispatch_run (event : Event) (s : ESDB) :
  redux_dispatch models fault test_env error_listeners event s
  = match reducer models (store s) event with
    | Returns handed =>
        handleResult models fault test_env error_listeners (Some handed)
          (set_redux_state (Some handed) s)
    | Throws err => (Throws err, s, [])
    end.
Proof.
  unfold redux_dispatch, act_bind, get_state.
  destruct (reducer models (store s) event) as [handed|err]; [|done].
  unfold modify, catch.
  rewrite (handleResult_listener handed) by done.
  destruct (handleResult_returns handed (set_redux_state (Some handed) s))
    as (s2 & t & ->).
  done.
Qed.

(** One turn of the loop on a picked event: the reducer's event, or, when
    the reducer rejects, the event with the [_redux] error, goes through
    [handleResult]; then the stop flag is looked at. *)
Lemma _waitForEvent_turn_run (lastV : option Z) (s : ESDB) (event : Event) :
  getNext (queue s) (getVersion s) = Some event →
  ∃ handed s1 s2 t,
    ((reducer models (store s) event = Returns handed ∧
      s1 = set_redux_state (Some handed) (set_reduxInited true s)) ∨
     (∃ err,
        reducer models (store s) event = Throws err ∧
        handed = redux_failed event err
                   (metadata.reducer (Some (meta (store s))) event) ∧
        s1 = set_reduxInited true s)) ∧
    handleResult models fault test_env error_listeners (Some handed) s1
    = (Returns (), s2, t) ∧
    _waitForEvent_turn models fault test_env error_listeners lastV s
    = (Returns (if _reallyStop s2 then Return None else Again (ev_v event)),
       (if _reallyStop s2 then set_reallyStop false s2 else s2), t).
Proof.
  intros Hnext.
  unfold _waitForEvent_turn. unfold act_bind at 1. unfold get_state at 1.
  rewrite Hnext. unfold act_bind at 1. unfold modify at 1.
  unfold act_bind at 1. unfold catch at 1.
  rewrite redux_dispatch_run.
  change (store (set_reduxInited true s)) with (store s).
  destruct (reducer models (store s) event) as [handed|err] eqn:Hred.
  - destruct (handleResult_returns handed
                (set_redux_state (Some handed) (set_reduxInited true s)))
      as (s2 & t & Hh).
    exists handed, (set_redux_state (Some handed) (set_reduxInited true s)),
      s2, t.
    split; [by left|]. split; [done|].
    rewrite Hh. unfold act_bind, get_state, modify, act_ret. simpl.
    destruct (_reallyStop s2); simpl; by rewrite ?app_nil_r.
  - unfold act_bind at 1. unfold get_state at 1.
    change (store (set_reduxInited true s)) with (store s).
    destruct (handleResult_returns
                (redux_failed event err
                   (metadata.reducer (Some (meta (store s))) event))
                (set_reduxInited true s)) as (s2 & t & Hh).
    exists (redux_failed event err
              (metadata.reducer (Some (meta (store s))) event)),
      (set_reduxInited true s), s2, t.
    split; [right; by exists err|]. split; [done|].
    rewrite Hh. unfold act_bind, get_state, modify, act_ret. simpl.
    destruct (_reallyStop s2); simpl; by rewrite ?app_nil_r.
Qed.

(** ** What handling an event leaves alone *)

Lemma handling_frame_refl (s : ESDB) : handling_frame s s.
Proof. unfold handling_frame. split_and!; done. Qed.

Lemma handling_frame_trans (s1 s2 s3 : ESDB) :
  handling_frame s1 s2 → handling_frame s2 s3 → handling_frame s1 s3.
Proof.
  unfold handling_frame.
  intros (H1 & H2 & H3 & H4 & H5 & H6 & Hw1)
         (G1 & G2 & G3 & G4 & G5 & G6 & Hw2).
  split_and!; try congruence. intros v o Hv. by apply Hw1, Hw2.
Qed.

Lemma triggerWaitingEvent_frame (event : Event) (s s' : ESDB) (r : Ret unit)
    (t : list Effect) :
  triggerWaitingEvent event s = (r, s', t) →
  r = Returns () ∧ handling_frame s s' ∧ queue s' = queue s ∧ store s' = store s.
Proof.
  unfold triggerWaitingEvent, act_bind, get_state, modify, effect, act_ret.
  destruct (ev_v event) as [v|]; simpl.
  - destruct (_waitingFor s !! v) as [o|] eqn:Hw; simpl;
      case_bool_decide; intros [= <- <- <-];
      (split; [done|]); (split; [|done]);
      unfold handling_frame; simpl; split_and!; try done.
    + intros v' o'. rewrite lookup_delete_Some. by intros [_ ?].
  - intros [= <- <- <-]. split; [done|]. split; [|done].
    apply handling_frame_refl.
Qed.

Lemma handleResult_frame (event : Event) (s s' : ESDB) (r : Ret unit)
    (t : list Effect) :
  handleResult models fault test_env error_listeners (Some event) s = (r, s', t) →
  handling_frame s s'.
Proof.
  destruct (no_version event) eqn:Hnv.
  - unfold handleResult, act_bind, get_state, act_ret. rewrite Hnv.
    intros [= <- <- <-]. apply handling_frame_refl.
  - apply no_version_false in Hnv as (v & Hv & Hne).
    destruct (handleResult_run models fault test_env error_listeners
                event v s Hv Hne) as (ra & s1 & t1 & s2 & t3 & Ha & Ht & ->).
    intros [= <- <- <-].
    apply applyEvent_frame in Ha
      as (Hw & Hmax & Hmin & Hpoll & Hstop & Hp & _ & Hprom & _).
    apply triggerWaitingEvent_frame in Ht as (_ & Hf & _).
    eapply handling_frame_trans; [|exact Hf].
    unfold handling_frame. split_and!; try done. intros v' o. by rewrite Hw.
Qed.

(** A turn of the loop leaves the chain and the counters alone and only
    removes waiters; the stop flag is reset at most. *)
Lemma _waitForEvent_turn_frame (lastV : option Z) (s s' : ESDB)
    (r : Ret Turn) (t : list Effect) :
  _waitForEvent_turn models fault test_env error_listeners lastV s = (r, s', t) →
  _waitingP s' = _waitingP s ∧
  minVersion s' = minVersion s ∧
  _maxWaitingFor s' = _maxWaitingFor s ∧
  promises s' = promises s ∧
  _isPolling s' = _isPolling s ∧
  (∀ v o, _waitingFor s' !! v = Some o → _waitingFor s !! v = Some o).
Proof.
  destruct (getNext (queue s) (getVersion s)) as [event|] eqn:Hnext.
  - destruct (_waitForEvent_turn_run lastV s event Hnext)
      as (handed & s1 & s2 & t2 & Hs1 & Hh & ->).
    intros [= <- <- <-].
    apply handleResult_frame in Hh as (_ & Hp & Hmin & Hmax & Hprom & Hpoll & Hw).
    assert (Hs : _waitingP s1 = _waitingP s ∧ minVersion s1 = minVersion s ∧
                 _maxWaitingFor s1 = _maxWaitingFor s ∧
                 promises s1 = promises s ∧ _isPolling s1 = _isPolling s ∧
                 _waitingFor s1 = _waitingFor s).
    { destruct Hs1 as [[_ ->] | (err & _ & _ & ->)]; done. }
    destruct Hs as (E1 & E2 & E3 & E4 & E5 & E6).
    rewrite E6 in Hw.
    destruct (_reallyStop s2); simpl; split_and!; congruence || done.
  - unfold _waitForEvent_turn, act_bind, get_state, act_ret. rewrite Hnext.
    by intros [= <- <- <-].
Qed.

(** A step of the chain leaves [minVersion], [_maxWaitingFor] and the
    promise counter alone and only removes waiters. *)
Lemma poll_step_frame (s s' : ESDB) (r : Ret unit) (t : list Effect) :
  poll_step models fault test_env error_listeners s = (r, s', t) →
  r = Returns () ∧
  minVersion s' = minVersion s ∧
  _maxWaitingFor s' = _maxWaitingFor s ∧
  promises s' = promises s ∧
  (∀ v o, _waitingFor s' !! v = Some o → _waitingFor s !! v = Some o).
Proof.
  unfold poll_step. unfold act_bind at 1. unfold get_state at 1.
  destruct (_waitingP s) as [[lastV|lastV|]|];
    [| |by intros [= <- <- <-]|by intros [= <- <- <-]].
  - unfold act_bind, start.
    destruct (_waitForEvent_turn models fault test_env error_listeners lastV s)
      as [[rt s1] t1] eqn:Ht.
    apply _waitForEvent_turn_frame in Ht as (_ & Hmin & Hmax & Hprom & _ & Hw).
    destruct rt as [[l|v|]|err]; simpl;
      rewrite ?first_run_then_spec; unfold effect, modify, act_ret; simpl;
      intros [= <- <- <-]; done.
  - unfold act_bind, start.
    destruct (_waitForEvent_turn models fault test_env error_listeners lastV s)
      as [[rt s1] t1] eqn:Ht.
    apply _waitForEvent_turn_frame in Ht as (_ & Hmin & Hmax & Hprom & _ & Hw).
    destruct rt as [[l|v|]|err]; simpl;
      unfold effect, modify, act_ret; simpl;
      intros [= <- <- <-]; done.
Qed.

(** ** The stop flag *)

(** A step of the first run, by how its turn ends. *)
Lemma poll_step_first_run (lastV : option Z) (s s1 : ESDB) (turn : Turn)
    (t : list Effect) :
  _waitingP s = Some (FirstRun lastV) →
  _waitForEvent_turn models fault test_env error_listeners lastV s
  = (Returns turn, s1, t) →
  poll_step models fault test_env error_listeners s
  = (Returns (),
     match turn with
     | Again l => set_waitingP (Some (FirstRun l)) s1
     | Return v =>
         set_waitingP (if v_lt v (minVersion s1)
                       then Some (SecondRun (Some 0)) else None) s1
     | Blocked => s1
     end, t).
Proof.
  intros Hp Ht. unfold poll_step, act_bind, get_state, start.
  rewrite Hp, Ht.
  destruct turn as [l|v|]; rewrite ?first_run_then_spec;
    unfold modify, act_ret; simpl; by rewrite app_nil_r.
Qed.

(** X7. [stopPolling] leaves a flag that only a turn that handles an event
    takes down. With the flag up, a turn of the first run that finds
    nothing leaves it up, and so does [startPolling], which starts no new
    run either. A turn that handles an event ends the run and empties
    [_waitingP], whatever [minVersion] asks for and whether or not polling
    has been switched on again, and takes the flag down. *)
Theorem stop_flag_ends_the_run (lastV : option Z) (s : ESDB) :
  _reallyStop s = true → _waitingP s = Some (FirstRun lastV) →
  let s' := (poll_step models fault test_env error_listeners s).1.2 in
  (getNext (queue s) (getVersion s) = None → _reallyStop s' = true) ∧
  (is_Some (getNext (queue s) (getVersion s)) →
     _waitingP s' = None ∧ _reallyStop s' = false ∧
     _isPolling s' = _isPolling s) ∧
  (∀ wantVersion,
     _reallyStop (startPolling wantVersion s) = true ∧
     _waitingP (startPolling wantVersion s) = Some (FirstRun lastV)).
Proof.
  intros Hstop Hp s'. subst s'. split_and!.
  - intros Hnext.
    rewrite (poll_step_first_run lastV s s
               (if negb (_isPolling s) then Return lastV else Blocked) [] Hp).
    + destruct (_isPolling s); done.
    + unfold _waitForEvent_turn, act_bind, get_state, act_ret.
      by rewrite Hnext.
  - intros [event Hnext].
    destruct (_waitForEvent_turn_run lastV s event Hnext)
      as (handed & s1 & s2 & t & Hs1 & Hh & Hturn).
    apply handleResult_frame in Hh as (Hstop2 & _ & _ & _ & _ & Hpoll2 & _).
    assert (_reallyStop s1 = true ∧ _isPolling s1 = _isPolling s)
      as [Hstop1 Hpoll1].
    { destruct Hs1 as [[_ ->] | (err & _ & _ & ->)]; done. }
    rewrite Hstop2, Hstop1 in Hturn.
    rewrite (poll_step_first_run lastV s _ _ _ Hp Hturn).
    split_and!; [done|done|]. simpl. by rewrite Hpoll2.
  - intros wantVersion. unfold startPolling.
    destruct (truthy _); [case_bool_decide|destruct (negb _)];
      simpl; rewrite Hp; done.
Qed.

(** ** The registry of waiters *)

Lemma handledVersion_registers (v : Z) (s : ESDB) :
  v ≠ 0 → getVersion s < v → _waitingFor s !! v = None →
  handledVersion v s
  = (Pending (promises s),
     startPolling (Some v)
       (set_waitingFor (<[v := promises s]> (_waitingFor s))
          (set_promises (S (promises s))
             (set_maxWaitingFor (Z.max v (_maxWaitingFor s)) s)))).
Proof.
  intros Hv Hlt Hw. unfold handledVersion.
  rewrite bool_decide_eq_false_2 by done.
  rewrite bool_decide_eq_false_2 by lia.
  rewrite Hw. cbn zeta.
  assert ((if bool_decide (v > _maxWaitingFor s)
           then set_maxWaitingFor v s else s)
          = set_maxWaitingFor (Z.max v (_maxWaitingFor s)) s) as ->; [|done].
  case_bool_decide.
  - by rewrite Z.max_l by lia.
  - rewrite Z.max_r by lia. by destruct s.
Qed.

(** X8. Asking twice for the same version is asking once: the second
    [handledVersion(v)] settles as the first did, or returns the promise of
    the waiter the first registered, and changes nothing more. *)
Theorem handledVersion_idempotent (v : Z) (s : ESDB) :
  handledVersion v (handledVersion v s).2 = handledVersion v s.
Proof.
  assert (∀ s', v ≠ 0 → v ≤ getVersion s' →
            handledVersion v s'
            = (match queue_get (queue s') v with
               | Some event => settle_with event
               | None => Rejected (RErr (TypeError "error"))
               end, s')) as Hold.
  { intros s' Hv Hle. unfold handledVersion.
    rewrite (bool_decide_eq_false_2 (v = 0)) by done.
    rewrite (bool_decide_eq_true_2 (v ≤ getVersion s')) by done.
    by destruct (queue_get (queue s') v). }
  assert (∀ s' o, v ≠ 0 → getVersion s' < v → _waitingFor s' !! v = Some o →
            handledVersion v s' = (Pending o, s')) as Hreuse.
  { intros s' o Hv Hlt Hw. unfold handledVersion.
    rewrite (bool_decide_eq_false_2 (v = 0)) by done.
    rewrite (bool_decide_eq_false_2 (v ≤ getVersion s')) by lia.
    by rewrite Hw. }
  destruct (decide (v = 0)) as [->|Hv]; [done|].
  destruct (decide (v ≤ getVersion s)) as [Hle|Hgt].
  - rewrite (Hold s) by done. simpl. by rewrite (Hold s).
  - destruct (_waitingFor s !! v) as [o|] eqn:Hw.
    + rewrite (Hreuse s o) by (done || lia). simpl.
      by rewrite (Hreuse s o) by (done || lia).
    + rewrite (handledVersion_registers v s) by (done || lia).
      cbn [snd]. apply Hreuse; [done| |].
      * rewrite (startPolling_want v) by done.
        unfold getVersion in *. simpl. lia.
      * rewrite (startPolling_want v) by done. simpl.
        by rewrite lookup_insert_eq.
Qed.

Lemma waiters_ok_fresh (db : Store) (q : gmap Z Event) : waiters_ok (fresh db q).
Proof. split; intros *; simpl; by rewrite lookup_empty. Qed.

(** The invariant survives whatever only removes waiters and lowers no
    counter. *)
Lemma waiters_ok_shrink (s s' : ESDB) :
  waiters_ok s →
  minVersion s ≤ minVersion s' → _maxWaitingFor s ≤ _maxWaitingFor s' →
  (promises s ≤ promises s')%nat →
  (∀ v o, _waitingFor s' !! v = Some o → _waitingFor s !! v = Some o) →
  waiters_ok s'.
Proof.
  intros [Hb Hinj] Hmin Hmax Hprom Hw. split.
  - intros v o Hv. destruct (Hb v o (Hw v o Hv)) as (? & ? & ?).
    split_and!; lia.
  - intros v1 v2 o H1 H2. eauto.
Qed.

Lemma waiters_ok_startPolling (wantVersion : option Z) (s : ESDB) :
  waiters_ok s → waiters_ok (startPolling wantVersion s).
Proof.
  intros Hok. apply (waiters_ok_shrink s); [done| | | |].
  - unfold startPolling.
    destruct (truthy _); [case_bool_decide|destruct (negb _)];
      destruct s as [? ? ? ? ? ? ? [c|] ? ? ? ?]; simpl in *; lia.
  - unfold startPolling.
    destruct (truthy _); [case_bool_decide|destruct (negb _)];
      destruct s as [? ? ? ? ? ? ? [c|] ? ? ? ?]; simpl in *; lia.
  - unfold startPolling.
    destruct (truthy _); [case_bool_decide|destruct (negb _)];
      destruct s as [? ? ? ? ? ? ? [c|] ? ? ? ?]; simpl in *; lia.
  - unfold startPolling.
    destruct (truthy _); [case_bool_decide|destruct (negb _)];
      destruct s as [? ? ? ? ? ? ? [c|] ? ? ? ?]; simpl in *; done.
Qed.

Lemma waiters_ok_handledVersion (v : Z) (s : ESDB) :
  waiters_ok s → waiters_ok (handledVersion v s).2.
Proof.
  intros Hok. unfold handledVersion.
  case_bool_decide; [done|]. case_bool_decide.
  { by destruct (queue_get (queue s) v). }
  destruct (_waitingFor s !! v) as [o|] eqn:Hw; [done|].
  cbn zeta. cbn [snd].
  rewrite (startPolling_want v) by done.
  destruct Hok as [Hb Hinj]. split.
  - intros v' o. cbn.
    assert (promises (if bool_decide (v > _maxWaitingFor s)
                      then set_maxWaitingFor v s else s) = promises s) as ->
      by by case_bool_decide.
    assert (_waitingFor (if bool_decide (v > _maxWaitingFor s)
                         then set_maxWaitingFor v s else s) = _waitingFor s) as ->
      by by case_bool_decide.
    assert (minVersion (if bool_decide (v > _maxWaitingFor s)
                        then set_maxWaitingFor v s else s) = minVersion s) as ->
      by by case_bool_decide.
    rewrite lookup_insert_Some. intros [[<- <-]|[Hne Hv']].
    + split_and!; [case_bool_decide; simpl; lia|lia|lia].
    + destruct (Hb v' o Hv') as (? & ? & ?).
      split_and!; [case_bool_decide; simpl; lia|lia|lia].
  - intros v1 v2 o. cbn.
    assert (promises (if bool_decide (v > _maxWaitingFor s)
                      then set_maxWaitingFor v s else s) = promises s) as ->
      by by case_bool_decide.
    assert (_waitingFor (if bool_decide (v > _maxWaitingFor s)
                         then set_maxWaitingFor v s else s) = _waitingFor s) as ->
      by by case_bool_decide.
    rewrite !lookup_insert_Some.
    intros [[<- <-]|[Hne1 H1]] [[<- Heq]|[Hne2 H2]]; try done.
    + destruct (Hb v2 _ H2) as (_ & _ & ?). lia.
    + destruct (Hb v1 _ H1) as (_ & _ & ?). lia.
    + eauto.
Qed.

Lemma waiters_ok_poll_steps (n : nat) (s : ESDB) :
  waiters_ok s →
  waiters_ok (poll_steps models fault test_env error_listeners n s).1.2.
Proof.
  revert s. induction n as [|n IH]; intros s Hok; [done|].
  simpl. unfold act_bind.
  destruct (poll_step models fault test_env error_listeners s)
    as [[r s1] t1] eqn:Hstep.
  apply poll_step_frame in Hstep as (-> & Hmin & Hmax & Hprom & Hw).
  specialize (IH s1).
  destruct (poll_steps models fault test_env error_listeners n s1)
    as [[r2 s2] t2].
  simpl in *. apply IH. apply (waiters_ok_shrink s); [done|lia|lia|lia|done].
Qed.

(** X9. The registry of waiters stays well formed. If every waiter's
    version is at most [_maxWaitingFor] and at most [minVersion], its
    promise has been created, and no two versions share a promise, then
    the same holds after any [handledVersion], [startPolling],
    [stopPolling], [dispatch] and any number of loop steps. *)
Theorem waiters_stay_well_formed (s : ESDB) :
  waiters_ok s →
  (∀ v, waiters_ok (handledVersion v s).2) ∧
  (∀ wantVersion, waiters_ok (startPolling wantVersion s)) ∧
  waiters_ok (stopPolling s) ∧
  (∀ type data ts, waiters_ok (dispatch type data ts s).2) ∧
  (∀ n, waiters_ok (poll_steps models fault test_env error_listeners n s).1.2).
Proof.
  intros Hok. split_and!.
  - intros v. by apply waiters_ok_handledVersion.
  - intros w. by apply waiters_ok_startPolling.
  - by apply (waiters_ok_shrink s).
  - intros type data ts. unfold dispatch. cbn zeta.
    apply waiters_ok_handledVersion.
    by apply (waiters_ok_shrink s).
  - intros n. by apply waiters_ok_poll_steps.
Qed.

(** ** Settling waiters *)

Lemma settled_app (t1 t2 : list Effect) :
  settled (t1 ++ t2) = settled t1 ++ settled t2.
Proof. apply omap_app. Qed.

Lemma settled_cons (e : Effect) (t : list Effect) :
  settled (e :: t) = settled [e] ++ settled t.
Proof. apply (settled_app [e] t). Qed.

Lemma settled_none (t : list Effect) :
  (∀ e, e ∈ t → ¬ is_settlement e) → settled t = [].
Proof.
  induction t as [|e t IH]; [done|]. intros Hno.
  assert (¬ is_settlement e) as He by (apply Hno; by left).
  assert (settled t = []) as Ht by (apply IH; intros e' He'; apply Hno; by right).
  rewrite settled_cons, Ht. by destruct e.
Qed.

Lemma settled_settle (o : nat) (event : Event) :
  settled [settle o event] = [o].
Proof. unfold settle. by destruct (truthy (ev_error event)). Qed.

Lemma settled_sweep (q : gmap Z Event) (l : list (Z * nat)) :
  settled (sweep_one q <$> l) `sublist_of` l.*2.
Proof.
  induction l as [|vo l IH]; [done|].
  rewrite !fmap_cons, settled_cons.
  unfold sweep_one at 1. destruct (queue_get q vo.1) as [event|].
  - rewrite settled_settle. simpl. by apply sublist_skip.
  - simpl. by apply sublist_cons.
Qed.

Lemma settles_registered_nil (s : ESDB) : settles_registered s s [].
Proof.
  split; [apply NoDup_nil_2|]. intros o Ho. by apply not_elem_of_nil in Ho.
Qed.

Lemma settles_registered_app (s s1 s2 : ESDB) (t1 t2 : list Effect) :
  settles_registered s s1 t1 → settles_registered s1 s2 t2 →
  (∀ v o, _waitingFor s1 !! v = Some o → _waitingFor s !! v = Some o) →
  (∀ v o, _waitingFor s2 !! v = Some o → _waitingFor s1 !! v = Some o) →
  settles_registered s s2 (t1 ++ t2).
Proof.
  intros [Hnd1 H1] [Hnd2 H2] Hw1 Hw2. split.
  - rewrite settled_app. apply NoDup_app. split_and!; [done| |done].
    intros o Ho1 Ho2.
    destruct (H1 o Ho1) as [_ Hgone]. destruct (H2 o Ho2) as [[v Hv] _].
    by apply (Hgone v).
  - intros o. rewrite settled_app, elem_of_app. intros [Ho|Ho].
    + destruct (H1 o Ho) as [Hreg Hgone]. split; [done|].
      intros v Hv. apply (Hgone v). by apply Hw2.
    + destruct (H2 o Ho) as [[v Hv] Hgone]. split; [|done].
      exists v. by apply Hw1.
Qed.

Lemma triggerWaitingEvent_settles (event : Event) (v : Z) (s s' : ESDB)
    (r : Ret unit) (t : list Effect) :
  ev_v event = Some v →
  (∀ v1 v2 o, _waitingFor s !! v1 = Some o → _waitingFor s !! v2 = Some o →
              v1 = v2) →
  triggerWaitingEvent event s = (r, s', t) →
  settles_registered s s' t.
Proof.
  intros Hv Hinj Ht.
  destruct (triggerWaitingEvent_run event v s Hv) as (s2 & Hrun & Hw & _).
  rewrite Hrun in Ht. injection Ht as <- <- <-.
  set (rest := entries (delete v (_waitingFor s))).
  assert (NoDup rest.*2) as Hrest.
  { unfold rest, entries. rewrite merge_sort_Permutation.
    apply NoDup_fmap_2_strong; [|apply NoDup_map_to_list].
    intros [v1 o1] [v2 o2] H1%elem_of_map_to_list H2%elem_of_map_to_list.
    simpl. intros <-.
    apply lookup_delete_Some in H1 as [_ H1].
    apply lookup_delete_Some in H2 as [_ H2].
    by rewrite (Hinj v1 v2 o1). }
  assert (∀ o, o ∈ rest.*2 → ∃ v', v' ≠ v ∧ _waitingFor s !! v' = Some o)
    as Hin.
  { intros o ([v' o'] & -> & Hel)%list_elem_of_fmap.
    apply elem_of_entries, lookup_delete_Some in Hel as [Hne Hel].
    exists v'. split; [congruence|done]. }
  split.
  - rewrite settled_app.
    destruct (bool_decide (_maxWaitingFor s ≤ v));
      destruct (_waitingFor s !! v) as [o|] eqn:Hwv;
      rewrite ?settled_settle; simpl;
      try apply NoDup_nil_2; try apply NoDup_singleton.
    + apply NoDup_cons. split.
      * intros Ho. apply (λ H, elem_of_sublist _ _ _ H (settled_sweep _ _)) in Ho.
        apply Hin in Ho as (v' & Hne & Hv'). by apply Hne, (Hinj v' v o).
      * eapply sublist_NoDup; [done|apply settled_sweep].
    + eapply sublist_NoDup; [done|apply settled_sweep].
  - intros o. rewrite settled_app, elem_of_app. rewrite Hw.
    intros Ho. split.
    + destruct Ho as [Ho|Ho].
      * destruct (_waitingFor s !! v) as [o'|] eqn:Hwv;
          [|by apply not_elem_of_nil in Ho].
        rewrite settled_settle in Ho.
        apply list_elem_of_singleton in Ho as ->. by exists v.
      * destruct (bool_decide (_maxWaitingFor s ≤ v));
          [|by apply not_elem_of_nil in Ho].
        apply (λ H, elem_of_sublist _ _ _ H (settled_sweep _ _)) in Ho.
        apply Hin in Ho as (v' & _ & Hv'). by exists v'.
    + intros v'. case_bool_decide as Hmax; [by rewrite lookup_empty|].
      destruct Ho as [Ho|Ho]; [|by apply not_elem_of_nil in Ho].
      destruct (_waitingFor s !! v) as [o'|] eqn:Hwv;
        [|by apply not_elem_of_nil in Ho].
      rewrite settled_settle in Ho.
      apply list_elem_of_singleton in Ho as ->.
      rewrite lookup_delete_Some. intros [Hne Hv'].
      by apply Hne, (Hinj v v' o').
Qed.

Lemma settles_registered_transport (s s' a b : ESDB) (t t' : list Effect) :
  _waitingFor a = _waitingFor s → _waitingFor b = _waitingFor s' →
  settled t' = settled t →
  settles_registered s s' t → settles_registered a b t'.
Proof. unfold settles_registered. by intros -> -> ->. Qed.

Lemma handleResult_settles (event : Event) (s s' : ESDB) (r : Ret unit)
    (t : list Effect) :
  (∀ v1 v2 o, _waitingFor s !! v1 = Some o → _waitingFor s !! v2 = Some o →
              v1 = v2) →
  handleResult models fault test_env error_listeners (Some event) s = (r, s', t) →
  settles_registered s s' t.
Proof.
  intros Hinj. destruct (no_version event) eqn:Hnv.
  - unfold handleResult, act_bind, get_state, act_ret. rewrite Hnv.
    intros [= <- <- <-]. apply settles_registered_nil.
  - apply no_version_false in Hnv as (v & Hv & Hne).
    destruct (handleResult_run models fault test_env error_listeners
                event v s Hv Hne) as (ra & s1 & t1 & s2 & t3 & Ha & Ht & ->).
    intros [= <- <- <-].
    pose proof (applyEvent_no_settlement models fault test_env _ _ _ _ _ Ha)
      as Hno.
    apply applyEvent_frame in Ha as (Hw & _).
    apply (settles_registered_transport s1 s2 _ _ t3); [done|done| |].
    + rewrite !settled_app. rewrite (settled_none t1) by done.
      rewrite (settled_none (apply_log ra)).
      2:{ intros e He Hs. destruct ra; [by apply not_elem_of_nil in He|].
          apply list_elem_of_singleton in He as ->. destruct Hs. }
      rewrite (settled_none (emitted _ _)); [done|].
      intros e. unfold emitted.
      destruct (truthy _); [case_bool_decide|]; simpl;
        rewrite ?elem_of_cons, ?elem_of_nil; intros He Hs;
        destruct_or?; simplify_eq; destruct Hs.
    + eapply (triggerWaitingEvent_settles _ v); [|by rewrite Hw|done].
      by rewrite strip_metadata_v.
Qed.

Lemma _waitForEvent_turn_settles (lastV : option Z) (s s' : ESDB)
    (r : Ret Turn) (t : list Effect) :
  (∀ v1 v2 o, _waitingFor s !! v1 = Some o → _waitingFor s !! v2 = Some o →
              v1 = v2) →
  _waitForEvent_turn models fault test_env error_listeners lastV s = (r, s', t) →
  settles_registered s s' t.
Proof.
  intros Hinj.
  destruct (getNext (queue s) (getVersion s)) as [event|] eqn:Hnext.
  - destruct (_waitForEvent_turn_run lastV s event Hnext)
      as (handed & s1 & s2 & t2 & Hs1 & Hh & ->).
    intros [= <- <- <-].
    assert (_waitingFor s1 = _waitingFor s) as Hw1.
    { by destruct Hs1 as [[_ ->]|(err & _ & _ & ->)]. }
    apply handleResult_settles in Hh; [|by rewrite Hw1].
    apply (settles_registered_transport s1 s2 _ _ t2); try done.
    by destruct (_reallyStop s2).
  - unfold _waitForEvent_turn, act_bind, get_state, act_ret. rewrite Hnext.
    intros [= <- <- <-]. apply settles_registered_nil.
Qed.

Lemma poll_step_settles (s s' : ESDB) (r : Ret unit) (t : list Effect) :
  (∀ v1 v2 o, _waitingFor s !! v1 = Some o → _waitingFor s !! v2 = Some o →
              v1 = v2) →
  poll_step models fault test_env error_listeners s = (r, s', t) →
  settles_registered s s' t.
Proof.
  intros Hinj.
  unfold poll_step. unfold act_bind at 1. unfold get_state at 1.
  destruct (_waitingP s) as [[lastV|lastV|]|];
    [| |intros [= <- <- <-]; apply settles_registered_nil
       |intros [= <- <- <-]; apply settles_registered_nil].
  - unfold act_bind, start.
    destruct (_waitForEvent_turn models fault test_env error_listeners lastV s)
      as [[rt s1] t1] eqn:Ht.
    apply _waitForEvent_turn_settles in Ht; [|done].
    destruct rt as [[l|v|]|err]; simpl;
      rewrite ?first_run_then_spec; unfold effect, modify, act_ret; simpl;
      intros [= <- <- <-];
      apply (settles_registered_transport s s1 _ _ t1); try done;
      rewrite ?app_nil_r, ?settled_app; try done;
      try (by destruct (v_lt _ _)).
    apply app_nil_r.
  - unfold act_bind, start.
    destruct (_waitForEvent_turn models fault test_env error_listeners lastV s)
      as [[rt s1] t1] eqn:Ht.
    apply _waitForEvent_turn_settles in Ht; [|done].
    destruct rt as [[l|v|]|err]; simpl;
      unfold effect, modify, act_ret; simpl;
      intros [= <- <- <-];
      apply (settles_registered_transport s s1 _ _ t1); try done;
      rewrite ?app_nil_r, ?settled_app; try done.
    apply app_nil_r.
Qed.

(** X10. However long the loop runs, no promise is settled twice: every
    promise the loop resolves or rejects belonged to a waiter that was
    registered when the run began and is registered no more when it ends. *)
Theorem no_promise_settled_twice (n : nat) (s : ESDB) :
  waiters_ok s →
  let run := poll_steps models fault test_env error_listeners n s in
  NoDup (settled run.2) ∧
  ∀ o, o ∈ settled run.2 →
       (∃ v, _waitingFor s !! v = Some o) ∧
       ∀ v, _waitingFor run.1.2 !! v ≠ Some o.
Proof.
  intros Hok. cbn zeta.
  change (settles_registered s
            (poll_steps models fault test_env error_listeners n s).1.2
            (poll_steps models fault test_env error_listeners n s).2).
  revert s Hok. induction n as [|n IH]; intros s Hok.
  { apply settles_registered_nil. }
  simpl. unfold act_bind.
  destruct (poll_step models fault test_env error_listeners s)
    as [[r s1] t1] eqn:Hstep.
  pose proof Hstep as Hframe.
  apply poll_step_frame in Hframe as (-> & Hmin & Hmax & Hprom & Hw).
  apply poll_step_settles in Hstep; [|by destruct Hok].
  assert (waiters_ok s1) as Hok1
    by (apply (waiters_ok_shrink s); [done|lia|lia|lia|done]).
  specialize (IH s1 Hok1).
  destruct (poll_steps models fault test_env error_listeners n s1)
    as [[r2 s2] t2] eqn:Hrest.
  simpl in *. apply (settles_registered_app s s1 s2); try done.
  clear -Hrest. revert s1 r2 s2 t2 Hrest.
  induction n as [|n IHn]; intros s1 r2 s2 t2 Hrest.
  { by injection Hrest as <- <- <-. }
  simpl in Hrest. unfold act_bind in Hrest.
  destruct (poll_step models fault test_env error_listeners s1)
    as [[r s'] t'] eqn:Hstep.
  apply poll_step_frame in Hstep as (-> & _ & _ & _ & Hw).
  destruct (poll_steps models fault test_env error_listeners n s')
    as [[r3 s3] t3] eqn:Hrest'.
  injection Hrest as <- <- <-. intros v o Hv. eapply Hw, IHn; done.
Qed.

(** ** What the listeners see *)

Lemma emits_app (t1 t2 : list Effect) : emits (t1 ++ t2) = emits t1 ++ emits t2.
Proof. apply omap_app. Qed.

Lemma emits_cons (e : Effect) (t : list Effect) :
  emits (e :: t) = emits [e] ++ emits t.
Proof. apply (emits_app [e] t). Qed.

Lemma emits_none (t : list Effect) :
  (∀ e, e ∈ t → ∀ kind event, e ≠ Emit kind event) → emits t = [].
Proof.
  induction t as [|e t IH]; [done|]. intros Hno.
  assert (emits t = []) as Ht by (apply IH; intros e' He'; apply Hno; by right).
  rewrite emits_cons, Ht.
  assert (∀ kind event, e ≠ Emit kind event) as He by (apply Hno; by left).
  destruct e as [| | | |kind event| | |]; try done. by destruct (He kind event).
Qed.

Lemma applyEvent_no_emit (event : Event) (s s' : ESDB) (r : Ret unit)
    (t : list Effect) :
  applyEvent models fault test_env event s = (r, s', t) → emits t = [].
Proof.
  intros [[-> ->] | (err & done & -> & Hpre & ->)]%applyEvent_trace;
    apply emits_none; intros e He kind ev ->.
  - by apply apply_plan_phase in He.
  - apply elem_of_app in He as [He | He].
    + eapply elem_of_prefix in He; [|done]. by apply apply_plan_phase in He.
    + destruct test_env; [by apply not_elem_of_nil in He|].
      by apply list_elem_of_singleton in He.
Qed.

Lemma triggerWaitingEvent_no_emit (event : Event) (s s' : ESDB) (r : Ret unit)
    (t : list Effect) :
  triggerWaitingEvent event s = (r, s', t) → emits t = [].
Proof.
  assert (∀ o e, emits [settle o e] = []) as Hsettle.
  { intros o e. unfold settle. by destruct (truthy (ev_error e)). }
  assert (∀ q l, emits (sweep_one q <$> l) = []) as Hsweep.
  { intros q l. induction l as [|vo l IH]; [done|].
    rewrite fmap_cons, emits_cons, IH. unfold sweep_one.
    destruct (queue_get q vo.1); [by rewrite Hsettle|done]. }
  destruct (ev_v event) as [v|] eqn:Hv.
  - destruct (triggerWaitingEvent_run event v s Hv) as (s2 & -> & _).
    intros [= <- <- <-]. rewrite emits_app.
    destruct (_waitingFor s !! v) as [o|]; case_bool_decide;
      rewrite ?Hsettle, ?Hsweep; done.
  - unfold triggerWaitingEvent, act_bind, get_state, modify, effect, act_ret.
    rewrite Hv. simpl. by intros [= <- <- <-].
Qed.

(** X11. What the listeners of an instance see of a handled event. An
    event with a version is announced by exactly one [handled], preceded by
    one [result] when it carries no error, or by one [error] when it
    carries one and somebody listens for [error]; nothing else is emitted,
    whether or not the apply phase succeeded. The event the listeners get
    has no [metadata] entry left in its [result]. *)
Theorem handleResult_emits (event : Event) (v : Z) (s : ESDB) :
  ev_v event = Some v → v ≠ 0 →
  let seen := strip_metadata event in
  emits (handleResult models fault test_env error_listeners (Some event) s).2
  = (if truthy (ev_error event) then
       if bool_decide (error_listeners ≠ 0%nat) then [("error", seen)] else []
     else [("result", seen)])
    ++ [("handled", seen)] ∧
  ∀ result, ev_result seen = Some result → Obj.get "metadata" result = None.
Proof.
  intros Hv Hne. cbn zeta. split.
  - destruct (handleResult_run models fault test_env error_listeners
                event v s Hv Hne) as (ra & s1 & t1 & s2 & t3 & Ha & Ht & ->).
    cbn [snd]. rewrite !emits_app.
    rewrite (applyEvent_no_emit _ _ _ _ _ Ha).
    rewrite (triggerWaitingEvent_no_emit _ _ _ _ _ Ht).
    assert (emits (apply_log ra) = []) as -> by by destruct ra.
    rewrite app_nil_r. simpl. unfold emitted.
    rewrite strip_metadata_error, emits_app.
    destruct (truthy (ev_error event)); [case_bool_decide|]; done.
  - unfold strip_metadata. intros result.
    destruct (ev_result event) as [r|] eqn:Hr; [|by rewrite Hr].
    destruct event. simpl. intros [= <-]. apply Obj_get_remove.
Qed.

(** ** A turn that nothing disturbs *)

Local Abbreviation reducer_call :=
  (λ nr : string * ROut,
     if rtruthy nr.2 then store_applyChanges models fault nr.1 nr.2
     else act_ret (Returns ())).

Lemma Promise_all_returns (ps : list (Ret unit)) (s : ESDB) :
  Forall (λ p, p = Returns ()) ps → Promise_all ps s = (Returns (), s, []).
Proof.
  induction 1 as [|p ps -> _ IH]; [done|]. simpl. exact IH.
Qed.

Lemma elem_of_Obj_remove {A : Type} (k : string) (o : list (string * A))
    (kv : string * A) :
  kv ∈ Obj.remove k o → kv ∈ o ∧ kv.1 ≠ k.
Proof.
  induction o as [|[k' x] o IH]; simpl; [by intros ?%not_elem_of_nil|].
  destruct (String.eqb k k') eqn:E.
  - intros [? ?]%IH. split; [by right|done].
  - apply String.eqb_neq in E. intros [->|[? ?]%IH]%elem_of_cons.
    + split; [by left|]. simpl. congruence.
    + split; [by right|done].
Qed.

Lemma elem_of_drop_unchanged (names : list string) (result : list (string * ROut))
    (kv : string * ROut) :
  kv ∈ drop_unchanged names result → kv ∈ result.
Proof.
  revert result. induction names as [|n names IH]; intros result; [done|].
  simpl. intros H%IH.
  destruct (Obj.get n result) as [[| |]|]; try done;
    by apply elem_of_Obj_remove in H as [? _].
Qed.

(** The entries of a reduced event's [result] belong to [reducerNames]. *)
Lemma reducer_result_names (store : Store) (event out : Event)
    (result : list (string * ROut)) (kv : string * ROut) :
  reducer models store event = Returns out → ev_result out = Some result →
  kv ∈ result → kv.1 ∈ reducerNames models.
Proof.
  assert ("metadata" ∈ reducerNames models) as Hmeta.
  { unfold reducerNames. apply elem_of_app. right. by left. }
  unfold reducer.
  destruct (preprocessor models store event) as [reduced|e] eqn:Hp; [|done].
  simpl. destruct (truthy (ev_error reduced)) eqn:Herr.
  { intros [= <-]. simpl. intros [= <-]. by intros ->%list_elem_of_singleton. }
  set (full := modelReducer models store reduced).
  assert (Hnames : ∀ n, n ∈ reducerNames models → n ∈ full.*1).
  { intros n. unfold full. by rewrite modelReducer_names. }
  destruct (some_error_spec full (reducerNames models) Hnames)
    as (b & -> & _).
  simpl. destruct b.
  - destruct (collect_errors_spec full (reducerNames models) [] Hnames)
      as (error & -> & _).
    simpl. intros [= <-]. simpl. intros [= <-]. unfold only_metadata.
    destruct (Obj.get "metadata" full); [|by intros ?%not_elem_of_nil].
    by intros ->%list_elem_of_singleton.
  - intros [= <-]. simpl. intros [= <-]. intros H%elem_of_drop_unchanged.
    rewrite <- (modelReducer_names models store reduced).
    apply list_elem_of_fmap. by exists kv.
Qed.

(** With their tables in place and no write failing, all the reducer
    writes are started and all succeed. *)
Lemma reducer_calls_clean (l : list (string * ROut)) (s : ESDB) :
  (∀ n, fault n = None) →
  (∀ kv, kv ∈ l → rtruthy kv.2 = true →
         is_Some (tables (store s) !! kv.1) ∧ is_Some (Obj.get kv.1 models)) →
  ∃ ps s' t,
    map_calls reducer_call l s = (Returns ps, s', t) ∧
    Forall (λ p, p = Returns ()) ps.
Proof.
  intros Hfault. revert s. induction l as [|[name r] l IH]; intros s Hl.
  { by exists [], s, []. }
  assert (∃ s1 t1, reducer_call (name, r) s = (Returns (Returns ()), s1, t1) ∧
                   ∀ n, is_Some (tables (store s) !! n) →
                        is_Some (tables (store s1) !! n))
    as (s1 & t1 & H1 & Hkeep).
  { simpl. destruct (rtruthy r) eqn:Hr; [|by exists s, []].
    destruct (Hl (name, r)) as [[tbl Htbl] [m Hm]]; [by left|done|].
    unfold store_applyChanges. simpl in Htbl, Hm. rewrite Htbl, Hm.
    unfold start, act_bind, effect, db_write. rewrite Hfault.
    eexists _, _. split; [done|]. simpl. intros n Hn.
    apply lookup_insert_is_Some'. by right. }
  destruct (IH s1) as (ps & s' & t & Hrest & Hps).
  { intros kv Hkv Hr. destruct (Hl kv) as [? ?]; [by right|done|].
    split; [by apply Hkeep|done]. }
  exists (Returns () :: ps), s', (t1 ++ t ++ []).
  split; [|by constructor].
  cbn [map_calls]. unfold act_bind. rewrite H1, Hrest. done.
Qed.

Lemma deriver_calls_clean (event : Event) (result : list (string * ROut))
    (l : list (string *
           (option Table → Store → Event → list (string * ROut) → Store)))
    (s : ESDB) :
  (∀ n, fault n = None) →
  (∀ nd, nd ∈ l → ∀ tbl st ev res, meta (nd.2 tbl st ev res) = meta st) →
  ∃ ps s' t,
    map_calls (run_deriver fault event result) l s = (Returns ps, s', t) ∧
    Forall (λ p, p = Returns ()) ps ∧ meta (store s') = meta (store s).
Proof.
  intros Hfault. revert s. induction l as [|nd l IH]; intros s Hl.
  { by exists [], s, []. }
  set (s0 := set_writes (S (writes s)) s).
  destruct (IH (set_store
                  (nd.2 (tables (store s0) !! nd.1) (store s0) event result)
                  s0))
    as (ps & s' & t & Hrest & Hps & Hmeta).
  { intros nd' Hnd'. apply Hl. by right. }
  eexists (Returns () :: ps), s', _. split_and!; [|by constructor|].
  - cbn [map_calls]. unfold act_bind.
    unfold run_deriver at 1. unfold start, act_bind, effect, db_write.
    rewrite Hfault. cbn iota beta zeta. fold s0. rewrite Hrest. done.
  - rewrite Hmeta. simpl. apply Hl. by left.
Qed.

(** The apply phase of an event whose tables exist, when no write
    fails. *)
Lemma applyEvent_clean (event : Event) (result : list (string * ROut))
    (s : ESDB) :
  (∀ n, fault n = None) → derivers_keep_meta models →
  ev_result event = Some result →
  (∀ kv, kv ∈ Obj.remove "metadata" result → rtruthy kv.2 = true →
         is_Some (tables (store s) !! kv.1) ∧ is_Some (Obj.get kv.1 models)) →
  ∃ s' t,
    applyEvent models fault test_env event s = (Returns (), s', t) ∧
    queue s' = queue_put (strip_metadata event) (queue s) ∧
    meta (store s')
    = meta_applyChanges (Obj.get "metadata" result) (meta (store s)).
Proof.
  intros Hfault Hderive Hres Htables.
  set (s1 := set_queue
               (queue_put (with_result event (Obj.remove "metadata" result))
                  (queue s))
               (set_writes (S (writes s)) s)).
  destruct (reducer_calls_clean (Obj.remove "metadata" result) s1 Hfault)
    as (ps & s2 & t2 & H2 & Hps); [done|].
  pose proof (reducer_calls_keep models fault _ _ _ _ _ H2) as [Hm2 Hq2].
  simpl in Hm2, Hq2.
  set (s3 := set_store
               (mkStore (tables (store s2))
                  (meta_applyChanges (Obj.get "metadata" result)
                     (meta (store s2))))
               (set_writes (S (writes s2)) s2)).
  destruct (deriver_calls_clean
              (with_result event (Obj.remove "metadata" result))
              (Obj.remove "metadata" result) (hooks models m_deriver) s3 Hfault)
    as (ps' & s4 & t4 & H4 & Hps' & Hm4).
  { intros [name d] Hnd. by apply (Hderive name d). }
  pose proof (deriver_calls_keep fault _ _ _ _ _ _ _ H4) as Hq4.
  simpl in Hq4.
  assert (applyEvent_try models fault event s
          = (Returns (), s4,
             [QueueSet (with_result event (Obj.remove "metadata" result))]
               ++ t2 ++ [] ++ [ApplyChanges "metadata"
                                 (Obj.get "metadata" result)]
               ++ t4 ++ [])) as Htry.
  { unfold applyEvent_try. rewrite Hres. cbn zeta.
    unfold act_bind at 1. rewrite queue_set_run, Hfault.
    unfold act_bind at 1. fold s1. rewrite H2.
    unfold act_bind at 1. rewrite (Promise_all_returns ps s2 Hps).
    unfold act_bind at 1. rewrite metadata_applyChanges_run, Hfault.
    unfold act_bind at 1. fold s3. rewrite H4.
    rewrite (Promise_all_returns ps' s4 Hps'). done. }
  eexists s4, _. split_and!.
  - unfold applyEvent, catch. by rewrite Htry.
  - rewrite Hq4. simpl. rewrite Hq2. unfold strip_metadata. by rewrite Hres.
  - rewrite Hm4. simpl. by rewrite Hm2.
Qed.

Lemma metadata_reducer_ahead (st : Store) (event : Event) (v : Z) :
  ev_v event = Some v → 0 < v →
  match meta st with Some cv => cv | None => 0 end < v →
  metadata.reducer (Some (meta st)) event = version_change v.
Proof.
  intros Hv Hpos Hlt. unfold metadata.reducer. rewrite Hv. simpl.
  rewrite bool_decide_eq_true_2; [done|]. destruct (meta st); lia.
Qed.

(** [handleResult] on an event that carries the version change to [v]. *)
Lemma handleResult_clean (handed : Event) (result : list (string * ROut))
    (v : Z) (s : ESDB) :
  (∀ n, fault n = None) → derivers_keep_meta models →
  ev_result handed = Some result →
  (∀ kv, kv ∈ Obj.remove "metadata" result → rtruthy kv.2 = true →
         is_Some (tables (store s) !! kv.1) ∧ is_Some (Obj.get kv.1 models)) →
  ev_v handed = Some v → v ≠ 0 →
  Obj.get "metadata" result = Some (version_change v) →
  ∃ s' t,
    handleResult models fault test_env error_listeners (Some handed) s
    = (Returns (), s', t) ∧
    getVersion s' = v ∧
    queue s' = queue_put (strip_metadata handed) (queue s) ∧
    (∀ o, _waitingFor s !! v = Some o → settle o (strip_metadata handed) ∈ t) ∧
    (∀ e, e ∈ t → ¬ is_log e) ∧
    _waitingFor s' !! v = None.
Proof.
  intros Hfault Hderive Hres Htables Hv Hne Hmd.
  destruct (applyEvent_clean handed result s Hfault Hderive Hres Htables)
    as (s1 & t1 & Ha & Hq1 & Hm1).
  destruct (handleResult_run models fault test_env error_listeners
              handed v s Hv Hne) as (ra & s1' & t1' & s2 & t3 & Ha' & Ht & ->).
  rewrite Ha in Ha'. injection Ha' as <- <- <-.
  pose proof (applyEvent_trace models fault test_env _ _ _ _ _ Ha)
    as [[_ ->]|(? & ? & ? & _)]; [|done].
  apply applyEvent_frame in Ha as (Hw & _).
  destruct (triggerWaitingEvent_run (strip_metadata handed) v s1)
    as (s2' & Ht' & Hw2 & Hq2 & Hs2 & _); [by rewrite strip_metadata_v|].
  rewrite Ht' in Ht. injection Ht as <- <-.
  eexists _, _. split; [done|]. split_and!;
    [| | | |rewrite Hw2; case_bool_decide;
            [apply lookup_empty|apply lookup_delete_eq]].
  - unfold getVersion. rewrite Hs2, Hm1, Hmd. done.
  - by rewrite Hq2.
  - intros o Ho. rewrite !elem_of_app. right. right. right. left.
    rewrite Hw, Ho. by left.
  - intros e. rewrite !elem_of_app. intros [He|[He|[He|[He|He]]]] Hlog.
    + apply apply_plan_phase in He. by destruct e.
    + by apply not_elem_of_nil in He.
    + unfold emitted in He.
      destruct (truthy _); [case_bool_decide|]; simpl in He;
        rewrite ?elem_of_cons, ?elem_of_nil in He;
        destruct_or?; simplify_eq; destruct Hlog.
    + destruct (_waitingFor s1 !! v); [|by apply not_elem_of_nil in He].
      apply list_elem_of_singleton in He as ->. unfold settle in Hlog.
      by destruct (truthy _).
    + case_bool_decide; [|by apply not_elem_of_nil in He].
      apply list_elem_of_fmap in He as (vo & -> & _).
      unfold sweep_one, settle in Hlog.
      destruct (queue_get _ _); [destruct (truthy _)|]; done.
Qed.

(** The turn that handles a reduced event ahead of the applied version,
    when nothing fails. *)
Lemma clean_turn_run (lastV : option Z) (s : ESDB)
    (event handed : Event) (v : Z) :
  (∀ n, fault n = None) → derivers_keep_meta models →
  tables_present models (store s) → "metadata" ∉ models.*1 →
  getNext (queue s) (getVersion s) = Some event →
  reducer models (store s) event = Returns handed →
  ev_v handed = Some v → 0 < v → getVersion s < v →
  ∃ s2 t,
    handleResult models fault test_env error_listeners (Some handed)
      (set_redux_state (Some handed) (set_reduxInited true s))
    = (Returns (), s2, t) ∧
    _waitForEvent_turn models fault test_env error_listeners lastV s
    = (Returns (if _reallyStop s2 then Return None else Again (ev_v event)),
       (if _reallyStop s2 then set_reallyStop false s2 else s2), t) ∧
    getVersion s2 = v ∧
    queue s2 = <[v := strip_metadata handed]> (queue s) ∧
    (∀ o, _waitingFor s !! v = Some o → settle o (strip_metadata handed) ∈ t) ∧
    (∀ e, e ∈ t → ¬ is_log e) ∧
    _waitingFor s2 !! v = None.
Proof.
  intros Hfault Hderive Htables Hmeta Hnext Hred Hv Hpos Hlt.
  destruct (_waitForEvent_turn_run lastV s event Hnext)
    as (handed' & s1 & s2 & t & Hs1 & Hh & Hturn).
  destruct Hs1 as [[Hred' ->]|(err & Hred' & _)]; [|congruence].
  assert (handed' = handed) as -> by congruence.
  destruct (reducer_inv (store s) event handed Hred)
    as (reduced & result & _ & Hvr & Hres & Hmd).
  specialize (Hmd Hmeta).
  rewrite (metadata_reducer_ahead (store s) reduced v) in Hmd;
    [|congruence|done|done].
  destruct (handleResult_clean handed result v
              (set_redux_state (Some handed) (set_reduxInited true s)))
    as (s2' & t' & Hh' & Hver & Hq & Hw & Hlog & Hgone); try done; [|lia|].
  { intros kv [Hkv Hname]%elem_of_Obj_remove _.
    pose proof (reducer_result_names _ _ _ _ _ Hred Hres Hkv) as Hin.
    unfold reducerNames in Hin. apply elem_of_app in Hin as [Hin|Hin];
      [|by apply list_elem_of_singleton in Hin].
    apply hooks_subset in Hin. split; [by apply Htables|].
    destruct (Obj_get_Some kv.1 models Hin) as [m ->]. by eexists. }
  rewrite Hh in Hh'. injection Hh' as <- <-.
  exists s2, t. split_and!; try done.
  rewrite Hq. unfold queue_put. by rewrite strip_metadata_v, Hv.
Qed.

Lemma handledVersion_applied (v : Z) (s : ESDB) (event : Event) :
  v ≠ 0 → v ≤ getVersion s → queue s !! v = Some event →
  handledVersion v s = (settle_with event, s).
Proof.
  intros Hne Hle Hq. unfold handledVersion, queue_get.
  rewrite (bool_decide_eq_false_2 (v = 0)) by done.
  rewrite (bool_decide_eq_true_2 (v ≤ getVersion s)) by done.
  by rewrite Hq.
Qed.

(** X5. A turn that nothing disturbs makes progress. With every model's
    table in place, no write failing and derivers that leave the applied
    version alone, the turn that handles a reduced event with version [v]
    ahead of the applied one leaves [v] as the applied version, writes the
    event, without its metadata entry, to its queue row, settles the waiter
    of [v] on that event and removes it, and logs no error. Who asks for
    [v] afterwards gets the answer the waiter got. *)
Theorem clean_turn_advances (lastV : option Z) (s : ESDB)
    (event handed : Event) (v : Z) :
  (∀ n, fault n = None) → derivers_keep_meta models →
  tables_present models (store s) → "metadata" ∉ models.*1 →
  getNext (queue s) (getVersion s) = Some event →
  reducer models (store s) event = Returns handed →
  ev_v handed = Some v → 0 < v → getVersion s < v →
  let run := _waitForEvent_turn models fault test_env error_listeners lastV s in
  let seen := strip_metadata handed in
  getVersion run.1.2 = v ∧
  queue run.1.2 = <[v := seen]> (queue s) ∧
  (∀ o, _waitingFor s !! v = Some o → settle o seen ∈ run.2) ∧
  (∀ e, e ∈ run.2 → ¬ is_log e) ∧
  _waitingFor run.1.2 !! v = None ∧
  handledVersion v run.1.2 = (settle_with seen, run.1.2).
Proof.
  intros Hfault Hderive Htables Hmeta Hnext Hred Hv Hpos Hlt. cbn zeta.
  destruct (clean_turn_run lastV s event handed v)
    as (s2 & t & _ & -> & Hver & Hq & Hw & Hlog & Hgone); try done.
  cbn [fst snd].
  assert (_waitingFor (if _reallyStop s2 then set_reallyStop false s2 else s2)
          = _waitingFor s2) as Hw' by by destruct (_reallyStop s2).
  assert (getVersion (if _reallyStop s2 then set_reallyStop false s2 else s2)
          = v) as Hver' by by destruct (_reallyStop s2).
  assert (queue (if _reallyStop s2 then set_reallyStop false s2 else s2)
          = <[v := strip_metadata handed]> (queue s)) as Hq'
    by by destruct (_reallyStop s2).
  split_and!; try done; [by rewrite Hw'|].
  apply handledVersion_applied; [lia|lia|].
  rewrite Hq'. apply lookup_insert_eq.
Qed.


(** ** Construction and [dispatch] *)



Lemma queue_latest_ge (q : gmap Z Event) (k : Z) (e : Event) :
  q !! k = Some e → k ≤ queue_latest q.
Proof.
  intros Hk%elem_of_map_to_list. unfold queue_latest.
  induction (map_to_list q) as [|kv l IH]; [by apply not_elem_of_nil in Hk|].
  simpl. apply elem_of_cons in Hk as [<-|Hk]; [simpl; lia|].
  specialize (IH Hk). lia.
Qed.

Lemma queue_latest_nonneg (q : gmap Z Event) : 0 ≤ queue_latest q.
Proof.
  unfold queue_latest. induction (map_to_list q) as [|kv l IH]; simpl; lia.
Qed.

(** The event [queue.add] has just stored is the next one when all the
    others are applied. *)
Lemma getNext_added (q : gmap Z Event) (cur v : Z) (event : Event) :
  (∀ k e, q !! k = Some e → k ≤ cur) → cur < v →
  getNext (<[v := event]> q) cur = Some event.
Proof.
  intros Hold Hlt.
  destruct (getNext_is_Some (<[v := event]> q) cur v event) as [e' He'];
    [apply lookup_insert_eq|done|].
  rewrite He'. f_equal.
  apply getNext_Some in He' as (k & Hk & Hcur & _).
  apply lookup_insert_Some in Hk as [[_ ->]|[_ Hk]]; [done|].
  apply Hold in Hk. lia.
Qed.

(** X13. From [dispatch] to the answer. On an instance whose loop is
    running and which has applied all its queue holds, [dispatch] stores
    the event under the next version and returns the promise of a waiter;
    when nothing fails and the reducer returns the event under that
    version, the next step of the loop makes it the applied version,
    settles that promise on the event (resolving it, or rejecting it when
    the event carries an error) and removes the waiter. *)
Theorem dispatch_is_answered (type : string) (data : Val) (ts : Z)
    (lastV : option Z) (s : ESDB) (handed : Event) :
  (∀ n, fault n = None) → derivers_keep_meta models →
  tables_present models (store s) → "metadata" ∉ models.*1 →
  _waitingP s = Some (FirstRun lastV) →
  getVersion s = queue_latest (queue s) →
  let v := queue_latest (queue s) + 1 in
  reducer models (store s) (queue_add type data ts (queue s)) = Returns handed →
  ev_v handed = Some v →
  let sent := dispatch type data ts s in
  let run := poll_step models fault test_env error_listeners sent.2 in
  ∃ o, sent.1 = Pending o ∧
       settle o (strip_metadata handed) ∈ run.2 ∧
       getVersion run.1.2 = v ∧
       queue run.1.2 !! v = Some (strip_metadata handed) ∧
       _waitingFor run.1.2 !! v = None.
Proof.
  intros Hfault Hderive Htables Hmeta Hp Hall v Hred Hv. cbn zeta.
  pose proof (queue_latest_nonneg (queue s)) as Hnn.
  set (event := queue_add type data ts (queue s)) in *.
  set (s0 := set_queue (queue_put event (queue s)) s).
  assert (∃ o s1, handledVersion v s0 = (Pending o, s1) ∧
                  _waitingFor s1 !! v = Some o ∧
                  _waitingP s1 = Some (FirstRun lastV) ∧
                  store s1 = store s ∧
                  queue s1 = <[v := event]> (queue s))
    as (o & s1 & Hsent & Hwo & Hp1 & Hst1 & Hq1).
  { destruct (_waitingFor s0 !! v) as [o|] eqn:Hw.
    - exists o, s0. split_and!; try done.
      unfold handledVersion.
      rewrite (bool_decide_eq_false_2 (v = 0)) by (unfold v; lia).
      rewrite (bool_decide_eq_false_2 (v ≤ getVersion s0))
        by (change (getVersion s0) with (getVersion s); unfold v; lia).
      by rewrite Hw.
    - eexists (promises s0), _. split.
      + apply handledVersion_registers; [unfold v; lia| |done].
        change (getVersion s0) with (getVersion s). unfold v. lia.
      + rewrite (startPolling_want v) by (unfold v; lia).
        split_and!; simpl; try done.
        * apply lookup_insert_eq.
        * by rewrite Hp. }
  assert (dispatch type data ts s = (Pending o, s1)) as ->.
  { unfold dispatch. cbn zeta. exact Hsent. }
  cbn [fst snd].
  destruct (clean_turn_run lastV s1 event handed v)
    as (s2 & t & _ & Hturn & Hver & Hq & Hw & _ & Hgone); try done.
  { by rewrite Hst1. }
  { rewrite Hq1. apply getNext_added.
    - intros k e Hk%queue_latest_ge. unfold getVersion. rewrite Hst1.
      fold (getVersion s). lia.
    - unfold getVersion. rewrite Hst1. fold (getVersion s). unfold v. lia. }
  { by rewrite Hst1. }
  { unfold v. lia. }
  { unfold getVersion. rewrite Hst1. fold (getVersion s). unfold v. lia. }
  rewrite (poll_step_first_run lastV s1 _ _ _ Hp1 Hturn). cbn [fst snd].
  assert (queue s2 !! v = Some (strip_metadata handed)) as Hrow
    by (rewrite Hq; apply lookup_insert_eq).
  exists o. split; [done|]. split; [by apply Hw|].
  destruct (_reallyStop s2); split_and!;
    first [exact Hver | exact Hrow | exact Hgone].
Qed.

(** ** A deriver that fails *)

(** When the [try] block of [applyEvent] fails after a deriver was
    called, the queue row and the metadata change are already written. *)
Lemma applyEvent_try_deriver_failed (event : Event)
    (result : list (string * ROut)) (s s' : ESDB) (e : Err)
    (t : list Effect) :
  derivers_keep_meta models → ev_result event = Some result →
  applyEvent_try models fault event s = (Throws e, s', t) →
  (∃ x, x ∈ t ∧ is_deriver x) →
  meta (store s')
  = meta_applyChanges (Obj.get "metadata" result) (meta (store s)) ∧
  queue s' = queue_put (strip_metadata event) (queue s).
Proof.
  intros Hderive Hres. unfold applyEvent_try, strip_metadata. rewrite Hres.
  set (metadata := Obj.get "metadata" result).
  set (kept := Obj.remove "metadata" result).
  set (event' := with_result event kept).
  intros H (x & Hx & Hdx).
  assert (Hcalls : ∀ y, y ∈ reducer_calls kept → ¬ is_deriver y).
  { intros y Hy Hdy. apply phase_reducer_call in Hy. by destruct y. }
  apply act_bind_inv in H
    as [(e' & H & _) | ([] & s1 & t1 & t2 & H1 & H & ->)].
  { rewrite queue_set_run in H.
    destruct (fault (writes s)); simplify_eq.
    apply list_elem_of_singleton in Hx as ->. destruct Hdx. }
  rewrite queue_set_run in H1.
  destruct (fault (writes s)); [done|]. injection H1 as <- <-.
  apply act_bind_inv in H
    as [(e' & H & _) | (ps & s2 & t3 & t4 & H2 & H & ->)].
  { exfalso. apply reducer_calls_trace in H as [Hpre _].
    apply elem_of_app in Hx as [->%list_elem_of_singleton|Hx];
      [destruct Hdx|].
    eapply Hcalls; [|exact Hdx]. by eapply elem_of_prefix. }
  pose proof (reducer_calls_trace models fault _ _ _ _ _ H2) as [_ Ht3].
  specialize (Ht3 ps eq_refl). subst t3.
  apply reducer_calls_keep in H2 as [Hm2 Hq2]. simpl in Hm2, Hq2.
  apply act_bind_inv in H
    as [(e' & H & _) | ([] & s3 & t5 & t6 & H3 & H & ->)].
  { exfalso. apply Promise_all_trace in H as [-> _].
    rewrite app_nil_r in Hx.
    apply elem_of_app in Hx as [->%list_elem_of_singleton|Hx];
      [destruct Hdx|].
    by eapply Hcalls. }
  apply Promise_all_trace in H3 as [-> ->].
  apply act_bind_inv in H
    as [(e' & H & _) | ([] & s4 & t7 & t8 & H4 & H & ->)].
  { rewrite metadata_applyChanges_run in H.
    destruct (fault (writes s2)); [|done]. simplify_eq. exfalso.
    rewrite !elem_of_app in Hx.
    destruct Hx as [->%list_elem_of_singleton|[Hx|[Hx|Hx]]].
    - destruct Hdx.
    - by eapply Hcalls.
    - by apply not_elem_of_nil in Hx.
    - apply list_elem_of_singleton in Hx as ->. destruct Hdx. }
  rewrite metadata_applyChanges_run in H4.
  destruct (fault (writes s2)); [done|]. injection H4 as <- <-.
  apply act_bind_inv in H
    as [(e' & H & _) | (ps'' & s6 & t9 & t10 & H5 & H & ->)].
  { match type of H with
    | map_calls _ _ ?s0 = _ =>
        destruct (deriver_calls_trace fault event' kept
                    (hooks models m_deriver) s0) as (ps' & s5 & Hd)
    end.
    rewrite Hd in H. done. }
  apply Promise_all_trace in H as [_ ->].
  pose proof (deriver_calls_keep fault _ _ _ _ _ _ _ H5) as Hq5.
  apply deriver_calls_meta in H5.
  2:{ intros [name d] Hnd. by apply (Hderive name d). }
  simpl in H5, Hq5. split.
  - by rewrite H5, Hm2.
  - by rewrite Hq5, Hq2.
Qed.

(** X14. A failure after the metadata change is not retried. When the
    apply phase of the event with version [v] fails once a deriver has
    been called, [handleResult] logs that the changes were not applied,
    but the metadata change has been applied: with derivers that leave the
    applied version alone, [v] is the applied version, the queue row of
    [v] carries the result, and the next [getNext] skips to a later
    version. *)
Theorem deriver_failure_is_not_retried (event : Event)
    (result : list (string * ROut)) (v : Z) (s : ESDB) (err : Err) :
  derivers_keep_meta models →
  map_Forall (λ k e, ev_v e = Some k) (queue s) →
  ev_v event = Some v → v ≠ 0 →
  ev_result event = Some result →
  Obj.get "metadata" result = Some (version_change v) →
  let applied := applyEvent models fault test_env event s in
  applied.1.1 = Throws err →
  (∃ e, e ∈ applied.2 ∧ is_deriver e) →
  let out := handleResult models fault test_env error_listeners (Some event) s in
  ConsoleError "!!! Error while applying event; changes not applied" err
    ∈ out.2 ∧
  getVersion out.1.2 = v ∧
  queue out.1.2 !! v = Some (strip_metadata event) ∧
  (∀ next, getNext (queue out.1.2) (getVersion out.1.2) = Some next →
           ∃ k, ev_v next = Some k ∧ v < k).
Proof.
  intros Hderive Hwf Hv Hne Hres Hmd applied Hfail Hd out.
  destruct (handleResult_run models fault test_env error_listeners
              event v s Hv Hne) as (ra & s1 & t1 & s2 & t3 & Ha & Ht & Hrun).
  subst applied out. rewrite Ha in Hfail, Hd. rewrite Hrun.
  simpl in Hfail, Hd. subst ra. cbn [fst snd].
  apply applyEvent_failed_inv in Ha as (t0 & Htry & ->).
  apply (applyEvent_try_deriver_failed event result) in Htry
    as [Hmeta Hqueue]; [|done|done|].
  2:{ destruct Hd as (x & Hx & Hdx). exists x. split; [|done].
      apply elem_of_app in Hx as [Hx|Hx]; [done|].
      destruct test_env; [by apply not_elem_of_nil in Hx|].
      apply list_elem_of_singleton in Hx as ->. destruct Hdx. }
  destruct (triggerWaitingEvent_run (strip_metadata event) v s1)
    as (s2' & Ht' & _ & Hq2 & Hst2 & _); [by rewrite strip_metadata_v|].
  rewrite Ht in Ht'. injection Ht' as <- ->.
  assert (Hver : getVersion s2 = v).
  { unfold getVersion. by rewrite Hst2, Hmeta, Hmd. }
  assert (Hput : queue s2 = <[v := strip_metadata event]> (queue s)).
  { rewrite Hq2, Hqueue. unfold queue_put. by rewrite strip_metadata_v, Hv. }
  split_and!.
  - rewrite !elem_of_app. right. left. simpl. by left.
  - exact Hver.
  - rewrite Hput. apply lookup_insert_eq.
  - intros next Hnext. apply getNext_Some in Hnext as (k & Hk & Hlt & _).
    exists k. rewrite Hver in Hlt. split; [|done].
    rewrite Hput in Hk. rewrite lookup_insert_ne in Hk by lia.
    by apply Hwf in Hk.
Qed.

End Coverage.

(** * Closed instances of the further properties *)

Lemma no_fault_never (n : nat) : Sample.no_fault n = None.
Proof. reflexivity. Qed.

Lemma tally_keeps_meta : derivers_keep_meta Sample.models_tally.
Proof.
  intros name d Hd.
  change (hooks Sample.models_tally m_deriver)
    with [("tally", Sample.tally)] in Hd.
  apply list_elem_of_singleton in Hd. injection Hd as -> ->. reflexivity.
Qed.


Lemma tally_tables (s : ESDB) :
  tables (store s) = tables (store (Sample.esdb Sample.models_tally
                                      Sample.empty_db ∅)) →
  tables_present Sample.models_tally (store s).
Proof.
  intros Heq name Hname. rewrite Heq.
  change (Sample.models_tally.*1) with ["counter"; "tally"] in Hname.
  apply elem_of_cons in Hname as [->|Hname];
    [|apply list_elem_of_singleton in Hname as ->];
    by eexists; vm_compute.
Qed.

Lemma tally_no_metadata : "metadata" ∉ Sample.models_tally.*1.
Proof.
  change (Sample.models_tally.*1) with ["counter"; "tally"].
  rewrite !not_elem_of_cons. split_and!; [done|done|apply not_elem_of_nil].
Qed.

Lemma dispatched_waiters_ok : waiters_ok Sample.dispatched.
Proof.
  split.
  - intros v o Hv.
    change (_waitingFor Sample.dispatched)
      with (<[1 := 0%nat]> (∅ : gmap Z nat)) in Hv.
    apply lookup_insert_Some in Hv as [[<- <-]|[_ Hv]];
      [|by rewrite lookup_empty in Hv].
    vm_compute. split_and!; (discriminate || constructor).
  - intros v1 v2 o H1 H2.
    change (_waitingFor Sample.dispatched)
      with (<[1 := 0%nat]> (∅ : gmap Z nat)) in H1, H2.
    apply lookup_insert_Some in H1 as [[<- <-]|[_ H1]];
      [|by rewrite lookup_empty in H1].
    apply lookup_insert_Some in H2 as [[<- _]|[_ H2]];
      [done|by rewrite lookup_empty in H2].
Qed.

Lemma reducer_drops_unchanged_witness :
  let result := modelReducer Sample.models Sample.empty_db (Sample.noop 1) in
  preprocessor Sample.models Sample.empty_db (Sample.noop 1)
  = Returns (Sample.noop 1) ∧
  truthy (ev_error (Sample.noop 1)) = false ∧
  (∀ name r, name ∈ reducerNames Sample.models →
             Obj.get name result = Some r → truthy (rerror r) = false) ∧
  ∃ kept,
    reducer Sample.models Sample.empty_db (Sample.noop 1)
    = Returns (with_result (Sample.noop 1) kept) ∧
    Obj.get "counter" kept = None ∧
    Obj.get "metadata" kept = Some (version_change 1).
Proof.
  cbv zeta.
  assert (H1 : preprocessor Sample.models Sample.empty_db (Sample.noop 1)
               = Returns (Sample.noop 1)) by reflexivity.
  assert (H2 : truthy (ev_error (Sample.noop 1)) = false) by reflexivity.
  assert (H3 : ∀ name r, name ∈ reducerNames Sample.models →
                 Obj.get name (modelReducer Sample.models Sample.empty_db
                                 (Sample.noop 1)) = Some r →
                 truthy (rerror r) = false).
  { intros name r Hname.
    change (reducerNames Sample.models) with ["counter"; "metadata"] in Hname.
    apply elem_of_cons in Hname as [->|Hname];
      [|apply list_elem_of_singleton in Hname as ->];
      vm_compute; by intros [= <-]. }
  split_and!; [exact H1|exact H2|exact H3|].
  destruct (reducer_drops_unchanged Sample.models Sample.empty_db
              (Sample.noop 1) (Sample.noop 1) H1 H2 H3) as (kept & Hred & Hkept).
  exists kept. split_and!; [exact Hred|apply Hkept|apply Hkept].
Defined.

Lemma reducer_retains_version_witness :
  (∀ name hook e e',
     (name, hook) ∈ hooks Sample.models_stamp m_preprocessor →
     hook e (tables Sample.empty_db !! name) Sample.empty_db
     = Returns (e', None) →
     ev_v e' = ev_v e) ∧
  (∀ out, reducer Sample.models_stamp Sample.empty_db (Sample.inc 1)
          = Returns out → ev_v out = Some 1).
Proof.
  assert (H1 : ∀ name hook e e',
            (name, hook) ∈ hooks Sample.models_stamp m_preprocessor →
            hook e (tables Sample.empty_db !! name) Sample.empty_db
            = Returns (e', None) →
            ev_v e' = ev_v e).
  { intros name hook e e' Hin.
    change (hooks Sample.models_stamp m_preprocessor)
      with [("stamp", Sample.stamp)] in Hin.
    apply list_elem_of_singleton in Hin. injection Hin as -> ->.
    unfold Sample.stamp. by intros [= <-]. }
  split; [exact H1|].
  exact (proj2 (reducer_retains_version Sample.models_stamp Sample.empty_db
                  (Sample.inc 1) H1)).
Defined.

Lemma reducer_result_has_metadata_witness :
  ("metadata" ∉ Sample.models_tally.*1) ∧
  reducer Sample.models_tally Sample.empty_db (Sample.inc 1)
  = Returns (Sample.reduced 1) ∧
  ∃ result,
    ev_result (Sample.reduced 1) = Some result ∧
    Obj.get "metadata" result
    = Some (metadata.reducer (Some (meta Sample.empty_db)) (Sample.reduced 1)).
Proof.
  assert (H2 : reducer Sample.models_tally Sample.empty_db (Sample.inc 1)
               = Returns (Sample.reduced 1)) by reflexivity.
  split_and!; [exact tally_no_metadata|exact H2|].
  exact (reducer_result_has_metadata Sample.models_tally Sample.empty_db
           (Sample.inc 1) (Sample.reduced 1) tally_no_metadata H2).
Defined.

Lemma clean_turn_advances_witness :
  let s := Sample.dispatched_on Sample.models_tally in
  let run := _waitForEvent_turn Sample.models_tally Sample.no_fault true 0
               (Some 0) s in
  (∀ n, Sample.no_fault n = None) ∧
  derivers_keep_meta Sample.models_tally ∧
  tables_present Sample.models_tally (store s) ∧
  ("metadata" ∉ Sample.models_tally.*1) ∧
  getNext (queue s) (getVersion s) = Some (Sample.inc 1) ∧
  reducer Sample.models_tally (store s) (Sample.inc 1)
  = Returns (Sample.reduced 1) ∧
  ev_v (Sample.reduced 1) = Some 1 ∧ 0 < 1 ∧ getVersion s < 1 ∧
  getVersion run.1.2 = 1 ∧
  queue run.1.2 = <[1 := Sample.stripped 1]> (queue s) ∧
  handledVersion 1 run.1.2 = (Resolved (Some (Sample.stripped 1)), run.1.2).
Proof.
  cbv zeta.
  assert (H3 : tables_present Sample.models_tally
                 (store (Sample.dispatched_on Sample.models_tally)))
    by (by apply tally_tables).
  assert (H5 : getNext (queue (Sample.dispatched_on Sample.models_tally))
                 (getVersion (Sample.dispatched_on Sample.models_tally))
               = Some (Sample.inc 1)) by (vm_compute; reflexivity).
  assert (H6 : reducer Sample.models_tally
                 (store (Sample.dispatched_on Sample.models_tally))
                 (Sample.inc 1)
               = Returns (Sample.reduced 1)) by (vm_compute; reflexivity).
  assert (H7 : ev_v (Sample.reduced 1) = Some 1) by reflexivity.
  assert (H8 : 0 < 1) by lia.
  assert (H9 : getVersion (Sample.dispatched_on Sample.models_tally) < 1)
    by (vm_compute; reflexivity).
  pose proof (clean_turn_advances Sample.models_tally Sample.no_fault true 0
                (Some 0) (Sample.dispatched_on Sample.models_tally)
                (Sample.inc 1) (Sample.reduced 1) 1
                no_fault_never tally_keeps_meta H3 tally_no_metadata
                H5 H6 H7 H8 H9) as (Hver & Hq & _ & _ & _ & Hlate).
  split_and!; [exact no_fault_never|exact tally_keeps_meta|exact H3
              |exact tally_no_metadata|exact H5|exact H6|exact H7|exact H8
              |exact H9|exact Hver|exact Hq|exact Hlate].
Defined.


Lemma stop_flag_ends_the_run_witness :
  let s := startPolling None (stopPolling Sample.dispatched) in
  let s' := (poll_step Sample.models Sample.no_fault true 0 s).1.2 in
  _reallyStop s = true ∧ _waitingP s = Some (FirstRun (Some 0)) ∧
  is_Some (getNext (queue s) (getVersion s)) ∧
  _isPolling s = true ∧
  _waitingP s' = None ∧ _reallyStop s' = false ∧ _isPolling s' = _isPolling s.
Proof.
  cbv zeta.
  assert (H1 : _reallyStop (startPolling None (stopPolling Sample.dispatched))
               = true) by reflexivity.
  assert (H2 : _waitingP (startPolling None (stopPolling Sample.dispatched))
               = Some (FirstRun (Some 0))) by reflexivity.
  assert (H3 : is_Some
                 (getNext
                    (queue (startPolling None (stopPolling Sample.dispatched)))
                    (getVersion
                       (startPolling None (stopPolling Sample.dispatched)))))
    by (exists (Sample.inc 1); vm_compute; reflexivity).
  pose proof (stop_flag_ends_the_run Sample.models Sample.no_fault true 0
                (Some 0) (startPolling None (stopPolling Sample.dispatched))
                H1 H2) as (_ & Hend & _).
  split_and!; [exact H1|exact H2|exact H3|reflexivity|..]; apply (Hend H3).
Defined.

Lemma waiters_stay_well_formed_witness :
  waiters_ok Sample.dispatched ∧
  waiters_ok (handledVersion 7 Sample.dispatched).2 ∧
  waiters_ok (dispatch "inc" VNull 0 Sample.dispatched).2 ∧
  waiters_ok (poll_steps Sample.models Sample.no_fault true 0 3
                Sample.dispatched).1.2.
Proof.
  pose proof (waiters_stay_well_formed Sample.models Sample.no_fault true 0
                Sample.dispatched dispatched_waiters_ok)
    as (Hh & _ & _ & Hd & Hp).
  split_and!; [exact dispatched_waiters_ok|exact (Hh 7)
              |exact (Hd "inc" VNull 0)|exact (Hp 3%nat)].
Defined.

Lemma no_promise_settled_twice_witness :
  let run := poll_steps Sample.models Sample.no_fault true 0 3
               Sample.dispatched in
  waiters_ok Sample.dispatched ∧
  NoDup (settled run.2) ∧
  (0%nat ∈ settled run.2 → _waitingFor run.1.2 !! 1 ≠ Some 0%nat).
Proof.
  cbv zeta.
  pose proof (no_promise_settled_twice Sample.models Sample.no_fault true 0 3
                Sample.dispatched dispatched_waiters_ok) as [Hnd Hreg].
  split_and!; [exact dispatched_waiters_ok|exact Hnd|].
  intros Ho. exact (proj2 (Hreg 0%nat Ho) 1).
Defined.

Lemma handleResult_emits_witness :
  ev_v (Sample.reduced 1) = Some 1 ∧ 1 ≠ 0 ∧
  emits (handleResult Sample.models Sample.no_fault true 0
           (Some (Sample.reduced 1)) Sample.dispatched).2
  = [("result", Sample.stripped 1); ("handled", Sample.stripped 1)].
Proof.
  assert (H1 : ev_v (Sample.reduced 1) = Some 1) by reflexivity.
  assert (H2 : 1 ≠ 0) by lia.
  split_and!; [exact H1|exact H2|].
  exact (proj1 (handleResult_emits Sample.models Sample.no_fault true 0
                  (Sample.reduced 1) 1 Sample.dispatched H1 H2)).
Defined.

Lemma dispatch_is_answered_witness :
  let s := Sample.esdb Sample.models_tally Sample.empty_db ∅ in
  let sent := dispatch "inc" VNull 0 s in
  let run := poll_step Sample.models_tally Sample.no_fault true 0 sent.2 in
  (∀ n, Sample.no_fault n = None) ∧
  derivers_keep_meta Sample.models_tally ∧
  tables_present Sample.models_tally (store s) ∧
  ("metadata" ∉ Sample.models_tally.*1) ∧
  _waitingP s = Some (FirstRun (Some 0)) ∧
  getVersion s = queue_latest (queue s) ∧
  reducer Sample.models_tally (store s) (queue_add "inc" VNull 0 (queue s))
  = Returns (Sample.reduced 1) ∧
  ev_v (Sample.reduced 1) = Some (queue_latest (queue s) + 1) ∧
  ∃ o, sent.1 = Pending o ∧
       settle o (Sample.stripped 1) ∈ run.2 ∧
       getVersion run.1.2 = 1 ∧
       queue run.1.2 !! 1 = Some (Sample.stripped 1) ∧
       _waitingFor run.1.2 !! 1 = None.
Proof.
  cbv zeta.
  assert (H3 : tables_present Sample.models_tally
                 (store (Sample.esdb Sample.models_tally Sample.empty_db ∅)))
    by (by apply tally_tables).
  assert (H5 : _waitingP (Sample.esdb Sample.models_tally Sample.empty_db ∅)
               = Some (FirstRun (Some 0))) by reflexivity.
  assert (H6 : getVersion (Sample.esdb Sample.models_tally Sample.empty_db ∅)
               = queue_latest
                   (queue (Sample.esdb Sample.models_tally Sample.empty_db ∅)))
    by (vm_compute; reflexivity).
  assert (H7 : reducer Sample.models_tally
                 (store (Sample.esdb Sample.models_tally Sample.empty_db ∅))
                 (queue_add "inc" VNull 0
                    (queue (Sample.esdb Sample.models_tally Sample.empty_db ∅)))
               = Returns (Sample.reduced 1)) by (vm_compute; reflexivity).
  assert (H8 : ev_v (Sample.reduced 1)
               = Some (queue_latest
                         (queue (Sample.esdb Sample.models_tally
                                   Sample.empty_db ∅)) + 1))
    by (vm_compute; reflexivity).
  split_and!; [exact no_fault_never|exact tally_keeps_meta|exact H3
              |exact tally_no_metadata|exact H5|exact H6|exact H7|exact H8|].
  exact (dispatch_is_answered Sample.models_tally Sample.no_fault true 0
           "inc" VNull 0 (Some 0)
           (Sample.esdb Sample.models_tally Sample.empty_db ∅)
           (Sample.reduced 1)
           no_fault_never tally_keeps_meta H3 tally_no_metadata H5 H6 H7 H8).
Defined.

Lemma deriver_failure_is_not_retried_witness :
  let s := Sample.dispatched_on Sample.models_tally in
  let applied := applyEvent Sample.models_tally (Sample.fault_at 3) true
                   (Sample.reduced 1) s in
  let out := handleResult Sample.models_tally (Sample.fault_at 3) true 0
               (Some (Sample.reduced 1)) s in
  derivers_keep_meta Sample.models_tally ∧
  map_Forall (λ k e, ev_v e = Some k) (queue s) ∧
  ev_v (Sample.reduced 1) = Some 1 ∧ 1 ≠ 0 ∧
  ev_result (Sample.reduced 1)
  = Some [("counter", RChange [("ins", Sample.inc_rows)]);
          ("metadata", version_change 1)] ∧
  applied.1.1 = Throws Sample.io_error ∧
  (∃ e, e ∈ applied.2 ∧ is_deriver e) ∧
  getVersion out.1.2 = 1 ∧
  queue out.1.2 !! 1 = Some (Sample.stripped 1).
Proof.
  cbv zeta.
  assert (H2 : map_Forall (λ k e, ev_v e = Some k)
                 (queue (Sample.dispatched_on Sample.models_tally))).
  { intros k e Hk.
    change (queue (Sample.dispatched_on Sample.models_tally))
      with (<[1 := Sample.inc 1]> (∅ : gmap Z Event)) in Hk.
    apply lookup_insert_Some in Hk as [[<- <-] | [_ Hk]]; [reflexivity|].
    by rewrite lookup_empty in Hk. }
  assert (H3 : ev_v (Sample.reduced 1) = Some 1) by reflexivity.
  assert (H4 : 1 ≠ 0) by lia.
  assert (H5 : ev_result (Sample.reduced 1)
               = Some [("counter", RChange [("ins", Sample.inc_rows)]);
                       ("metadata", version_change 1)]) by reflexivity.
  assert (H6 : Obj.get "metadata"
                 [("counter", RChange [("ins", Sample.inc_rows)]);
                  ("metadata", version_change 1)]
               = Some (version_change 1)) by reflexivity.
  assert (H7 : (applyEvent Sample.models_tally (Sample.fault_at 3) true
                  (Sample.reduced 1)
                  (Sample.dispatched_on Sample.models_tally)).1.1
               = Throws Sample.io_error) by (vm_compute; reflexivity).
  assert (H8 : ∃ e,
            e ∈ (applyEvent Sample.models_tally (Sample.fault_at 3) true
                   (Sample.reduced 1)
                   (Sample.dispatched_on Sample.models_tally)).2
            ∧ is_deriver e).
  { exists (RunDeriver "tally" (Sample.stripped 1)
              [("counter", RChange [("ins", Sample.inc_rows)])]).
    split; [|exact I].
    assert (Ht : (applyEvent Sample.models_tally (Sample.fault_at 3) true
                    (Sample.reduced 1)
                    (Sample.dispatched_on Sample.models_tally)).2
                 = [QueueSet (Sample.stripped 1);
                    ApplyChanges "counter"
                      (Some (RChange [("ins", Sample.inc_rows)]));
                    ApplyChanges "metadata" (Some (version_change 1));
                    RunDeriver "tally" (Sample.stripped 1)
                      [("counter", RChange [("ins", Sample.inc_rows)])]])
      by (vm_compute; reflexivity).
    rewrite Ht. rewrite !elem_of_cons. tauto. }
  pose proof (deriver_failure_is_not_retried Sample.models_tally
                (Sample.fault_at 3) true 0 (Sample.reduced 1) _ 1
                (Sample.dispatched_on Sample.models_tally) Sample.io_error
                tally_keeps_meta H2 H3 H4 H5 H6 H7 H8)
    as (_ & Hver & Hrow & _).
  split_and!; [exact tally_keeps_meta|exact H2|exact H3|exact H4|exact H5
              |exact H7|exact H8|exact Hver|exact Hrow].
Defined.

(** ** The apply phase with a deriver, undisturbed and with a failing
    reducer write *)

Lemma applyEvent_order_witness :
  let s := Sample.dispatched_on Sample.models_tally in
  let ok := applyEvent Sample.models_tally Sample.no_fault true
              (Sample.reduced 1) s in
  let failed := applyEvent Sample.models_tally (Sample.fault_at 1) true
                  (Sample.reduced 1) s in
  ok.1.1 = Returns () ∧
  ok.2 = [QueueSet (Sample.stripped 1);
          ApplyChanges "counter" (Some (RChange [("ins", Sample.inc_rows)]));
          ApplyChanges "metadata" (Some (version_change 1));
          RunDeriver "tally" (Sample.stripped 1)
            [("counter", RChange [("ins", Sample.inc_rows)])]] ∧
  meta (store ok.1.2) = Some 1 ∧
  failed.1.1 = Throws Sample.io_error ∧
  (∀ m, ApplyChanges "metadata" m ∉ failed.2) ∧
  (∀ e, e ∈ failed.2 → ¬ is_deriver e) ∧
  meta (store failed.1.2) = None.
Proof.
  cbv zeta.
  pose proof (applyEvent_order Sample.models_tally Sample.no_fault true
                (Sample.reduced 1) (Sample.dispatched_on Sample.models_tally))
    as Hok.
  pose proof (applyEvent_order Sample.models_tally (Sample.fault_at 1) true
                (Sample.reduced 1) (Sample.dispatched_on Sample.models_tally))
    as Hfailed.
  cbv zeta in Hok, Hfailed.
  destruct Hok as (Hplan & _ & _ & _ & _ & _ & _ & _ & _ & Hderiver).
  destruct Hfailed as (_ & _ & _ & _ & _ & _ & _ & _ & Hmeta & Hnone).
  assert (Hwrites : writes (Sample.dispatched_on Sample.models_tally) = 0%nat)
    by (vm_compute; reflexivity).
  assert (Hresult : ev_result (strip_metadata (Sample.reduced 1))
                    = Some [("counter", RChange [("ins", Sample.inc_rows)])])
    by reflexivity.
  assert (Hreturns : (applyEvent Sample.models_tally Sample.no_fault true
                        (Sample.reduced 1)
                        (Sample.dispatched_on Sample.models_tally)).1.1
                     = Returns ()) by (vm_compute; reflexivity).
  assert (Htrace : (applyEvent Sample.models_tally Sample.no_fault true
                      (Sample.reduced 1)
                      (Sample.dispatched_on Sample.models_tally)).2
                   = [QueueSet (Sample.stripped 1);
                      ApplyChanges "counter"
                        (Some (RChange [("ins", Sample.inc_rows)]));
                      ApplyChanges "metadata" (Some (version_change 1));
                      RunDeriver "tally" (Sample.stripped 1)
                        [("counter", RChange [("ins", Sample.inc_rows)])]]).
  { rewrite (Hplan Hreturns). vm_compute. reflexivity. }
  split_and!.
  - exact Hreturns.
  - exact Htrace.
  - destruct (Hderiver
                (RunDeriver "tally" (Sample.stripped 1)
                   [("counter", RChange [("ins", Sample.inc_rows)])])
                _ ltac:(rewrite Htrace, !elem_of_cons; tauto) I Hresult)
      as [_ Hversion].
    rewrite (Hversion tally_keeps_meta). reflexivity.
  - vm_compute. reflexivity.
  - intros m Hm. destruct (Hmeta m _ Hm Hresult) as [Hsucceed _].
    specialize (Hsucceed 1%nat). rewrite Hwrites in Hsucceed.
    assert (Sample.fault_at 1 1 = None) as Hno
      by (apply Hsucceed; simpl; lia).
    vm_compute in Hno. discriminate Hno.
  - intros e He Hder. destruct (Hnone e _ He Hder Hresult) as [Hsucceed _].
    specialize (Hsucceed 1%nat). rewrite Hwrites in Hsucceed.
    assert (Sample.fault_at 1 1 = None) as Hno
      by (apply Hsucceed; simpl; lia).
    vm_compute in Hno. discriminate Hno.
  - vm_compute. reflexivity.
Defined.
